(** * DLDeploy [r1.py]: context ingestion and diff application

    A shallow embedding of the helper functions and of the command
    handling of [r1.py], with the properties of its specification.

    Modelling conventions.
    - A Python [str] is represented by its UTF-8 encoding, a [string]
      (a sequence of 8-bit characters); file contents are byte strings
      of the same type, and decoding a file is a validity check
      followed by the universal-newline translation of text mode.
      Searching and replacing on the encodings agrees with searching
      and replacing on the code points, since a well-formed encoding
      only occurs in another at a character boundary.
    - The file system is a tree of directories and regular files
      without symbolic links, on a POSIX host ([/] separator, [\n]
      line separator).  A regular file carries its bytes and whether
      the process may open it for reading; writing into an existing
      directory or over a regular file always succeeds.
    - Every function that touches the outside world runs in the monad
      [M]: it threads a [world] (file system, working directory,
      conversation history, console, system-call log) and either
      returns a value or raises a Python exception.
    - Console output is a list of [message] values, one constructor per
      [console.print] call of the source. *)

From Stdlib Require Import String Ascii List ZArith NArith Bool Lia.
From Stdlib Require Import DecimalString.
Import ListNotations.

Local Open Scope list_scope.
Local Open Scope string_scope.
Local Open Scope Z_scope.

(* ================================================================= *)
(** ** Constants *)

(** The largest file, in bytes, that directory ingestion reads. *)
Definition MAX_FILE_SIZE : Z := 5000000.

(** The number of files after which directory ingestion stops. *)
Definition MAX_FILES_TO_PROCESS : Z := 1000.

(** The names of files and directories that directory ingestion
    leaves out; membership is tested on the whole name. *)
Definition EXCLUDED_FILES : list string :=
  [ ".DS_Store"; "Thumbs.db"; ".gitignore"; ".python-version"; "uv.lock";
    ".uv"; "uvenv"; ".uvenv"; ".venv"; "venv";
    "__pycache__"; ".pytest_cache"; ".coverage"; ".mypy_cache";
    "node_modules"; "package-lock.json"; "yarn.lock";
    "pnpm-lock.yaml"; ".next"; ".nuxt"; "dist"; "build"; ".cache";
    ".parcel-cache"; ".turbo"; ".vercel"; ".output";
    ".contentlayer"; "out"; "coverage"; ".nyc_output"; "storybook-static";
    ".env"; ".env.local"; ".env.development";
    ".env.production"; ".git"; ".svn"; ".hg"; "CVS" ].

(** The extensions, as [os.path.splitext] returns them, that directory
    ingestion leaves out. *)
Definition EXCLUDED_EXTENSIONS : list string :=
  [ ".png"; ".jpg"; ".jpeg"; ".gif"; ".ico"; ".svg"; ".webp"; ".avif";
    ".mp4"; ".webm"; ".mov"; ".mp3"; ".wav"; ".ogg";
    ".zip"; ".tar"; ".gz"; ".7z"; ".rar"; ".exe"; ".dll"; ".so"; ".dylib";
    ".bin"; ".pdf"; ".doc"; ".docx"; ".xls";
    ".xlsx"; ".ppt"; ".pptx"; ".pyc"; ".pyo"; ".pyd"; ".egg"; ".whl";
    ".uv"; ".uvenv"; ".db"; ".sqlite"; ".sqlite3";
    ".log"; ".idea"; ".vscode"; ".map"; ".chunk.js"; ".chunk.css";
    ".min.js"; ".min.css"; ".bundle.js"; ".bundle.css";
    ".cache"; ".tmp"; ".temp"; ".ttf"; ".otf"; ".woff"; ".woff2"; ".eot" ].

(* ================================================================= *)
(** ** Python string operations *)

Module Py.

(** [x in xs] for a set or list of strings. *)
Definition mem (x : string) (xs : list string) : bool :=
  existsb (String.eqb x) xs.

(** [s.startswith(p)]. *)
Definition startswith (s p : string) : bool := String.prefix p s.

(** [s.endswith(p)] for a one-character [p]. *)
Fixpoint endswith_char (s : string) (c : ascii) : bool :=
  match s with
  | EmptyString => false
  | String a EmptyString => Ascii.eqb a c
  | String _ s' => endswith_char s' c
  end.

(** [s[n:]]. *)
Fixpoint drop (n : nat) (s : string) : string :=
  match n, s with
  | O, _ => s
  | S n', String _ s' => drop n' s'
  | S _, EmptyString => EmptyString
  end.

(** [s[:n]]. *)
Fixpoint take (n : nat) (s : string) : string :=
  match n, s with
  | S n', String c s' => String c (take n' s')
  | _, _ => EmptyString
  end.

(** [old in s]: [old] occurs in [s] as a contiguous run. *)
Fixpoint contains (old s : string) : bool :=
  String.prefix old s
  || match s with
     | EmptyString => false
     | String _ s' => contains old s'
     end.

(** [s.replace(old, new, 1)]: the leftmost occurrence of [old] is
    replaced; the empty [old] occurs at offset 0. *)
Fixpoint replace1 (old new s : string) : string :=
  if String.prefix old s then new ++ drop (String.length old) s
  else match s with
       | EmptyString => EmptyString
       | String c s' => String c (replace1 old new s')
       end.

(** [c.lower()] on the ASCII range, which is where every entry of
    [EXCLUDED_EXTENSIONS] lives.  (Outside it only the Kelvin sign
    has an ASCII lower case, [k], and no entry that an extension can
    equal holds a [k].) *)
Definition lower_char (c : ascii) : ascii :=
  let n := N_of_ascii c in
  if ((65 <=? n) && (n <=? 90))%N then ascii_of_N (n + 32) else c.

(** [s.lower()]. *)
Fixpoint lower (s : string) : string :=
  match s with
  | EmptyString => EmptyString
  | String c s' => String (lower_char c) (lower s')
  end.

(** [s.split(sep)] for a one-character separator. *)
Fixpoint split (sep : ascii) (s : string) : list string :=
  match s with
  | EmptyString => [EmptyString]
  | String c s' =>
      if Ascii.eqb c sep then EmptyString :: split sep s'
      else match split sep s' with
           | [] => [String c EmptyString]
           | h :: t => String c h :: t
           end
  end.

(** [sep.join(parts)]. *)
Fixpoint join (sep : string) (parts : list string) : string :=
  match parts with
  | [] => EmptyString
  | [p] => p
  | p :: ps => p ++ sep ++ join sep ps
  end.

(** [s.rfind(c)] for a one-character [c]: the last index, or -1. *)
Fixpoint rfind_from (c : ascii) (s : string) (i last : Z) : Z :=
  match s with
  | EmptyString => last
  | String a s' => rfind_from c s' (i + 1) (if Ascii.eqb a c then i else last)
  end.

Definition rfind (s : string) (c : ascii) : Z := rfind_from c s 0 (-1).

(** [len(s)] as a Python integer. *)
Fixpoint len_from (s : string) (acc : Z) : Z :=
  match s with
  | EmptyString => acc
  | String _ s' => len_from s' (acc + 1)
  end.

Definition len (s : string) : Z := len_from s 0.

End Py.

(* ================================================================= *)
(** ** [os.path] on a POSIX host *)

Module OsPath.

Definition sep : ascii := "/"%char.
Definition extsep : ascii := "."%char.

(** [posixpath.join(a, b)]. *)
Definition join (a b : string) : string :=
  if Py.startswith b "/" then b
  else if String.eqb a "" || Py.endswith_char a sep then a ++ b
  else a ++ "/" ++ b.

(** The string consists of dots. *)
Fixpoint all_dots (s : string) : bool :=
  match s with
  | EmptyString => true
  | String c s' => Ascii.eqb c extsep && all_dots s'
  end.

(** [genericpath._splitext]: the extension starts at the last dot of
    the base name, unless only dots precede it. *)
Definition splitext (p : string) : string * string :=
  let sepIndex := Py.rfind p sep in
  let dotIndex := Py.rfind p extsep in
  if dotIndex >? sepIndex then
    let base_before_dot :=
      Py.take (Z.to_nat (dotIndex - (sepIndex + 1)))
              (Py.drop (Z.to_nat (sepIndex + 1)) p) in
    if all_dots base_before_dot then (p, "")
    else (Py.take (Z.to_nat dotIndex) p, Py.drop (Z.to_nat dotIndex) p)
  else (p, "").

End OsPath.

(* ================================================================= *)
(** ** Text decoding: [open(..., "r", encoding="utf-8").read()] *)

Module Text.

(** The byte lies between [lo] and [hi]. *)
Definition in_range (lo hi : N) (c : ascii) : bool :=
  let n := N_of_ascii c in ((lo <=? n) && (n <=? hi))%N.

(** A continuation byte. *)
Definition cont := in_range 128 191.

(** Well-formed UTF-8 byte sequences (RFC 3629): what Python's strict
    decoder accepts. *)
Fixpoint utf8_valid (s : string) : bool :=
  match s with
  | EmptyString => true
  | String b0 s1 =>
      if in_range 0 127 b0 then utf8_valid s1
      else match s1 with
      | EmptyString => false
      | String b1 s2 =>
          if in_range 194 223 b0 then cont b1 && utf8_valid s2
          else match s2 with
          | EmptyString => false
          | String b2 s3 =>
              if in_range 224 224 b0 then
                in_range 160 191 b1 && cont b2 && utf8_valid s3
              else if in_range 225 236 b0 || in_range 238 239 b0 then
                cont b1 && cont b2 && utf8_valid s3
              else if in_range 237 237 b0 then
                in_range 128 159 b1 && cont b2 && utf8_valid s3
              else match s3 with
              | EmptyString => false
              | String b3 s4 =>
                  if in_range 240 240 b0 then
                    in_range 144 191 b1 && cont b2 && cont b3 && utf8_valid s4
                  else if in_range 241 243 b0 then
                    cont b1 && cont b2 && cont b3 && utf8_valid s4
                  else if in_range 244 244 b0 then
                    in_range 128 143 b1 && cont b2 && cont b3 && utf8_valid s4
                  else false
              end
          end
      end
  end.

Definition CR : ascii := ascii_of_N 13.
Definition LF : ascii := ascii_of_N 10.

(** Universal newlines ([newline=None]) on input: CR LF and a lone CR
    both become LF. *)
Fixpoint universal_newlines (s : string) : string :=
  match s with
  | EmptyString => EmptyString
  | String c s' =>
      if Ascii.eqb c CR then
        match s' with
        | String d s'' =>
            if Ascii.eqb d LF then String LF (universal_newlines s'')
            else String LF (universal_newlines s')
        | EmptyString => String LF EmptyString
        end
      else String c (universal_newlines s')
  end.

(** The text a file's bytes decode to, if they are UTF-8. *)
Definition decode (bytes : string) : option string :=
  if utf8_valid bytes then Some (universal_newlines bytes) else None.

(** Writing text: [\n] is written as [os.linesep], which is [\n]. *)
Definition encode (text : string) : string := text.

End Text.

(* ================================================================= *)
(** ** The file system *)

(** A regular file: its bytes, and whether the process may open it
    for reading. *)
Record file := mkFile { data : string; readable : bool }.

(** A regular file, or a directory with its listing in the order in
    which [os.scandir] yields it. *)
#[local] Unset Elimination Schemes.
Inductive node :=
| File (f : file)
| Dir (entries : list (string * node)).
#[local] Set Elimination Schemes.

(** The exceptions of the file operations and of the path check.  The
    first five are subclasses of [OSError], [UnicodeDecodeError] is a
    subclass of [ValueError].  What the console or the interpreter can
    raise besides (a markup error of [console.print] on a path with
    square brackets, a [RuntimeError] of [Path.resolve]) is not in this
    type: where a statement says that a call returns normally, it is
    about the exceptions of this type. *)
Inductive exn :=
| FileNotFoundError
| IsADirectoryError
| NotADirectoryError
| PermissionError
| FileExistsError
| UnicodeDecodeError
| ValueError (msg : string).

(** [isinstance(e, OSError)], as the [except] clauses test it. *)
Definition isinstance_OSError (e : exn) : bool :=
  match e with
  | FileNotFoundError | IsADirectoryError | NotADirectoryError
  | PermissionError | FileExistsError => true
  | UnicodeDecodeError | ValueError _ => false
  end.

(** [isinstance(e, FileNotFoundError)]. *)
Definition isinstance_FileNotFoundError (e : exn) : bool :=
  match e with FileNotFoundError => true | _ => false end.

(** [isinstance(e, ValueError)]. *)
Definition isinstance_ValueError (e : exn) : bool :=
  match e with UnicodeDecodeError | ValueError _ => true | _ => false end.

Module FS.

(** The first entry of a directory listing with the given name. *)
Fixpoint assoc (name : string) (es : list (string * node)) : option node :=
  match es with
  | [] => None
  | (k, v) :: es' => if String.eqb k name then Some v else assoc name es'
  end.

(** The node at a canonical path, given from the root by its
    components. *)
Fixpoint lookup (t : node) (p : list string) : option node :=
  match p with
  | [] => Some t
  | c :: p' =>
      match t with
      | File _ => None
      | Dir es =>
          match assoc c es with
          | Some child => lookup child p'
          | None => None
          end
      end
  end.

(** Change the first entry named [name] of a listing by [f], which
    also says what to add when there is none. *)
Fixpoint alter (f : option node -> option node) (name : string)
    (es : list (string * node)) : list (string * node) :=
  match es with
  | [] => match f None with Some n => [(name, n)] | None => [] end
  | (k, v) :: es' =>
      if String.eqb k name then
        match f (Some v) with Some n => (k, n) :: es' | None => es' end
      else (k, v) :: alter f name es'
  end.

(** Place node [n] at canonical path [p]: replaces what is there, or
    adds an entry to the parent directory when the parent exists. *)
Fixpoint put (p : list string) (n : node) (t : node) : node :=
  match p with
  | [] => n
  | c :: p' =>
      match t with
      | File _ => t
      | Dir es =>
          Dir (alter (fun o =>
                        match o with
                        | Some child => Some (put p' n child)
                        | None => match p' with [] => Some n | _ => o end
                        end) c es)
      end
  end.

(** The components that lead nowhere: the empty one and [.]. *)
Definition trivial (c : string) : bool := String.eqb c "" || String.eqb c ".".

(** Path resolution by the kernel: from directory [cur], follow the
    components one at a time; every component is looked up in a
    directory, [..] goes to the parent, the empty component and [.]
    stay.  The last component need not exist. *)
Fixpoint locate (t : node) (cur : list string) (comps : list string)
  : exn + list string :=
  match comps with
  | [] => inr cur
  | c :: rest =>
      match lookup t cur with
      | Some (Dir _) =>
          if trivial c then locate t cur rest
          else if String.eqb c ".." then locate t (removelast cur) rest
          else locate t (cur ++ [c]) rest
      | Some (File _) => inl NotADirectoryError
      | None => inl FileNotFoundError
      end
  end.

(** Where the resolution of a path string starts: at the root for an
    absolute path, at the working directory otherwise. *)
Definition start (cwd : list string) (path : string) : list string :=
  if Py.startswith path "/" then [] else cwd.

(** The canonical path a path string leads to; the empty string names
    no file. *)
Definition resolve (t : node) (cwd : list string) (path : string)
  : exn + list string :=
  if String.eqb path "" then inl FileNotFoundError
  else locate t (start cwd path) (Py.split OsPath.sep path).

(** [open(path, "rb").read()] / the bytes behind [open(path, "r")]. *)
Definition read_bytes (t : node) (cwd : list string) (path : string)
  : exn + string :=
  match resolve t cwd path with
  | inl e => inl e
  | inr loc =>
      match lookup t loc with
      | None => inl FileNotFoundError
      | Some (Dir _) => inl IsADirectoryError
      | Some (File f) => if readable f then inr (data f) else inl PermissionError
      end
  end.

(** [os.stat(path).st_size] of a regular file; a directory reports the
    size of its own record, taken as 4096. *)
Definition stat_size (t : node) (cwd : list string) (path : string)
  : exn + Z :=
  match resolve t cwd path with
  | inl e => inl e
  | inr loc =>
      match lookup t loc with
      | None => inl FileNotFoundError
      | Some (Dir _) => inr 4096
      | Some (File f) => inr (Py.len (data f))
      end
  end.

(** [os.path.isdir(path)]: false on every error. *)
Definition isdir (t : node) (cwd : list string) (path : string) : bool :=
  match resolve t cwd path with
  | inr loc => match lookup t loc with Some (Dir _) => true | _ => false end
  | inl _ => false
  end.

(** [open(path, "w").write(bytes)]: truncates an existing regular file
    or creates a new one in an existing directory. *)
Definition write_bytes (t : node) (cwd : list string) (path : string)
    (bytes : string) : exn + node :=
  match resolve t cwd path with
  | inl e => inl e
  | inr loc =>
      match lookup t loc with
      | Some (Dir _) => inl IsADirectoryError
      | Some (File f) => inr (put loc (File (mkFile bytes (readable f))) t)
      | None => inr (put loc (File (mkFile bytes true)) t)
      end
  end.

(** [Path.mkdir(parents=True, exist_ok=True)] on the components of a
    path: directories that are missing on the way are created, an
    existing directory is accepted, a regular file in the way is an
    error.  A failure gives the error only: it says nothing of
    directories made before it, which can exist only when a [..]
    follows a missing directory. *)
Fixpoint makedirs (t : node) (cur : list string) (parts : list string)
  : exn + node :=
  match lookup t cur with
  | Some (Dir _) =>
      match parts with
      | [] => inr t
      | c :: rest =>
          if String.eqb c ".." then makedirs t (removelast cur) rest
          else
            let next := (cur ++ [c])%list in
            match lookup t next with
            | None => makedirs (put next (Dir []) t) next rest
            | Some _ => makedirs t next rest
            end
      end
  | Some (File _) =>
      match parts with
      | [] => inl FileExistsError
      | _ => inl NotADirectoryError
      end
  | None => inl FileNotFoundError
  end.

End FS.

(* ================================================================= *)
(** ** [pathlib.PurePosixPath] *)

Module Pathlib.

(** A path object: whether it is anchored at the root, and its parts
    after the anchor.  Construction drops empty and [.] components.
    (The anchor [//] that POSIX leaves to the implementation is read
    as [/].) *)
Record Path := mkPath { absolute : bool; parts : list string }.

(** [Path(s)]. *)
Definition of_string (s : string) : Path :=
  mkPath (Py.startswith s "/")
         (filter (fun c => negb (FS.trivial c)) (Py.split OsPath.sep s)).

(** [str(path)]. *)
Definition to_string (p : Path) : string :=
  match absolute p, parts p with
  | false, [] => "."
  | false, ps => Py.join "/" ps
  | true, ps => "/" ++ Py.join "/" ps
  end.

(** [path.parent]. *)
Definition parent (p : Path) : Path := mkPath (absolute p) (removelast (parts p)).

(** One step of [os.path.realpath] on a tree without symbolic links:
    [..] removes the last component (the root is its own parent), any
    other name is appended. *)
Definition realpath_step (acc : list string) (c : string) : list string :=
  if String.eqb c ".." then removelast acc else (acc ++ [c])%list.

(** [path.resolve()]: the absolute path, [..] eliminated. *)
Definition resolve (cwd : list string) (p : Path) : Path :=
  mkPath true (fold_left realpath_step (parts p) (if absolute p then [] else cwd)).

End Pathlib.

(* ================================================================= *)
(** ** The world and the monad of effects *)

Inductive role := system | user | assistant.

(** One element of [conversation_history]. *)
Record entry := mkEntry { entry_role : role; content : string }.

(** One [console.print] call. *)
Inductive message :=
| MsgCreated (file_path : string)
| MsgAppliedDiff (path : string)
| MsgFileNotFound (path : string)
| MsgNoChangesMade (e : exn) (path : string)
| MsgAddedFile (file_path : string)
| MsgCouldNotAddFile (file_path : string) (e : exn)
| MsgReachedLimit (limit : Z)
| MsgAddedFolder (directory_path : string)
| MsgAddedFiles (count : Z) (total : Z) (files : list string)
| MsgSkippedFiles (count : Z) (files : list string)
| MsgBlank
| MsgCouldNotAddPath (path_to_add : string) (e : exn)
| MsgSkippedDiffEdits.

(** One request to the operating system, with the path as passed. *)
Inductive syscall :=
| SysOpenRead (path : string)
| SysOpenReadBinary (path : string)
| SysOpenWrite (path : string)
| SysStat (path : string)
| SysMkdir (path : string)
| SysScandir (path : string).

(** What the program acts on: the file system and the working
    directory of the process, the global [conversation_history], what
    was printed, and the system calls made so far. *)
Record world := mkWorld {
  fs : node;
  cwd : list string;
  conversation_history : list entry;
  console : list message;
  syscalls : list syscall
}.

(** How a call ends: with a value, or with an exception. *)
Inductive outcome (A : Type) :=
| Return (a : A)
| Raise (e : exn).
Arguments Return {A} a.
Arguments Raise {A} e.

(** A computation: from a world to an outcome and the world it leaves. *)
Definition M (A : Type) : Type := world -> outcome A * world.

Definition ret {A} (a : A) : M A := fun w => (Return a, w).

(** Sequencing: an exception of the first part skips the second. *)
Definition bind {A B} (m : M A) (k : A -> M B) : M B :=
  fun w =>
    match m w with
    | (Return a, w') => k a w'
    | (Raise e, w') => (Raise e, w')
    end.

(** [raise e]. *)
Definition raise {A} (e : exn) : M A := fun w => (Raise e, w).

(** [try: body except ...: handler]; [handler e = None] when no clause
    matches [e]. *)
Definition try_except {A} (body : M A) (handler : exn -> option (M A)) : M A :=
  fun w =>
    match body w with
    | (Return a, w') => (Return a, w')
    | (Raise e, w') =>
        match handler e with
        | Some h => h w'
        | None => (Raise e, w')
        end
    end.

Declare Scope monad_scope.
Delimit Scope monad_scope with monad.
Notation "x <- m ;; k" := (bind m (fun x => k))
  (at level 61, m at next level, right associativity) : monad_scope.
Notation "m ;; k" := (bind m (fun _ => k))
  (at level 61, right associativity) : monad_scope.
Local Open Scope monad_scope.

Definition get_world : M world := fun w => (Return w, w).

(** The four ways a step changes the world. *)
Definition printed (m : message) (w : world) : world :=
  mkWorld (fs w) (cwd w) (conversation_history w) (console w ++ [m]) (syscalls w).

Definition appended (e : entry) (w : world) : world :=
  mkWorld (fs w) (cwd w) (conversation_history w ++ [e]) (console w) (syscalls w).

Definition called (c : syscall) (w : world) : world :=
  mkWorld (fs w) (cwd w) (conversation_history w) (console w) (syscalls w ++ [c]).

Definition with_fs (t : node) (w : world) : world :=
  mkWorld t (cwd w) (conversation_history w) (console w) (syscalls w).

(** [console.print(...)]. *)
Definition console_print (m : message) : M unit :=
  fun w => (Return tt, printed m w).

(** [conversation_history.append(e)]. *)
Definition history_append (e : entry) : M unit :=
  fun w => (Return tt, appended e w).

(** Record a system call. *)
Definition sys (c : syscall) : M unit :=
  fun w => (Return tt, called c w).

Definition set_fs (t : node) : M unit :=
  fun w => (Return tt, with_fs t w).

(** The result of a file-system operation as an outcome. *)
Definition lift {A} (r : exn + A) : M A :=
  match r with inl e => raise e | inr a => ret a end.

(** [open(path, "r", encoding="utf-8")] followed by [read()]. *)
Definition open_read_text (path : string) : M string :=
  sys (SysOpenRead path) ;;
  w <- get_world ;;
  bytes <- lift (FS.read_bytes (fs w) (cwd w) path) ;;
  match Text.decode bytes with
  | Some text => ret text
  | None => raise UnicodeDecodeError
  end.

(** [open(path, "rb")] followed by [read(n)]. *)
Definition open_read_binary (path : string) (n : nat) : M string :=
  sys (SysOpenReadBinary path) ;;
  w <- get_world ;;
  bytes <- lift (FS.read_bytes (fs w) (cwd w) path) ;;
  ret (Py.take n bytes).

(** [open(path, "w", encoding="utf-8")] followed by [write(text)]. *)
Definition open_write_text (path : string) (text : string) : M unit :=
  sys (SysOpenWrite path) ;;
  w <- get_world ;;
  t <- lift (FS.write_bytes (fs w) (cwd w) path (Text.encode text)) ;;
  set_fs t.

(** [path.mkdir(parents=True, exist_ok=True)]. *)
Definition mkdir_parents (p : Pathlib.Path) : M unit :=
  sys (SysMkdir (Pathlib.to_string p)) ;;
  w <- get_world ;;
  t <- lift (FS.makedirs (fs w)
               (if Pathlib.absolute p then [] else cwd w) (Pathlib.parts p)) ;;
  set_fs t.

(** [os.path.getsize(path)]. *)
Definition getsize (path : string) : M Z :=
  sys (SysStat path) ;;
  w <- get_world ;;
  lift (FS.stat_size (fs w) (cwd w) path).

(** [os.path.isdir(path)]. *)
Definition isdir (path : string) : M bool :=
  sys (SysStat path) ;;
  w <- get_world ;;
  ret (FS.isdir (fs w) (cwd w) path).

(* ================================================================= *)
(** ** Helper functions of [r1.py] *)

(** [read_local_file]: the content of a local file. *)
Definition read_local_file (file_path : string) : M string :=
  open_read_text file_path.

(** [create_file]: create or overwrite a file with the given content. *)
Definition create_file (path : string) (content : string) : M unit :=
  let file_path := Pathlib.of_string path in
  mkdir_parents (Pathlib.parent file_path) ;;
  open_write_text (Pathlib.to_string file_path) content ;;
  console_print (MsgCreated (Pathlib.to_string file_path)).

(** [apply_diff_edit]: the text of the file with the first occurrence
    of [original_snippet] replaced is written back; the two [except]
    clauses report a missing file and a [ValueError]. *)
Definition apply_diff_edit (path original_snippet new_snippet : string)
  : M unit :=
  try_except
    (content <- read_local_file path ;;
     let updated_content := Py.replace1 original_snippet new_snippet content in
     create_file path updated_content ;;
     console_print (MsgAppliedDiff path))
    (fun e =>
       if isinstance_FileNotFoundError e then
         Some (console_print (MsgFileNotFound path))
       else if isinstance_ValueError e then
         Some (console_print (MsgNoChangesMade e path))
       else None).

(** The line that precedes a file's text in its conversation entry. *)
Definition file_header (file_path : string) : string :=
  "Content of file '" ++ file_path ++ "':" ++ String Text.LF (String Text.LF "").

(** [add_file_to_conversation]: the file's text becomes a system
    entry; an [OSError] of the read is reported and swallowed. *)
Definition add_file_to_conversation (file_path : string) : M unit :=
  try_except
    (content <- read_local_file file_path ;;
     history_append (mkEntry system (file_header file_path ++ content)) ;;
     console_print (MsgAddedFile file_path))
    (fun e =>
       if isinstance_OSError e then
         Some (console_print (MsgCouldNotAddFile file_path e))
       else None).

Definition NUL : ascii := ascii_of_N 0.

(** [b'\0' in sample]. *)
Fixpoint has_nul (s : string) : bool :=
  match s with
  | EmptyString => false
  | String c s' => Ascii.eqb c NUL || has_nul s'
  end.

(** [is_binary_file]: a NUL among the first 1024 bytes; any exception
    counts as binary. *)
Definition is_binary_file (file_path : string) : M bool :=
  try_except
    (sample <- open_read_binary file_path 1024 ;;
     ret (has_nul sample))
    (fun _ => Some (ret true)).

(* ================================================================= *)
(** ** Directory ingestion *)

(** The local variables of [add_directory_to_conversation]. *)
Record walk_state := mkWalk {
  skipped_files : list string;
  added_files : list string;
  total_files_processed : Z
}.

(** [skipped_files.append(item)]. *)
Definition skip (st : walk_state) (item : string) : walk_state :=
  mkWalk (skipped_files st ++ [item]) (added_files st) (total_files_processed st).

(** [added_files.append(item)] and [total_files_processed += 1]. *)
Definition add (st : walk_state) (item : string) : walk_state :=
  mkWalk (skipped_files st) (added_files st ++ [item])
         (total_files_processed st + 1).

(** The name test shared by the pruning of [dirs] and the first test on
    a file: hidden, or in [EXCLUDED_FILES]. *)
Definition excluded_name (name : string) : bool :=
  Py.startswith name "." || Py.mem name EXCLUDED_FILES.

(** The body of [for file in files], after the limit test.  The
    handler of [OSError] sees the lists as they were when the [try]
    was entered: nothing is appended inside the [try] before a call
    that can raise. *)
Definition visit_file (root file : string) (st : walk_state) : M walk_state :=
  if excluded_name file then ret (skip st (OsPath.join root file))
  else
    let ext := snd (OsPath.splitext file) in
    if Py.mem (Py.lower ext) EXCLUDED_EXTENSIONS then
      ret (skip st (OsPath.join root file))
    else
      let full_path := OsPath.join root file in
      try_except
        (size <- getsize full_path ;;
         if size >? MAX_FILE_SIZE then
           ret (skip st (full_path ++ " (exceeds size limit)"))
         else
           binary <- is_binary_file full_path ;;
           if binary then ret (skip st full_path)
           else
             add_file_to_conversation full_path ;;
             ret (add st full_path))
        (fun e =>
           if isinstance_OSError e then Some (ret (skip st full_path))
           else None).

(** [for file in files: ...], with its [break]. *)
Fixpoint visit_files (root : string) (files : list string) (st : walk_state)
  : M walk_state :=
  match files with
  | [] => ret st
  | file :: rest =>
      if total_files_processed st >=? MAX_FILES_TO_PROCESS then ret st
      else st' <- visit_file root file st ;; visit_files root rest st'
  end.

Definition is_dir_node (n : node) : bool :=
  match n with Dir _ => true | File _ => false end.

(** The [files] that [os.walk] yields next to [root] for a directory
    listing: the names of the entries that are not directories. *)
Definition file_names (es : list (string * node)) : list string :=
  map fst (filter (fun e => negb (is_dir_node (snd e))) es).

(** The descent of [os.walk] into the sub-directories that the loop
    body left in [dirs], in listing order: an entry is walked when it
    is a directory and passes the test of
    [dirs[:] = [d for d in dirs if not d.startswith('.') and d not in EXCLUDED_FILES]].
    [walk_child] is the walk of one sub-directory; the [bool] says
    whether the outer [break] was taken, which ends the whole walk. *)
Fixpoint descend (walk_child : string -> node -> walk_state -> M (walk_state * bool))
    (root : string) (es : list (string * node)) (st : walk_state)
  : M (walk_state * bool) :=
  match es with
  | [] => ret (st, false)
  | (d, child) :: es' =>
      if is_dir_node child && negb (excluded_name d) then
        r <- walk_child (OsPath.join root d) child st ;;
        if snd r then ret r else descend walk_child root es' (fst r)
      else descend walk_child root es' st
  end.

(** [for root, dirs, files in os.walk(...)] with the loop body, from
    the directory [n] found at [root].  [os.walk] lists the directory
    and yields; the body tests the limit, prunes [dirs] and visits the
    files; then the walk goes on in the sub-directories.  Every
    directory of the file system here can be listed; [os.walk], called
    without [onerror], passes over one that cannot. *)
Fixpoint walk (root : string) (n : node) (st : walk_state)
  : M (walk_state * bool) :=
  match n with
  | File _ => ret (st, false)
  | Dir es =>
      sys (SysScandir root) ;;
      if total_files_processed st >=? MAX_FILES_TO_PROCESS then
        console_print (MsgReachedLimit MAX_FILES_TO_PROCESS) ;;
        ret (st, true)
      else
        st1 <- visit_files root (file_names es) st ;;
        descend walk root es st1
  end.

(** What [os.walk] finds at its starting path, if anything. *)
Definition os_walk_top (directory_path : string) : M (option node) :=
  w <- get_world ;;
  match FS.resolve (fs w) (cwd w) directory_path with
  | inr loc => ret (FS.lookup (fs w) loc)
  | inl _ => ret None
  end.

(** The loop of [add_directory_to_conversation], from the empty lists
    and the counter 0; a starting path that cannot be listed yields
    nothing. *)
Definition scan_directory (directory_path : string) : M walk_state :=
  top <- os_walk_top directory_path ;;
  match top with
  | Some n =>
      r <- walk directory_path n (mkWalk [] [] 0) ;;
      ret (fst r)
  | None => ret (mkWalk [] [] 0)
  end.

(** The report that follows the loop. *)
Definition report (directory_path : string) (st : walk_state) : M unit :=
  console_print (MsgAddedFolder directory_path) ;;
  (match added_files st with
   | [] => ret tt
   | _ => console_print (MsgAddedFiles (Z.of_nat (List.length (added_files st)))
                           (total_files_processed st) (added_files st))
   end) ;;
  (match skipped_files st with
   | [] => ret tt
   | _ => console_print (MsgSkippedFiles (Z.of_nat (List.length (skipped_files st)))
                           (skipped_files st))
   end) ;;
  console_print MsgBlank.

(** [add_directory_to_conversation]: the loop, then the report. *)
Definition add_directory_to_conversation (directory_path : string) : M unit :=
  st <- scan_directory directory_path ;;
  report directory_path st.

(* ================================================================= *)
(** ** Path validation and the [/add] command *)

Definition normalize_path (path_str : string) : M string :=
  w <- get_world ;;
  let path := Pathlib.resolve (cwd w) (Pathlib.of_string path_str) in
  if Py.mem ".." ("/" :: Pathlib.parts path) then
    raise (ValueError ("Invalid path: " ++ path_str
                       ++ " contains parent directory references"))
  else ret (Pathlib.to_string path).

(** The body of [if user_input.strip().lower().startswith("/add ")],
    from [path_to_add]. *)
Definition add_path (path_to_add : string) : M unit :=
  try_except
    (normalized_path <- normalize_path path_to_add ;;
     d <- isdir normalized_path ;;
     if d then add_directory_to_conversation normalized_path
     else add_file_to_conversation normalized_path)
    (fun e =>
       if isinstance_OSError e || isinstance_ValueError e then
         Some (console_print (MsgCouldNotAddPath path_to_add e))
       else None).

(* ================================================================= *)
(** ** The structured response and its application *)

(** The classes of the response, with the fields of the source. *)
Module FileToCreate.
Record t := make { path : string; content : string }.
End FileToCreate.

Module FileToEdit.
Record t := make { path : string; original_snippet : string; new_snippet : string }.
End FileToEdit.

Module AssistantResponse.
Record t := make {
  assistant_reply : string;
  files_to_create : option (list FileToCreate.t);
  files_to_edit : option (list FileToEdit.t)
}.
End AssistantResponse.

(** [for x in xs: body(x)]. *)
Fixpoint for_each {A} (body : A -> M unit) (xs : list A) : M unit :=
  match xs with
  | [] => ret tt
  | x :: xs' => body x ;; for_each body xs'
  end.

(** The part of the main loop that follows the model call: creations
    are applied at once, edits after the user's answer [confirm] (the
    prompt's reply, stripped and lower-cased). *)
Definition apply_response (response_data : AssistantResponse.t)
    (confirm : string) : M unit :=
  (match AssistantResponse.files_to_create response_data with
   | Some ((_ :: _) as creates) =>
       for_each (fun file_info =>
                   create_file (FileToCreate.path file_info)
                               (FileToCreate.content file_info)) creates
   | _ => ret tt
   end) ;;
  match AssistantResponse.files_to_edit response_data with
  | Some ((_ :: _) as edits) =>
      if String.eqb confirm "y" then
        for_each (fun edit_info =>
                    apply_diff_edit (FileToEdit.path edit_info)
                                    (FileToEdit.original_snippet edit_info)
                                    (FileToEdit.new_snippet edit_info)) edits
      else console_print MsgSkippedDiffEdits
  | _ => ret tt
  end.

(** Modelled from the spec: the raw response, a parsed JSON document. *)
#[local] Unset Elimination Schemes.
Inductive json :=
| JNull
| JBool (b : bool)
| JNumber (n : Z)
| JString (s : string)
| JArray (items : list json)
| JObject (fields : list (string * json)).
#[local] Set Elimination Schemes.

Module Interpreter.

(** Modelled from the spec: the value of a key of the response
    object; of two equal keys the later one counts. *)
Fixpoint get (key : string) (fields : list (string * json)) : option json :=
  match fields with
  | [] => None
  | (k, v) :: rest =>
      match get key rest with
      | Some v' => Some v'
      | None => if String.eqb k key then Some v else None
      end
  end.

(** Modelled from the spec: the one failure of interpretation. *)
Inductive error := SchemaError.

(** Modelled from the spec: a required field must be there and must be
    text. *)
Definition required_text (key : string) (fields : list (string * json))
  : error + string :=
  match get key fields with
  | Some (JString s) => inr s
  | _ => inl SchemaError
  end.

(** Modelled from the spec: an entry of the create list supplies
    [path] and [content]. *)
Definition create_entry (j : json) : error + FileToCreate.t :=
  match j with
  | JObject fields =>
      match required_text "path" fields, required_text "content" fields with
      | inr p, inr c => inr (FileToCreate.make p c)
      | _, _ => inl SchemaError
      end
  | _ => inl SchemaError
  end.

(** Modelled from the spec: an entry of the edit list supplies [path],
    [original_snippet] and [new_snippet]. *)
Definition edit_entry (j : json) : error + FileToEdit.t :=
  match j with
  | JObject fields =>
      match required_text "path" fields,
            required_text "original_snippet" fields,
            required_text "new_snippet" fields with
      | inr p, inr o, inr n => inr (FileToEdit.make p o n)
      | _, _, _ => inl SchemaError
      end
  | _ => inl SchemaError
  end.

(** Modelled from the spec: one bad entry fails the whole list. *)
Fixpoint all_entries {A} (f : json -> error + A) (items : list json)
  : error + list A :=
  match items with
  | [] => inr []
  | j :: rest =>
      match f j, all_entries f rest with
      | inr a, inr l => inr (a :: l)
      | _, _ => inl SchemaError
      end
  end.

(** Modelled from the spec: an optional list may be missing or null,
    and is otherwise an array of entries. *)
Definition optional_list {A} (f : json -> error + A) (key : string)
    (fields : list (string * json)) : error + option (list A) :=
  match get key fields with
  | None | Some JNull => inr None
  | Some (JArray items) =>
      match all_entries f items with
      | inr l => inr (Some l)
      | inl e => inl e
      end
  | Some _ => inl SchemaError
  end.

(** Modelled from the spec: the Response Interpreter
    ([stream_openai_response], which [main] calls, is not part of the
    source).  Section 4.3: the response is one JSON object; unknown
    fields are ignored, a missing optional field is empty, the reply
    must be text, every create and edit entry must supply all its
    required fields, and any mismatch fails the whole interpretation.
    The fields and their types are those of the class
    [AssistantResponse]. *)
Definition interpret (raw : json) : error + AssistantResponse.t :=
  match raw with
  | JObject fields =>
      match required_text "assistant_reply" fields,
            optional_list create_entry "files_to_create" fields,
            optional_list edit_entry "files_to_edit" fields with
      | inr reply, inr creates, inr edits =>
          inr (AssistantResponse.make reply creates edits)
      | _, _, _ => inl SchemaError
      end
  | _ => inl SchemaError
  end.

End Interpreter.

(** Modelled from the spec: one model turn from the raw response on.
    Section 7: on a [SchemaError] the turn is reported as failed and no
    file operation is attempted; otherwise the proposal goes to the
    main loop's application code. *)
Definition handle_response (raw : json) (confirm : string)
  : M (option Interpreter.error) :=
  match Interpreter.interpret raw with
  | inl e => ret (Some e)
  | inr response_data => apply_response response_data confirm ;; ret None
  end.

(* ================================================================= *)
(** * Vocabulary of the properties *)

(** ** Occurrences of a snippet *)

(** An occurrence: [s] is [pre], then [old], then [post]. *)
Definition occurs_at (old s pre post : string) : Prop := s = pre ++ old ++ post.

(** The leftmost occurrence: no occurrence starts earlier. *)
Definition leftmost (old s pre post : string) : Prop :=
  occurs_at old s pre post /\
  forall pre' post', occurs_at old s pre' post' ->
                     (String.length pre <= String.length pre')%nat.

(** ** Paths and names *)

(** What is at a canonical path: nothing, a regular file, a directory. *)
Inductive kind := KNone | KFile | KDir.

(** The kind of what a lookup found. *)
Definition kind_of (o : option node) : kind :=
  match o with
  | None => KNone
  | Some (File _) => KFile
  | Some (Dir _) => KDir
  end.

(** The world after a write over the existing file at [loc]. *)
Definition rewritten (w : world) (path : string) (loc : list string)
    (f : file) (content : string) : world :=
  let file_path := Pathlib.of_string path in
  mkWorld (FS.put loc (File (mkFile (Text.encode content) (readable f))) (fs w))
          (cwd w) (conversation_history w)
          (console w ++ [MsgCreated (Pathlib.to_string file_path)])
          (syscalls w ++ [SysMkdir (Pathlib.to_string (Pathlib.parent file_path));
                          SysOpenWrite (Pathlib.to_string file_path)]).

(** ** Traces of the directory walk *)

(** The path a system call is about. *)
Definition syscall_path (c : syscall) : string :=
  match c with
  | SysOpenRead p | SysOpenReadBinary p | SysOpenWrite p
  | SysStat p | SysMkdir p | SysScandir p => p
  end.

(** The positions, relative to the directory [n] where the walk
    starts, that the walk may touch: the directory itself, its files,
    and what is touched in the same way in a sub-directory whose name
    is neither hidden nor denylisted. *)
Inductive via : node -> list string -> Prop :=
| via_top es : via (Dir es) []
| via_file es name f : In (name, File f) es -> via (Dir es) [name]
| via_sub es d child cs :
    In (d, child) es -> excluded_name d = false -> via child cs ->
    via (Dir es) (d :: cs).

(** The positions of the directories that the walk prunes: a child
    directory with a hidden or denylisted name, in a directory that
    the walk visits. *)
Inductive pruned_at : node -> list string -> Prop :=
| pruned_here es d sub :
    In (d, Dir sub) es -> excluded_name d = true -> pruned_at (Dir es) [d]
| pruned_sub es d child ds :
    In (d, child) es -> excluded_name d = false -> pruned_at child ds ->
    pruned_at (Dir es) (d :: ds).

(** The path string of a position: [os.path.join] along the way. *)
Definition path_at (root : string) (cs : list string) : string :=
  fold_left OsPath.join cs root.

(** The paths the walk of [n] at [root] may touch. *)
Definition reached (root : string) (n : node) (p : string) : Prop :=
  exists cs, via n cs /\ p = path_at root cs.

(** [p] is the directory [dir] or lies under it. *)
Definition inside (dir p : string) : Prop :=
  p = dir \/ exists rest, p = dir ++ "/" ++ rest.

(** Names as a file system has them: not empty, without a separator;
    the names of one directory are distinct. *)
Fixpoint has_sep (s : string) : bool :=
  match s with
  | EmptyString => false
  | String c s' => Ascii.eqb c OsPath.sep || has_sep s'
  end.

Definition proper_name (c : string) : bool :=
  negb (String.eqb c "") && negb (has_sep c).

Fixpoint distinct (l : list string) : bool :=
  match l with
  | [] => true
  | x :: l' => negb (Py.mem x l') && distinct l'
  end.

Fixpoint well_formed (n : node) : bool :=
  match n with
  | File _ => true
  | Dir es =>
      distinct (map fst es)
      && forallb (fun e => proper_name (fst e) && well_formed (snd e)) es
  end.

(** The components of a position written out, each after a separator,
    and what they are appended to under a directory path. *)
Fixpoint segments (cs : list string) : string :=
  match cs with
  | [] => ""
  | c :: cs' => "/" ++ c ++ segments cs'
  end.

Definition stem (r : string) : string := if String.eqb r "/" then "" else r.

(** Empty, or starting with the separator. *)
Definition slashed (x : string) : Prop := x = "" \/ exists x', x = String OsPath.sep x'.

(** A directory path as [normalize_path] returns it: the root, or a
    path that does not end with the separator. *)
Definition proper_root (r : string) : bool :=
  String.eqb r "/"
  || (negb (String.eqb r "") && negb (Py.endswith_char r OsPath.sep)).

(** [l'] is [l] followed by elements that satisfy [P]. *)
Definition grows {A} (P : A -> Prop) (l l' : list A) : Prop :=
  exists new, l' = (l ++ new)%list /\ Forall P new.

(** From [w] to [w'] the file system is unchanged, every system call
    made is about a path in [P], and every entry appended to the
    conversation is the header and text of a file in [P]. *)
Definition footprint (P : string -> Prop) (w w' : world) : Prop :=
  fs w' = fs w /\ cwd w' = cwd w /\
  grows (fun c => P (syscall_path c)) (syscalls w) (syscalls w') /\
  grows (fun e => exists p text,
                    P p /\ e = mkEntry system (file_header p ++ text))
        (conversation_history w) (conversation_history w').

(** From [st] to [st'] every path recorded as added or skipped is in
    [P]; a skipped entry may carry the size remark. *)
Definition recorded (P : string -> Prop) (st st' : walk_state) : Prop :=
  grows P (added_files st) (added_files st') /\
  grows (fun s => exists p, P p /\ (s = p \/ s = p ++ " (exceeds size limit)"))
        (skipped_files st) (skipped_files st').

(** The world after a file went through the size test, the binary
    test and the read. *)
Definition examined (w : world) (full_path : string) : world :=
  mkWorld (fs w) (cwd w) (conversation_history w) (console w)
          (syscalls w ++ [SysStat full_path; SysOpenReadBinary full_path;
                          SysOpenRead full_path]).

(** What the walk of [n] at [root] satisfies, from any state. *)
Definition confined (n : node) : Prop :=
  forall root st w,
    footprint (reached root n) w (snd (walk root n st w)) /\
    forall st' b, fst (walk root n st w) = Return (st', b) ->
                  recorded (reached root n) st st'.

(** The counter counts the added files and has not passed the limit. *)
Definition within_limit (st : walk_state) : Prop :=
  total_files_processed st = Z.of_nat (List.length (added_files st))
  /\ total_files_processed st <= MAX_FILES_TO_PROCESS.

(** The notice that the walk stopped at the file limit. *)
Definition is_limit_notice (m : message) : bool :=
  match m with MsgReachedLimit _ => true | _ => false end.

(** ** Violations of the response schema *)

(** The object has no text under [key]: the key is missing, or its
    value is not a string. *)
Definition lacks_text (key : string) (fields : list (string * json)) : Prop :=
  forall s, Interpreter.get key fields <> Some (JString s).

(** An entry of a create or edit list that does not supply all the
    [required] fields as text. *)
Inductive bad_entry (required : list string) : json -> Prop :=
| bad_entry_shape j :
    (forall fields, j <> JObject fields) -> bad_entry required j
| bad_entry_field fields key :
    In key required -> lacks_text key fields ->
    bad_entry required (JObject fields).

(** A response without [assistant_reply] as text, or with a create or
    edit entry that lacks a required field. *)
Inductive schema_violation : json -> Prop :=
| violation_reply fields :
    lacks_text "assistant_reply" fields -> schema_violation (JObject fields)
| violation_create fields items j :
    Interpreter.get "files_to_create" fields = Some (JArray items) ->
    In j items -> bad_entry ["path"; "content"] j ->
    schema_violation (JObject fields)
| violation_edit fields items j :
    Interpreter.get "files_to_edit" fields = Some (JArray items) ->
    In j items -> bad_entry ["path"; "original_snippet"; "new_snippet"] j ->
    schema_violation (JObject fields).

(** ** What a command leaves alone, and what an ingestion appends *)

(** From [w] to [w'] no file and no directory changed, and the
    conversation got system entries only. *)
Definition read_only (w w' : world) : Prop :=
  fs w' = fs w /\ cwd w' = cwd w /\
  grows (fun e => entry_role e = system)
        (conversation_history w) (conversation_history w').

(** [e] is the conversation entry of the file at [p]: the header line
    with [p], then the text that the file's bytes decode to. *)
Definition entry_of (w : world) (p : string) (e : entry) : Prop :=
  exists bytes text,
    FS.read_bytes (fs w) (cwd w) p = inr bytes /\
    Text.decode bytes = Some text /\
    e = mkEntry system (file_header p ++ text).

(** From [(st0, w0)] to [(st, w)] the files are untouched, and the
    paths added to [added_files] are, in order, those of the entries
    appended to the conversation. *)
Definition in_step (w0 : world) (st0 st : walk_state) (w : world) : Prop :=
  fs w = fs w0 /\ cwd w = cwd w0 /\
  exists paths entries,
    added_files st = (added_files st0 ++ paths)%list /\
    conversation_history w = (conversation_history w0 ++ entries)%list /\
    Forall2 (entry_of w0) paths entries.

(** The number of dots in a string. *)
Fixpoint dots (s : string) : nat :=
  match s with
  | EmptyString => O
  | String c s' => ((if Ascii.eqb c OsPath.extsep then 1 else 0) + dots s')%nat
  end.

(** The files that the walk of the directory [n] at [root] comes to,
    in its order: the files of the directory, then those below each
    sub-directory whose name passes the pruning test. *)
Fixpoint visible_below (visible_child : string -> node -> list string)
    (root : string) (es : list (string * node)) : list string :=
  match es with
  | [] => []
  | (d, child) :: es' =>
      ((if is_dir_node child && negb (excluded_name d)
        then visible_child (OsPath.join root d) child else [])
       ++ visible_below visible_child root es')%list
  end.

Fixpoint visible (root : string) (n : node) : list string :=
  match n with
  | File _ => []
  | Dir es =>
      (map (OsPath.join root) (file_names es) ++ visible_below visible root es)%list
  end.

(** The path is in one of the two lists of the report, as added or as
    skipped, with or without the size remark. *)
Definition accounted (st : walk_state) (p : string) : Prop :=
  In p (added_files st) \/ In p (skipped_files st) \/
  In (p ++ " (exceeds size limit)") (skipped_files st).

(** From [st] to [st'] the counter has not gone down and the lists
    have lost nothing. *)
Definition extends (st st' : walk_state) : Prop :=
  total_files_processed st <= total_files_processed st' /\
  incl (added_files st) (added_files st') /\
  incl (skipped_files st) (skipped_files st').

(** A name that path resolution appends as it is: not empty, not [.],
    not [..], without a separator. *)
Definition plain_name (c : string) : bool :=
  negb (FS.trivial c) && negb (String.eqb c "..") && negb (has_sep c).

(** The character [c] does not occur in [s]. *)
Fixpoint no_char (c : ascii) (s : string) : Prop :=
  match s with
  | EmptyString => True
  | String a s' => Ascii.eqb a c = false /\ no_char c s'
  end.

(** Canonical paths can be told apart. *)
Definition list_string_dec : forall a b : list string, {a = b} + {a <> b} :=
  list_eq_dec string_dec.

(** ** Sample worlds *)

Module Samples.

(** A project directory under [/home/dev], which is also the working
    directory. *)
Definition project (entries : list (string * node)) : world :=
  mkWorld (Dir [("home", Dir [("dev", Dir [
                   ("secret.txt", File (mkFile "password" true));
                   ("project", Dir entries)])])])
          ["home"; "dev"; "project"] [] [] [].

Definition text_file (bytes : string) : node := File (mkFile bytes true).

Definition aba : world := project [("a.txt", text_file "A-B-A")].

Definition notes : world := project [("notes.txt", text_file "hello")].

(** A file with a DOS line ending. *)
Definition dos_bytes : string :=
  "one" ++ String Text.CR (String Text.LF "two").

Definition dos : world := project [("dos.txt", text_file dos_bytes)].

(** A text file of [n] bytes. *)
Definition filled (n : N) : string := N.iter n (String "a") "".

Definition sized (n : N) : world := project [("data.txt", text_file (filled n))].

(** A checkout with a dependency directory, a hidden directory and a
    build directory below a source directory. *)
Definition checkout_tree : node :=
  Dir [("main.py", text_file "print(1)");
       ("node_modules", Dir [("x.js", text_file "js")]);
       (".git", Dir [("config", text_file "[core]")]);
       ("src", Dir [("app.py", text_file "import os");
                    ("build", Dir [("out.txt", text_file "built")])])].

Definition checkout : world :=
  mkWorld (Dir [("home", Dir [("dev", Dir [("project", checkout_tree)])])])
          ["home"; "dev"; "project"] [] [] [].

(** A directory with a file in Latin-1 ([café], the last byte 0xE9)
    before a file in ASCII. *)
Definition latin1_bytes : string := "caf" ++ String (ascii_of_N 233) "".

Definition legacy : world :=
  project [("docs", Dir [("legacy.txt", text_file latin1_bytes);
                         ("readme.txt", text_file "ok")])].

(** Directories of numbered one-byte text files. *)
Definition numbered (i : nat) : string :=
  "f" ++ NilEmpty.string_of_uint (Nat.to_uint i) ++ ".txt".

Definition many (n : nat) : list (string * node) :=
  map (fun i => (numbered i, text_file "x")) (seq 0 n).

Definition flat (n : nat) : world := project [("big", Dir (many n))].

Definition nested (n m : nat) : world :=
  project [("big", Dir (many n ++ [("more", Dir (many m))]))].

Definition paths_in (dir : string) (n : nat) : list string :=
  map (fun i => dir ++ "/" ++ numbered i) (seq 0 n).

(** A file that single-file ingestion takes and the directory walk
    would refuse: hidden, denylisted, with a NUL byte. *)
Definition env_bytes : string := "KEY=" ++ String NUL "1".

Definition dotenv : world := project [(".env", text_file env_bytes)].

(** A directory with a file that the process may not open, before a
    file it may. *)
Definition locked : world :=
  project [("locked.txt", File (mkFile "zzz" false));
           ("readme.txt", text_file "ok")].

(** Two edits, the first of a file that does not exist. *)
Definition edit_batch (first_path : string) : AssistantResponse.t :=
  AssistantResponse.make "done" None
    (Some [FileToEdit.make first_path "x" "y";
           FileToEdit.make "notes.txt" "hello" "bye"]).

(** A creation over an existing file, and an edit. *)
Definition create_and_edit : AssistantResponse.t :=
  AssistantResponse.make "done"
    (Some [FileToCreate.make "notes.txt" "fresh"])
    (Some [FileToEdit.make "notes.txt" "fresh" "edited"]).

(** A response with a creation and an edit but without
    [assistant_reply]. *)
Definition reply_missing : json :=
  JObject [("files_to_create",
            JArray [JObject [("path", JString "new.txt");
                             ("content", JString "created")]]);
           ("files_to_edit",
            JArray [JObject [("path", JString "notes.txt");
                             ("original_snippet", JString "hello");
                             ("new_snippet", JString "bye")]])].

(** A text file whose only NUL byte is its 1025th byte. *)
Definition late_nul_bytes : string := filled 1024 ++ String NUL "end".

Definition late_nul : world := project [("data.txt", text_file late_nul_bytes)].

(** A file with a NUL among its first bytes, under a name that passes
    the name and extension tests. *)
Definition blob : world :=
  project [("data.txt", text_file env_bytes); ("readme.txt", text_file "ok")].

End Samples.

(* ================================================================= *)
(** * Properties *)

(** ** Strings *)

Section StringFacts.

Lemma prefix_nil (s : string) : String.prefix "" s = true.
Proof. destruct s; reflexivity. Qed.

Lemma prefix_app (a b : string) : String.prefix a (a ++ b) = true.
Proof.
  induction a as [|c a IH]; simpl.
  - apply prefix_nil.
  - destruct (ascii_dec c c); [exact IH|congruence].
Qed.

Lemma prefix_drop (a s : string) :
  String.prefix a s = true -> s = a ++ Py.drop (String.length a) s.
Proof.
  revert s. induction a as [|c a IH]; intros s H; simpl.
  - reflexivity.
  - destruct s as [|d s]; simpl in H; [discriminate|].
    destruct (ascii_dec c d) as [->|]; [|discriminate].
    f_equal. apply IH, H.
Qed.

Lemma append_nil_r (s : string) : s ++ "" = s.
Proof. induction s; simpl; congruence. Qed.

Lemma append_assoc (a b c : string) : (a ++ b) ++ c = a ++ b ++ c.
Proof. induction a; simpl; congruence. Qed.

Lemma prefix_empty_inv (old : string) : String.prefix old "" = true -> old = "".
Proof. destruct old; [reflexivity|discriminate]. Qed.

Lemma contains_nil (old : string) : Py.contains old "" = String.prefix old "".
Proof. unfold Py.contains. apply orb_false_r. Qed.

Lemma contains_cons (old : string) (c : ascii) (s : string) :
  Py.contains old (String c s)
  = String.prefix old (String c s) || Py.contains old s.
Proof. reflexivity. Qed.

Lemma replace1_cons (old new : string) (c : ascii) (s : string) :
  Py.replace1 old new (String c s)
  = if String.prefix old (String c s)
    then new ++ Py.drop (String.length old) (String c s)
    else String c (Py.replace1 old new s).
Proof. reflexivity. Qed.

Lemma contains_occurs (old s : string) :
  Py.contains old s = true <-> exists pre post, occurs_at old s pre post.
Proof.
  split.
  - induction s as [|c s IH]; intros H.
    + rewrite contains_nil in H. apply prefix_empty_inv in H. subst old.
      exists "", "". reflexivity.
    + rewrite contains_cons in H. apply orb_true_iff in H. destruct H as [H|H].
      * exists "", (Py.drop (String.length old) (String c s)).
        apply (prefix_drop _ _ H).
      * destruct (IH H) as (pre & post & E).
        exists (String c pre), post. unfold occurs_at in *. simpl. congruence.
  - intros (pre & post & E). unfold occurs_at in E. subst s.
    induction pre as [|c pre IH].
    + change ("" ++ old ++ post) with (old ++ post).
      destruct (old ++ post) eqn:E.
      * rewrite contains_nil, <- E. apply prefix_app.
      * rewrite contains_cons, <- E, prefix_app. reflexivity.
    + change (String c pre ++ old ++ post) with (String c (pre ++ old ++ post)).
      rewrite contains_cons, IH. apply orb_true_r.
Qed.

(** [replace] with count 1 rewrites the leftmost occurrence and only
    that one: what precedes and what follows it is kept. *)
Lemma replace1_leftmost (old new s : string) :
  Py.contains old s = true ->
  exists pre post,
    leftmost old s pre post /\ Py.replace1 old new s = pre ++ new ++ post.
Proof.
  induction s as [|c s IH]; intros H.
  - rewrite contains_nil in H. apply prefix_empty_inv in H. subst old.
    exists "", "". split; [split|].
    + reflexivity.
    + intros pre' post' _. simpl. lia.
    + reflexivity.
  - rewrite contains_cons in H. rewrite replace1_cons.
    destruct (String.prefix old (String c s)) eqn:P.
    + exists "", (Py.drop (String.length old) (String c s)). split; [split|].
      * apply (prefix_drop _ _ P).
      * intros. simpl. lia.
      * reflexivity.
    + simpl in H.
      destruct (IH H) as (pre & post & (E & L) & R).
      exists (String c pre), post. split; [split|].
      * unfold occurs_at in *. simpl. congruence.
      * intros pre' post' E'. unfold occurs_at in E'.
        destruct pre' as [|d pre'].
        -- exfalso. change ("" ++ old ++ post') with (old ++ post') in E'.
           rewrite E', prefix_app in P. discriminate.
        -- simpl in E'. injection E' as -> E'.
           simpl. apply le_n_S. apply (L pre' post'). exact E'.
      * rewrite R. reflexivity.
Qed.

(** Without an occurrence, [replace] returns its input. *)
Lemma replace1_absent (old new s : string) :
  Py.contains old s = false -> Py.replace1 old new s = s.
Proof.
  induction s as [|c s IH]; intros H.
  - rewrite contains_nil in H. unfold Py.replace1. rewrite H. reflexivity.
  - rewrite contains_cons in H. apply orb_false_iff in H. destruct H as [P H].
    rewrite replace1_cons, P. f_equal. apply IH, H.
Qed.

(** The empty snippet occurs at offset 0. *)
Lemma replace1_empty (new s : string) : Py.replace1 "" new s = new ++ s.
Proof. destruct s; reflexivity. Qed.

End StringFacts.

(** ** The file system *)

Section FSFacts.

Lemma assoc_alter_same f c es v x :
  FS.assoc c es = Some v -> f (Some v) = Some x ->
  FS.assoc c (FS.alter f c es) = Some x.
Proof.
  induction es as [|[k u] es IH]; simpl; intros A F; [discriminate|].
  destruct (String.eqb_spec k c) as [->|N].
  - injection A as ->. rewrite F. simpl. rewrite String.eqb_refl. reflexivity.
  - simpl. destruct (String.eqb_spec k c); [contradiction|]. apply IH; assumption.
Qed.

Lemma assoc_alter_other f c d es :
  d <> c -> FS.assoc d (FS.alter f c es) = FS.assoc d es.
Proof.
  intros N. induction es as [|[k u] es IH]; simpl.
  - destruct (f None); simpl; [|reflexivity].
    destruct (String.eqb_spec c d); [congruence|reflexivity].
  - destruct (String.eqb_spec k c) as [->|K].
    + destruct (String.eqb_spec c d); [congruence|].
      destruct (f (Some u)); simpl; [|reflexivity].
      destruct (String.eqb_spec c d); [congruence|reflexivity].
    + simpl. rewrite IH. reflexivity.
Qed.

(** Writing over an existing node puts the new node there. *)
Lemma lookup_put_same p : forall t n,
  FS.lookup t p <> None -> FS.lookup (FS.put p n t) p = Some n.
Proof.
  induction p as [|c p IH]; intros t n H; [reflexivity|].
  destruct t as [f|es]; simpl in H; [congruence|].
  destruct (FS.assoc c es) as [child|] eqn:A; [|congruence].
  simpl. erewrite assoc_alter_same; [|exact A|reflexivity].
  apply IH, H.
Qed.

(** Writing over a regular file changes no path's kind. *)
Lemma kind_lookup_put p : forall t f g q,
  FS.lookup t p = Some (File f) ->
  kind_of (FS.lookup (FS.put p (File g) t) q) = kind_of (FS.lookup t q).
Proof.
  induction p as [|c p IH]; intros t f g q H.
  - simpl in H. injection H as ->. destruct q; reflexivity.
  - destruct t as [f0|es]; simpl in H; [discriminate|].
    destruct (FS.assoc c es) as [child|] eqn:A; [|discriminate].
    destruct q as [|d q]; [reflexivity|].
    simpl. destruct (String.eqb_spec d c) as [->|N].
    + erewrite assoc_alter_same; [|exact A|reflexivity].
      rewrite A. apply (IH _ f), H.
    + rewrite assoc_alter_other by assumption. reflexivity.
Qed.

Lemma locate_cons t cur c rest :
  FS.locate t cur (c :: rest)
  = match FS.lookup t cur with
    | Some (Dir _) =>
        if FS.trivial c then FS.locate t cur rest
        else if String.eqb c ".." then FS.locate t (removelast cur) rest
        else FS.locate t (cur ++ [c]) rest
    | Some (File _) => inl NotADirectoryError
    | None => inl FileNotFoundError
    end.
Proof. reflexivity. Qed.

Lemma locate_put p t f g :
  FS.lookup t p = Some (File f) ->
  forall comps cur,
    FS.locate (FS.put p (File g) t) cur comps = FS.locate t cur comps.
Proof.
  intros H. induction comps as [|c rest IH]; intros cur; [reflexivity|].
  rewrite !locate_cons. pose proof (kind_lookup_put p t f g cur H) as K.
  destruct (FS.lookup (FS.put p (File g) t) cur) as [[?|?]|],
           (FS.lookup t cur) as [[?|?]|]; simpl in K; try discriminate;
    try reflexivity.
  rewrite !IH. reflexivity.
Qed.

Lemma locate_app t : forall a b cur,
  FS.locate t cur (a ++ b)
  = match FS.locate t cur a with
    | inl e => inl e
    | inr m => FS.locate t m b
    end.
Proof.
  induction a as [|c a IH]; intros b cur; [reflexivity|].
  change ((c :: a) ++ b)%list with (c :: (a ++ b))%list. rewrite !locate_cons.
  destruct (FS.lookup t cur) as [[?|?]|]; try reflexivity.
  destruct (FS.trivial c); [apply IH|]. destruct (c =? "..")%string; apply IH.
Qed.

Lemma locate_start_dir t cur comps loc :
  comps <> [] -> FS.locate t cur comps = inr loc ->
  exists es, FS.lookup t cur = Some (Dir es).
Proof.
  destruct comps as [|c rest]; [congruence|]. intros _. rewrite locate_cons.
  destruct (FS.lookup t cur) as [[?|es]|]; try discriminate. eauto.
Qed.

(** Dropping the empty and [.] components does not change where a
    path leads. *)
Lemma locate_filter t : forall comps cur loc,
  FS.locate t cur comps = inr loc ->
  FS.locate t cur (filter (fun c => negb (FS.trivial c)) comps) = inr loc.
Proof.
  induction comps as [|c rest IH]; intros cur loc H; [exact H|].
  rewrite locate_cons in H.
  destruct (FS.lookup t cur) as [[?|es]|] eqn:L; try discriminate.
  simpl filter. destruct (FS.trivial c) eqn:T; simpl negb; cbv iota.
  - apply IH, H.
  - rewrite locate_cons, L, T. destruct (c =? "..")%string; apply IH, H.
Qed.

Lemma lookup_parent : forall p t c n,
  FS.lookup t (p ++ [c]) = Some n -> exists es, FS.lookup t p = Some (Dir es).
Proof.
  induction p as [|d p IH]; intros t c n H.
  - destruct t as [?|es]; simpl in H; [discriminate|]. simpl. eauto.
  - destruct t as [?|es]; simpl in H; [discriminate|]. simpl.
    destruct (FS.assoc d es); [|discriminate]. eapply IH, H.
Qed.

Lemma lookup_removelast t p es :
  FS.lookup t p = Some (Dir es) ->
  exists es', FS.lookup t (removelast p) = Some (Dir es').
Proof.
  intros H. destruct p as [|d p]; [simpl; eauto|].
  destruct (exists_last (l := d :: p)) as (q & c & E); [discriminate|].
  rewrite E in *. rewrite removelast_last. eapply lookup_parent, H.
Qed.

(** Splitting and joining on the separator. *)
Lemma split_nonempty s : Py.split OsPath.sep s <> [].
Proof.
  destruct s as [|c s]; simpl; [discriminate|].
  destruct (Ascii.eqb c OsPath.sep); [discriminate|].
  destruct (Py.split OsPath.sep s); discriminate.
Qed.

Lemma split_no_sep s : Forall (fun c => has_sep c = false) (Py.split OsPath.sep s).
Proof.
  induction s as [|c s IH]; simpl.
  - constructor; [reflexivity|constructor].
  - destruct (Ascii.eqb c OsPath.sep) eqn:E.
    + constructor; [reflexivity|exact IH].
    + pose proof (split_nonempty s) as N.
      destruct (Py.split OsPath.sep s) as [|h t]; [congruence|].
      inversion IH; subst.
      constructor; [simpl; rewrite E; assumption|assumption].
Qed.

Lemma split_append p rest :
  has_sep p = false ->
  Py.split OsPath.sep (p ++ String OsPath.sep rest) = p :: Py.split OsPath.sep rest.
Proof.
  induction p as [|c p IH]; simpl; intros H; [reflexivity|].
  apply orb_false_iff in H. destruct H as [E H].
  rewrite E, (IH H). reflexivity.
Qed.

Lemma split_single p : has_sep p = false -> Py.split OsPath.sep p = [p].
Proof.
  induction p as [|c p IH]; simpl; intros H; [reflexivity|].
  apply orb_false_iff in H. destruct H as [E H].
  rewrite E, (IH H). reflexivity.
Qed.

Lemma split_join parts :
  parts <> [] -> Forall (fun c => has_sep c = false) parts ->
  Py.split OsPath.sep (Py.join "/" parts) = parts.
Proof.
  induction parts as [|p ps IH]; intros N F; [congruence|].
  inversion F as [|? ? Hp Hps]; subst.
  destruct ps as [|q ps].
  - simpl. apply split_single, Hp.
  - change (Py.join "/" (p :: q :: ps))
      with (p ++ String OsPath.sep (Py.join "/" (q :: ps))).
    rewrite split_append by exact Hp. f_equal. apply IH; [discriminate|exact Hps].
Qed.

Lemma join_head a p ps :
  exists r, Py.join "/" (String a p :: ps) = String a r.
Proof. destruct ps; simpl; eauto. Qed.

(** Creating the parents of a path whose parent directory exists
    changes nothing. *)
Lemma makedirs_existing t : forall parts cur m es,
  Forall (fun c => FS.trivial c = false) parts ->
  FS.locate t cur parts = inr m -> FS.lookup t m = Some (Dir es) ->
  FS.makedirs t cur parts = inr t.
Proof.
  induction parts as [|c rest IH]; intros cur m es F L D.
  - simpl in L. injection L as <-. simpl. rewrite D. reflexivity.
  - inversion F as [|? ? Tc Fr]; subst. rewrite locate_cons, Tc in L.
    simpl. destruct (FS.lookup t cur) as [[?|es0]|]; try discriminate.
    destruct (c =? "..")%string; [eapply IH; eassumption|].
    assert (exists es1, FS.lookup t (cur ++ [c]) = Some (Dir es1)) as [es1 E].
    { destruct rest as [|d rest].
      - simpl in L. injection L as <-. eauto.
      - eapply locate_start_dir; [|exact L]. discriminate. }
    rewrite E. eapply IH; eassumption.
Qed.

(** For a path that leads to a regular file, the normalised path of
    [pathlib] leads to the same file, and its parent directory is
    there already. *)
Lemma resolve_normalized t cwd path loc f :
  FS.resolve t cwd path = inr loc -> FS.lookup t loc = Some (File f) ->
  FS.resolve t cwd (Pathlib.to_string (Pathlib.of_string path)) = inr loc /\
  FS.makedirs t
    (if Pathlib.absolute (Pathlib.parent (Pathlib.of_string path)) then [] else cwd)
    (Pathlib.parts (Pathlib.parent (Pathlib.of_string path))) = inr t.
Proof.
  unfold FS.resolve at 1. intros R H.
  destruct (path =? "")%string; [discriminate|].
  pose proof (locate_start_dir _ _ _ _ (split_nonempty path) R) as [es0 D0].
  apply locate_filter in R.
  pose proof (split_no_sep path) as NS.
  set (parts := filter (fun c => negb (FS.trivial c)) (Py.split OsPath.sep path)) in *.
  assert (Forall (fun c => FS.trivial c = false) parts) as NT.
  { apply Forall_forall. intros c Hc. apply filter_In in Hc.
    destruct Hc as [_ Hc]. apply negb_true_iff, Hc. }
  assert (Forall (fun c => has_sep c = false) parts) as NS'.
  { apply Forall_forall. intros c Hc. apply filter_In in Hc.
    destruct Hc as [Hc _]. revert c Hc. apply Forall_forall, NS. }
  assert (parts <> []) as NE.
  { intros E. rewrite E in R. simpl in R. injection R as <-. congruence. }
  destruct (exists_last NE) as (init & c & E).
  assert (Pathlib.parts (Pathlib.of_string path) = parts) as EP by reflexivity.
  rewrite E in R. rewrite locate_app in R.
  destruct (FS.locate t (FS.start cwd path) init) as [|m] eqn:LI; [discriminate|].
  rewrite E in NT. apply Forall_app in NT. destruct NT as [NTi NTc].
  inversion NTc as [|? ? Tc _]; subst.
  rewrite locate_cons, Tc in R.
  destruct (FS.lookup t m) as [[?|esm]|] eqn:Dm; try discriminate.
  destruct (c =? "..")%string eqn:C.
  { simpl in R. injection R as <-.
    destruct (lookup_removelast _ _ _ Dm) as [es' D']. congruence. }
  simpl in R. injection R as <-.
  assert (Pathlib.of_string path
          = Pathlib.mkPath (String.prefix "/" path) parts) as EO by reflexivity.
  rewrite EO. unfold FS.start, Py.startswith in *. split.
  - unfold FS.resolve, FS.start, Py.startswith.
    destruct (String.prefix "/" path) eqn:A.
    + change (Pathlib.to_string (Pathlib.mkPath true parts))
        with (String OsPath.sep (Py.join "/" parts)).
      cbn [String.eqb String.prefix]. simpl ascii_dec. cbv iota.
      rewrite prefix_nil.
      change (Py.split OsPath.sep (String OsPath.sep (Py.join "/" parts)))
        with ("" :: Py.split OsPath.sep (Py.join "/" parts)).
      rewrite split_join by assumption.
      rewrite locate_cons, D0.
      change (FS.trivial "") with true. cbv iota.
      rewrite E, locate_app, LI, locate_cons, Dm, Tc, C. reflexivity.
    + destruct parts as [|p0 ps] eqn:EPs; [congruence|].
      inversion NS' as [|? ? Hp0 _]; subst.
      assert (FS.trivial p0 = false) as T0.
      { destruct init; simpl in E; injection E as -> _;
          [inversion NTc|inversion NTi]; assumption. }
      destruct p0 as [|a p0]; [discriminate T0|].
      destruct (join_head a p0 ps) as [r J].
      change (Pathlib.to_string (Pathlib.mkPath false (String a p0 :: ps)))
        with (Py.join "/" (String a p0 :: ps)).
      assert (Py.split OsPath.sep (Py.join "/" (String a p0 :: ps))
              = String a p0 :: ps) as SJ
          by (apply split_join; assumption).
      rewrite SJ, J. simpl in Hp0. apply orb_false_iff in Hp0.
      destruct Hp0 as [Ha _].
      cbn [String.eqb String.prefix].
      destruct (ascii_dec "/" a) as [<-|]; [discriminate Ha|].
      rewrite E, locate_app, LI, locate_cons, Dm, Tc, C. reflexivity.
  - unfold Pathlib.parent. cbn [Pathlib.absolute Pathlib.parts].
    rewrite E, removelast_last.
    eapply makedirs_existing; eassumption.
Qed.

End FSFacts.

(** ** Running the helper functions *)

Section Runs.

Ltac run :=
  unfold read_local_file, open_read_text, open_read_binary, open_write_text,
    mkdir_parents, getsize, isdir, console_print, history_append, sys, set_fs,
    get_world, lift, bind, ret, raise, try_except;
  cbn [fs cwd conversation_history console syscalls called printed appended
       with_fs fst snd].

Lemma bind_Return {A B} (m : M A) (k : A -> M B) w a w' :
  m w = (Return a, w') -> bind m k w = k a w'.
Proof. intros H. unfold bind. rewrite H. reflexivity. Qed.

Lemma bind_Raise {A B} (m : M A) (k : A -> M B) w e w' :
  m w = (Raise e, w') -> bind m k w = (Raise e, w').
Proof. intros H. unfold bind. rewrite H. reflexivity. Qed.

Lemma try_Return {A} (m : M A) h w a w' :
  m w = (Return a, w') -> try_except m h w = (Return a, w').
Proof. intros H. unfold try_except. rewrite H. reflexivity. Qed.

Lemma try_Raise {A} (m : M A) h w e w' :
  m w = (Raise e, w') ->
  try_except m h w
  = match h e with Some k => k w' | None => (Raise e, w') end.
Proof. intros H. unfold try_except. rewrite H. reflexivity. Qed.

Lemma isdir_run w path :
  isdir path w = (Return (FS.isdir (fs w) (cwd w) path), called (SysStat path) w).
Proof. reflexivity. Qed.

Lemma getsize_run w path :
  getsize path w
  = (match FS.stat_size (fs w) (cwd w) path with
     | inl e => Raise e
     | inr n => Return n
     end, called (SysStat path) w).
Proof.
  unfold getsize, bind, sys, get_world, lift. cbn [fs cwd called].
  destruct (FS.stat_size (fs w) (cwd w) path); reflexivity.
Qed.

Lemma is_binary_file_run w file_path :
  is_binary_file file_path w
  = (Return match FS.read_bytes (fs w) (cwd w) file_path with
            | inl _ => true
            | inr bytes => has_nul (Py.take 1024 bytes)
            end, called (SysOpenReadBinary file_path) w).
Proof.
  unfold is_binary_file, try_except, open_read_binary, bind, sys, get_world, lift.
  cbn [fs cwd called].
  destruct (FS.read_bytes (fs w) (cwd w) file_path); reflexivity.
Qed.

Lemma read_bytes_file t cwd path loc f :
  FS.resolve t cwd path = inr loc -> FS.lookup t loc = Some (File f) ->
  readable f = true -> FS.read_bytes t cwd path = inr (data f).
Proof. intros R L A. unfold FS.read_bytes. rewrite R, L, A. reflexivity. Qed.

Lemma read_local_file_text w path bytes text :
  FS.read_bytes (fs w) (cwd w) path = inr bytes ->
  Text.decode bytes = Some text ->
  read_local_file path w = (Return text, called (SysOpenRead path) w).
Proof. intros R D. run. rewrite R, D. reflexivity. Qed.

Lemma read_local_file_undecodable w path bytes :
  FS.read_bytes (fs w) (cwd w) path = inr bytes ->
  Text.decode bytes = None ->
  read_local_file path w = (Raise UnicodeDecodeError, called (SysOpenRead path) w).
Proof. intros R D. run. rewrite R, D. reflexivity. Qed.

Lemma read_local_file_error w path e :
  FS.read_bytes (fs w) (cwd w) path = inl e ->
  read_local_file path w = (Raise e, called (SysOpenRead path) w).
Proof. intros R. run. rewrite R. reflexivity. Qed.

(** What [read_local_file] returns comes from a readable regular file. *)
Lemma read_local_file_inv w path text w' :
  read_local_file path w = (Return text, w') ->
  exists loc f,
    FS.resolve (fs w) (cwd w) path = inr loc /\
    FS.lookup (fs w) loc = Some (File f) /\ readable f = true /\
    Text.decode (data f) = Some text /\ w' = called (SysOpenRead path) w.
Proof.
  run. unfold FS.read_bytes.
  destruct (FS.resolve (fs w) (cwd w) path) as [e|loc]; [discriminate|].
  destruct (FS.lookup (fs w) loc) as [[f|es]|] eqn:L; try discriminate.
  destruct (readable f) eqn:A; [|discriminate].
  destruct (Text.decode (data f)) as [text'|] eqn:D; [|discriminate].
  intros E. injection E as <- <-. exists loc, f. auto.
Qed.

Lemma create_file_existing w path content loc f :
  FS.resolve (fs w) (cwd w) path = inr loc ->
  FS.lookup (fs w) loc = Some (File f) ->
  create_file path content w = (Return tt, rewritten w path loc f content).
Proof.
  intros R L. destruct (resolve_normalized _ _ _ _ _ R L) as [RN MK].
  unfold create_file. run. rewrite MK.
  cbn [fs cwd conversation_history console syscalls called with_fs].
  unfold FS.write_bytes. rewrite RN, L.
  unfold rewritten, printed, with_fs, called.
  cbn [fs cwd conversation_history console syscalls].
  rewrite <- app_assoc. reflexivity.
Qed.

(** [apply_diff_edit] on a file that reads as text: the whole content
    is written back, with the leftmost occurrence replaced. *)
Lemma apply_diff_edit_text w path old new loc f text :
  FS.resolve (fs w) (cwd w) path = inr loc ->
  FS.lookup (fs w) loc = Some (File f) ->
  readable f = true -> Text.decode (data f) = Some text ->
  apply_diff_edit path old new w
  = (Return tt,
     printed (MsgAppliedDiff path)
       (rewritten (called (SysOpenRead path) w) path loc f
                  (Py.replace1 old new text))).
Proof.
  intros R L A D. unfold apply_diff_edit, try_except, bind at 1.
  rewrite (read_local_file_text w path (data f) text);
    [|apply (read_bytes_file _ _ _ _ _ R L A)|exact D].
  unfold bind at 1.
  rewrite (create_file_existing _ path _ loc f) by assumption.
  reflexivity.
Qed.

(** After the write the file reads back as the new content. *)
Lemma read_back w path loc f content :
  FS.resolve (fs w) (cwd w) path = inr loc ->
  FS.lookup (fs w) loc = Some (File f) -> readable f = true ->
  let w' := rewritten w path loc f content in
  FS.read_bytes (fs w') (cwd w') path = inr (Text.encode content).
Proof.
  intros R L A. cbn [rewritten fs cwd]. unfold FS.read_bytes, FS.resolve in *.
  destruct (path =? "")%string; [discriminate|].
  rewrite (locate_put loc (fs w) f _ L), R.
  rewrite lookup_put_same by congruence. cbn [readable data]. rewrite A.
  reflexivity.
Qed.

End Runs.

(** ** The mutation engine: [apply_diff_edit] *)

Section MutationEngine.

(** C4.  When the text of the file at [path] contains
    [original_snippet], [apply_diff_edit] succeeds and the file then
    holds the text with the leftmost occurrence replaced by
    [new_snippet]: what precedes that occurrence and what follows it,
    later occurrences included, is written back as it was read. *)
Theorem apply_edit_replaces_leftmost_occurrence
    (w w0 : world) (path original_snippet new_snippet content : string) :
  read_local_file path w = (Return content, w0) ->
  Py.contains original_snippet content = true ->
  exists pre post,
    leftmost original_snippet content pre post /\
    fst (apply_diff_edit path original_snippet new_snippet w) = Return tt /\
    (let w' := snd (apply_diff_edit path original_snippet new_snippet w) in
     FS.read_bytes (fs w') (cwd w') path = inr (pre ++ new_snippet ++ post)).
Proof.
  intros R C.
  destruct (read_local_file_inv _ _ _ _ R) as (loc & f & RS & L & A & D & _).
  destruct (replace1_leftmost original_snippet new_snippet content C)
    as (pre & post & LM & E).
  exists pre, post. split; [exact LM|].
  rewrite (apply_diff_edit_text w path _ _ loc f content) by assumption.
  split; [reflexivity|]. cbn [snd].
  unfold printed. cbn [fs cwd]. rewrite <- E.
  apply (read_back (called (SysOpenRead path) w) path loc f); assumption.
Qed.

(** The test of the specification: content [A-B-A], snippet [A],
    replacement [X] gives [X-B-A]. *)
Lemma apply_edit_replaces_leftmost_occurrence_witness :
  read_local_file "a.txt" Samples.aba
    = (Return "A-B-A", called (SysOpenRead "a.txt") Samples.aba) /\
  Py.contains "A" "A-B-A" = true /\
  (exists pre post,
     leftmost "A" "A-B-A" pre post /\
     fst (apply_diff_edit "a.txt" "A" "X" Samples.aba) = Return tt /\
     (let w' := snd (apply_diff_edit "a.txt" "A" "X" Samples.aba) in
      FS.read_bytes (fs w') (cwd w') "a.txt" = inr (pre ++ "X" ++ post))) /\
  (let w' := snd (apply_diff_edit "a.txt" "A" "X" Samples.aba) in
   FS.read_bytes (fs w') (cwd w') "a.txt" = inr "X-B-A").
Proof.
  split; [reflexivity|]. split; [reflexivity|]. split; [|reflexivity].
  exact (apply_edit_replaces_leftmost_occurrence Samples.aba
           (called (SysOpenRead "a.txt") Samples.aba)
           "a.txt" "A" "X" "A-B-A" eq_refl eq_refl).
Defined.

(** C4 as it is worded, for every file and byte for byte, does not
    hold.  The file [dos.txt] holds the bytes [one CR LF two], which
    start with the snippet [one CR LF]; the text that is read is
    [one LF two], where the snippet does not occur, so nothing is
    replaced and the file comes back as [one LF two].  The file
    [docs/legacy.txt] holds [caf] and the Latin-1 byte 0xE9; it does
    not decode, the edit of [caf] ends with the no-changes line and
    the file keeps its bytes. *)
Lemma apply_edit_misses_byte_occurrence :
  (FS.read_bytes (fs Samples.dos) (cwd Samples.dos) "dos.txt"
   = inr Samples.dos_bytes /\
   leftmost ("one" ++ String Text.CR (String Text.LF ""))
            Samples.dos_bytes "" "two" /\
   FS.read_bytes
     (fs (snd (apply_diff_edit "dos.txt"
                 ("one" ++ String Text.CR (String Text.LF "")) "uno "
                 Samples.dos)))
     (cwd Samples.dos) "dos.txt"
   = inr ("one" ++ String Text.LF "two") /\
   "one" ++ String Text.LF "two" <> "" ++ "uno " ++ "two") /\
  (FS.read_bytes (fs Samples.legacy) (cwd Samples.legacy) "docs/legacy.txt"
   = inr Samples.latin1_bytes /\
   leftmost "caf" Samples.latin1_bytes "" (String (ascii_of_N 233) "") /\
   apply_diff_edit "docs/legacy.txt" "caf" "tea" Samples.legacy
   = (Return tt,
      printed (MsgNoChangesMade UnicodeDecodeError "docs/legacy.txt")
        (called (SysOpenRead "docs/legacy.txt") Samples.legacy)) /\
   Samples.latin1_bytes <> "" ++ "tea" ++ String (ascii_of_N 233) "").
Proof.
  split.
  - split; [reflexivity|]. split; [|split; [reflexivity|discriminate]].
    split; [reflexivity|]. intros pre' post' _. apply Nat.le_0_l.
  - split; [reflexivity|]. split; [|split; [reflexivity|discriminate]].
    split; [reflexivity|]. intros pre' post' _. apply Nat.le_0_l.
Qed.

(** C9.  With the empty [original_snippet] the edit is not rejected:
    for a file that reads as text, [apply_diff_edit] succeeds, reports
    the edit as applied, and the file then holds [new_snippet]
    followed by the text that was read. *)
Theorem apply_edit_empty_snippet_prepends
    (w w0 : world) (path new_snippet content : string) :
  read_local_file path w = (Return content, w0) ->
  fst (apply_diff_edit path "" new_snippet w) = Return tt /\
  (let w' := snd (apply_diff_edit path "" new_snippet w) in
   FS.read_bytes (fs w') (cwd w') path = inr (new_snippet ++ content) /\
   console w' = (console w ++ [MsgCreated (Pathlib.to_string (Pathlib.of_string path));
                               MsgAppliedDiff path])%list).
Proof.
  intros R.
  destruct (read_local_file_inv _ _ _ _ R) as (loc & f & RS & L & A & D & _).
  rewrite (apply_diff_edit_text w path _ _ loc f content) by assumption.
  split; [reflexivity|]. cbn [snd]. split.
  - unfold printed. cbn [fs cwd]. rewrite <- (replace1_empty new_snippet content).
    apply (read_back (called (SysOpenRead path) w) path loc f); assumption.
  - unfold printed, rewritten, called. cbn [console].
    rewrite <- app_assoc. reflexivity.
Qed.

Lemma apply_edit_empty_snippet_prepends_witness :
  read_local_file "notes.txt" Samples.notes
    = (Return "hello", called (SysOpenRead "notes.txt") Samples.notes) /\
  fst (apply_diff_edit "notes.txt" "" "# title " Samples.notes) = Return tt /\
  (let w' := snd (apply_diff_edit "notes.txt" "" "# title " Samples.notes) in
   FS.read_bytes (fs w') (cwd w') "notes.txt" = inr "# title hello" /\
   console w' = [MsgCreated "notes.txt"; MsgAppliedDiff "notes.txt"]).
Proof.
  split; [reflexivity|].
  exact (apply_edit_empty_snippet_prepends Samples.notes
           (called (SysOpenRead "notes.txt") Samples.notes)
           "notes.txt" "# title " "hello" eq_refl).
Defined.

(** C9 as it is worded, for every existing, readable file and with
    the previous content unchanged, does not hold.  The readable file
    [docs/legacy.txt] is not UTF-8: the edit with the empty snippet
    ends with the no-changes line and the file keeps its bytes, with
    nothing inserted.  The file [dos.txt] holds [one CR LF two]: the
    snippet is inserted, before [one LF two]. *)
Lemma apply_edit_empty_snippet_is_refused :
  (FS.read_bytes (fs Samples.legacy) (cwd Samples.legacy) "docs/legacy.txt"
   = inr Samples.latin1_bytes /\
   apply_diff_edit "docs/legacy.txt" "" "# " Samples.legacy
   = (Return tt,
      printed (MsgNoChangesMade UnicodeDecodeError "docs/legacy.txt")
        (called (SysOpenRead "docs/legacy.txt") Samples.legacy)) /\
   Samples.latin1_bytes <> "# " ++ Samples.latin1_bytes) /\
  (FS.read_bytes (fs Samples.dos) (cwd Samples.dos) "dos.txt"
   = inr Samples.dos_bytes /\
   FS.read_bytes
     (fs (snd (apply_diff_edit "dos.txt" "" "# " Samples.dos)))
     (cwd Samples.dos) "dos.txt"
   = inr ("# " ++ "one" ++ String Text.LF "two") /\
   "# " ++ "one" ++ String Text.LF "two" <> "# " ++ Samples.dos_bytes).
Proof.
  split.
  - split; [reflexivity|]. split; [reflexivity|discriminate].
  - split; [reflexivity|]. split; [reflexivity|discriminate].
Qed.

(** What the code does when the snippet is absent: no failure is
    raised or reported, the file is opened for writing and the text
    that was read is written back. *)
Lemma apply_edit_absent_snippet_rewrites
    (w w0 : world) (path original_snippet new_snippet content : string) :
  read_local_file path w = (Return content, w0) ->
  Py.contains original_snippet content = false ->
  fst (apply_diff_edit path original_snippet new_snippet w) = Return tt /\
  (let w' := snd (apply_diff_edit path original_snippet new_snippet w) in
   FS.read_bytes (fs w') (cwd w') path = inr (Text.encode content) /\
   console w' = (console w ++ [MsgCreated (Pathlib.to_string (Pathlib.of_string path));
                               MsgAppliedDiff path])%list /\
   In (SysOpenWrite (Pathlib.to_string (Pathlib.of_string path))) (syscalls w')).
Proof.
  intros R C.
  destruct (read_local_file_inv _ _ _ _ R) as (loc & f & RS & L & A & D & _).
  rewrite (apply_diff_edit_text w path _ _ loc f content) by assumption.
  split; [reflexivity|]. cbn [snd]. repeat split.
  - unfold printed. cbn [fs cwd].
    rewrite (replace1_absent original_snippet new_snippet content C).
    apply (read_back (called (SysOpenRead path) w) path loc f); assumption.
  - unfold printed, rewritten, called. cbn [console].
    rewrite <- app_assoc. reflexivity.
  - unfold printed, rewritten, called. cbn [syscalls].
    apply in_or_app. right. simpl. auto.
Qed.

(** C1, at the file [notes.txt] holding [hello] and the snippet [xyz]
    that does not occur in it: [apply_diff_edit] returns normally,
    opens the file for writing and reports the edit as applied. *)
Theorem apply_edit_absent_snippet_is_applied :
  Py.contains "xyz" "hello" = false /\
  apply_diff_edit "notes.txt" "xyz" "q" Samples.notes
  = (Return tt,
     mkWorld (fs Samples.notes) (cwd Samples.notes) []
             [MsgCreated "notes.txt"; MsgAppliedDiff "notes.txt"]
             [SysOpenRead "notes.txt"; SysMkdir "."; SysOpenWrite "notes.txt"]).
Proof. split; reflexivity. Qed.

(** On the same path a file with a DOS line ending comes back with the
    carriage return gone, although the snippet does not occur. *)
Lemma apply_edit_absent_snippet_changes_dos_file :
  Py.contains "xyz" Samples.dos_bytes = false /\
  FS.read_bytes (fs Samples.dos) (cwd Samples.dos) "dos.txt"
    = inr ("one" ++ String Text.CR (String Text.LF "two")) /\
  (let w' := snd (apply_diff_edit "dos.txt" "xyz" "q" Samples.dos) in
   FS.read_bytes (fs w') (cwd w') "dos.txt" = inr ("one" ++ String Text.LF "two")).
Proof. repeat split. Qed.

End MutationEngine.

(** ** Path validation and single-file ingestion *)

Section AddPath.

Lemma mem_app x l1 l2 : Py.mem x (l1 ++ l2) = Py.mem x l1 || Py.mem x l2.
Proof. apply existsb_app. Qed.

Lemma mem_removelast x l : Py.mem x l = false -> Py.mem x (removelast l) = false.
Proof.
  induction l as [|a l IH]; [trivial|]. destruct l as [|b l]; [trivial|].
  change (Py.mem x (a :: b :: l)) with ((x =? a)%string || Py.mem x (b :: l)).
  change (Py.mem x (removelast (a :: b :: l)))
    with ((x =? a)%string || Py.mem x (removelast (b :: l))).
  intros H. apply orb_false_iff in H. destruct H as [-> H]. apply IH, H.
Qed.

(** Resolution leaves no [..] behind: each one is consumed by removing
    the component before it. *)
Lemma resolve_has_no_parent_reference cwd p :
  Py.mem ".." cwd = false ->
  Py.mem ".." (Pathlib.parts (Pathlib.resolve cwd p)) = false.
Proof.
  intros H. unfold Pathlib.resolve. cbn [Pathlib.parts].
  assert (Py.mem ".." (if Pathlib.absolute p then [] else cwd) = false) as H0
      by (destruct (Pathlib.absolute p); [reflexivity|exact H]).
  revert H0. generalize (if Pathlib.absolute p then [] else cwd).
  induction (Pathlib.parts p) as [|c cs IH]; intros acc H0; [exact H0|].
  simpl. apply IH. unfold Pathlib.realpath_step.
  destruct (String.eqb_spec c "..") as [->|N].
  - apply mem_removelast, H0.
  - rewrite mem_app, H0.
    change (Py.mem ".." [c]) with ((".." =? c)%string || false).
    rewrite orb_false_r. apply String.eqb_neq. congruence.
Qed.

(** Hence the test of [normalize_path] never fires: every path string
    is accepted, whatever [..] components it has. *)
Lemma normalize_path_accepts_every_path w path_str :
  Py.mem ".." (cwd w) = false ->
  normalize_path path_str w
  = (Return (Pathlib.to_string
               (Pathlib.resolve (cwd w) (Pathlib.of_string path_str))), w).
Proof.
  intros H. unfold normalize_path, bind, get_world.
  change (Py.mem ".." ("/" :: ?l)) with (Py.mem ".." l).
  rewrite resolve_has_no_parent_reference by exact H. reflexivity.
Qed.

(** The guard itself works as the first half of C2 reads: were a [..]
    left in the resolved path, the command would stop with the error
    message and touch nothing else. *)
Lemma add_path_guard w path_to_add :
  Py.mem ".." (Pathlib.parts (Pathlib.resolve (cwd w)
                                (Pathlib.of_string path_to_add))) = true ->
  exists e,
    add_path path_to_add w
    = (Return tt, printed (MsgCouldNotAddPath path_to_add (ValueError e)) w).
Proof.
  intros H. unfold add_path, try_except, bind at 1, normalize_path, bind, get_world.
  change (Py.mem ".." ("/" :: ?l)) with (Py.mem ".." l). rewrite H.
  eexists. reflexivity.
Qed.

(** C2, at the command [/add ../secret.txt] given in
    [/home/dev/project]: [normalize_path] returns the resolved path
    [/home/dev/secret.txt] without an error, and the file outside the
    project is read and appended to the conversation. *)
Theorem add_path_accepts_parent_traversal :
  normalize_path "../secret.txt" Samples.notes
    = (Return "/home/dev/secret.txt", Samples.notes) /\
  add_path "../secret.txt" Samples.notes
    = (Return tt,
       mkWorld (fs Samples.notes) (cwd Samples.notes)
         [mkEntry system (file_header "/home/dev/secret.txt" ++ "password")]
         [MsgAddedFile "/home/dev/secret.txt"]
         [SysStat "/home/dev/secret.txt"; SysOpenRead "/home/dev/secret.txt"]).
Proof. split; reflexivity. Qed.

(** C10.  When the normalised path is not a directory and the file
    reads as text, [/add] appends one system entry holding the header
    line and the text, whatever the file's name, extension, size or
    bytes: the only system calls are the directory test and the read. *)
Theorem add_path_single_file_has_no_filter
    (w : world) (path_to_add normalized_path bytes content : string) :
  normalize_path path_to_add w = (Return normalized_path, w) ->
  FS.isdir (fs w) (cwd w) normalized_path = false ->
  FS.read_bytes (fs w) (cwd w) normalized_path = inr bytes ->
  Text.decode bytes = Some content ->
  add_path path_to_add w
  = (Return tt,
     mkWorld (fs w) (cwd w)
       (conversation_history w
          ++ [mkEntry system (file_header normalized_path ++ content)])
       (console w ++ [MsgAddedFile normalized_path])
       (syscalls w ++ [SysStat normalized_path; SysOpenRead normalized_path])).
Proof.
  intros N D R T. unfold add_path. erewrite try_Return; [reflexivity|].
  rewrite (bind_Return _ _ _ _ _ N).
  rewrite (bind_Return _ _ _ _ _ (isdir_run _ _)), D.
  unfold add_file_to_conversation. erewrite try_Return; [reflexivity|].
  rewrite (bind_Return _ _ _ _ _
             (read_local_file_text (called (SysStat normalized_path) w)
                normalized_path bytes content R T)).
  unfold bind, history_append, console_print, printed, appended, called.
  cbn [fs cwd conversation_history console syscalls].
  rewrite <- app_assoc. reflexivity.
Qed.

(** The file [.env], hidden, denylisted and holding a NUL byte, is
    appended by [/add .env]. *)
Lemma add_path_single_file_has_no_filter_witness :
  let normalized_path := "/home/dev/project/.env" in
  excluded_name ".env" = true /\
  has_nul (Py.take 1024 Samples.env_bytes) = true /\
  add_path ".env" Samples.dotenv
  = (Return tt,
     mkWorld (fs Samples.dotenv) (cwd Samples.dotenv)
       [mkEntry system (file_header normalized_path ++ Samples.env_bytes)]
       [MsgAddedFile normalized_path]
       [SysStat normalized_path; SysOpenRead normalized_path]).
Proof.
  intros normalized_path. split; [reflexivity|]. split; [reflexivity|].
  exact (add_path_single_file_has_no_filter Samples.dotenv ".env"
           normalized_path Samples.env_bytes Samples.env_bytes
           eq_refl eq_refl eq_refl eq_refl).
Defined.

End AddPath.

(** ** Directory ingestion *)

Section Ingestion.

Lemma reached_top root es : reached root (Dir es) root.
Proof. exists []. split; [constructor|reflexivity]. Qed.

Lemma reached_file root es name f :
  In (name, File f) es -> reached root (Dir es) (OsPath.join root name).
Proof. intros H. exists [name]. split; [econstructor; exact H|reflexivity]. Qed.

Lemma reached_sub root es d child p :
  In (d, child) es -> excluded_name d = false ->
  reached (OsPath.join root d) child p -> reached root (Dir es) p.
Proof.
  intros I E (cs & V & ->). exists (d :: cs). split; [|reflexivity].
  eapply via_sub; eassumption.
Qed.

Lemma grows_refl {A} (P : A -> Prop) l : grows P l l.
Proof. exists []. split; [symmetry; apply app_nil_r|constructor]. Qed.

Lemma grows_trans {A} (P : A -> Prop) l1 l2 l3 :
  grows P l1 l2 -> grows P l2 l3 -> grows P l1 l3.
Proof.
  intros (n1 & -> & F1) (n2 & -> & F2). exists (n1 ++ n2)%list.
  split; [symmetry; apply app_assoc|apply Forall_app; auto].
Qed.

Lemma grows_mono {A} (P Q : A -> Prop) l l' :
  (forall a, P a -> Q a) -> grows P l l' -> grows Q l l'.
Proof.
  intros I (n & -> & F). exists n. split; [reflexivity|].
  eapply Forall_impl; eassumption.
Qed.

Lemma grows_one {A} (P : A -> Prop) l a : P a -> grows P l (l ++ [a]).
Proof. intros H. exists [a]. split; [reflexivity|]. constructor; [exact H|constructor]. Qed.

Lemma footprint_refl P w : footprint P w w.
Proof. repeat split; apply grows_refl. Qed.

Lemma footprint_trans P w1 w2 w3 :
  footprint P w1 w2 -> footprint P w2 w3 -> footprint P w1 w3.
Proof.
  intros (F1 & C1 & S1 & H1) (F2 & C2 & S2 & H2). repeat split; try congruence.
  - eapply grows_trans; eassumption.
  - eapply grows_trans; eassumption.
Qed.

Lemma footprint_mono (P Q : string -> Prop) w w' :
  (forall p, P p -> Q p) -> footprint P w w' -> footprint Q w w'.
Proof.
  intros I (F & C & S & H). repeat split; try assumption.
  - eapply grows_mono; [|exact S]. cbv beta. auto.
  - eapply grows_mono; [|exact H]. cbv beta.
    intros e (p & text & Pp & E). eauto.
Qed.

Lemma footprint_called (P : string -> Prop) w c :
  P (syscall_path c) -> footprint P w (called c w).
Proof.
  intros H. repeat split; [apply grows_one, H|apply grows_refl].
Qed.

Lemma footprint_printed P w m : footprint P w (printed m w).
Proof. repeat split; apply grows_refl. Qed.

Lemma footprint_appended (P : string -> Prop) w p text :
  P p -> footprint P w (appended (mkEntry system (file_header p ++ text)) w).
Proof.
  intros H. repeat split; [apply grows_refl|apply grows_one; eauto].
Qed.

Lemma recorded_refl P st : recorded P st st.
Proof. split; apply grows_refl. Qed.

Lemma recorded_trans P st1 st2 st3 :
  recorded P st1 st2 -> recorded P st2 st3 -> recorded P st1 st3.
Proof.
  intros (A1 & S1) (A2 & S2). split; eapply grows_trans; eassumption.
Qed.

Lemma recorded_mono (P Q : string -> Prop) st st' :
  (forall p, P p -> Q p) -> recorded P st st' -> recorded Q st st'.
Proof.
  intros I (A & S). split.
  - eapply grows_mono; [|exact A]. auto.
  - eapply grows_mono; [|exact S]. cbv beta. intros s (p & Pp & E). eauto.
Qed.

Lemma recorded_add (P : string -> Prop) st p : P p -> recorded P st (add st p).
Proof. intros H. split; [apply grows_one, H|apply grows_refl]. Qed.

Lemma recorded_skip (P : string -> Prop) st p :
  P p -> recorded P st (skip st p).
Proof. intros H. split; [apply grows_refl|apply grows_one; eauto]. Qed.

Lemma recorded_skip_oversize (P : string -> Prop) st p :
  P p -> recorded P st (skip st (p ++ " (exceeds size limit)")).
Proof. intros H. split; [apply grows_refl|apply grows_one; eauto]. Qed.

Ltac fp :=
  repeat first
    [ apply footprint_refl
    | eapply footprint_trans; [|apply footprint_printed]
    | eapply footprint_trans; [|apply footprint_called; reflexivity]
    | eapply footprint_trans; [|apply footprint_appended; reflexivity] ].

Lemma read_local_file_run w path :
  read_local_file path w
  = (match FS.read_bytes (fs w) (cwd w) path with
     | inl e => Raise e
     | inr bytes =>
         match Text.decode bytes with
         | Some text => Return text
         | None => Raise UnicodeDecodeError
         end
     end, called (SysOpenRead path) w).
Proof.
  destruct (FS.read_bytes (fs w) (cwd w) path) as [e|bytes] eqn:R.
  - apply read_local_file_error, R.
  - destruct (Text.decode bytes) as [text|] eqn:D.
    + eapply read_local_file_text; eassumption.
    + eapply read_local_file_undecodable; eassumption.
Qed.

Lemma add_file_footprint w file_path :
  footprint (eq file_path) w (snd (add_file_to_conversation file_path w)).
Proof.
  unfold add_file_to_conversation, try_except, bind at 1.
  rewrite read_local_file_run.
  destruct (FS.read_bytes (fs w) (cwd w) file_path) as [e|bytes].
  - destruct (isinstance_OSError e); cbn [snd]; unfold console_print; fp.
  - destruct (Text.decode bytes) as [text|]; cbn [snd].
    + unfold bind, history_append, console_print. cbn [snd]. fp.
    + fp.
Qed.

(** One file of the loop: every access and every record is about
    [os.path.join(root, file)]. *)
Lemma visit_file_footprint root file st w :
  footprint (eq (OsPath.join root file)) w (snd (visit_file root file st w)) /\
  forall st', fst (visit_file root file st w) = Return st' ->
              recorded (eq (OsPath.join root file)) st st'.
Proof.
  remember (visit_file root file st w) as r eqn:E. unfold visit_file in E.
  destruct (excluded_name file).
  { subst r. split; [apply footprint_refl|]. intros st' E. injection E as <-.
    apply recorded_skip. reflexivity. }
  destruct (Py.mem _ EXCLUDED_EXTENSIONS).
  { subst r. split; [apply footprint_refl|]. intros st' E. injection E as <-.
    apply recorded_skip. reflexivity. }
  set (full_path := OsPath.join root file) in *.
  unfold try_except, bind at 1 in E. rewrite getsize_run in E.
  destruct (FS.stat_size (fs w) (cwd w) full_path) as [e|size].
  { destruct (isinstance_OSError e); subst r; cbn [fst snd ret]; (split; [fp|]);
      intros st' E; [injection E as <-|discriminate E].
    apply recorded_skip. reflexivity. }
  destruct (size >? MAX_FILE_SIZE).
  { subst r. cbn [fst snd ret]. split; [fp|]. intros st' E. injection E as <-.
    apply recorded_skip_oversize. reflexivity. }
  unfold bind at 1 in E. rewrite is_binary_file_run in E.
  destruct (match FS.read_bytes _ _ _ with inl _ => true | inr b => _ end).
  { subst r. cbn [fst snd ret]. split; [fp|]. intros st' E. injection E as <-.
    apply recorded_skip. reflexivity. }
  unfold bind in E.
  pose proof (add_file_footprint
                (called (SysOpenReadBinary full_path) (called (SysStat full_path) w))
                full_path) as F.
  destruct (add_file_to_conversation full_path _) as [[[]|e] w1]; cbn [snd] in F.
  - subst r. cbn [fst snd ret]. split.
    + eapply footprint_trans; [|exact F]. fp.
    + intros st' E. injection E as <-. apply recorded_add. reflexivity.
  - destruct (isinstance_OSError e); subst r; cbn [fst snd ret]; split;
      try (eapply footprint_trans; [|exact F]; fp);
      intros st' E; [injection E as <-|discriminate E].
    apply recorded_skip. reflexivity.
Qed.

(** The files of one directory. *)
Lemma visit_files_footprint root : forall files st w,
  let P := fun p => exists file, In file files /\ p = OsPath.join root file in
  footprint P w (snd (visit_files root files st w)) /\
  forall st', fst (visit_files root files st w) = Return st' -> recorded P st st'.
Proof.
  induction files as [|file rest IH]; intros st w P.
  - split; [apply footprint_refl|]. intros st' E. injection E as <-.
    apply recorded_refl.
  - cbn [visit_files].
    destruct (total_files_processed st >=? MAX_FILES_TO_PROCESS).
    { split; [apply footprint_refl|]. intros st' E. injection E as <-.
      apply recorded_refl. }
    assert (forall p, p = OsPath.join root file -> P p) as Here
        by (intros p ->; exists file; split; [left; reflexivity|reflexivity]).
    assert (forall p, (exists f, In f rest /\ p = OsPath.join root f) -> P p)
      as There by (intros p (f & I & ->); exists f; split; [right; exact I|reflexivity]).
    destruct (visit_file_footprint root file st w) as [F1 R1].
    destruct (visit_file root file st w) as [[st1|e] w1] eqn:V; cbn [fst snd] in *.
    + rewrite (bind_Return _ _ _ _ _ V).
      destruct (IH st1 w1) as [F2 R2]. split.
      * eapply footprint_trans;
          [eapply footprint_mono; [|exact F1]; intros p <-; apply Here; reflexivity
          |eapply footprint_mono; [exact There|exact F2]].
      * intros st' E. eapply recorded_trans;
          [eapply recorded_mono; [|apply R1; reflexivity];
           intros p <-; apply Here; reflexivity
          |eapply recorded_mono; [exact There|apply R2, E]].
    + rewrite (bind_Raise _ _ _ _ _ V). cbn [fst snd]. split.
      * eapply footprint_mono; [|exact F1]. intros p <-. apply Here. reflexivity.
      * discriminate.
Qed.

Lemma file_names_In name es :
  In name (file_names es) -> exists f, In (name, File f) es.
Proof.
  unfold file_names. intros H. apply in_map_iff in H.
  destruct H as ([k n] & <- & H). apply filter_In in H. destruct H as [H D].
  destruct n as [f|?]; [|discriminate]. exists f. exact H.
Qed.

(** Induction on a directory tree, with the hypothesis for every
    entry of a directory. *)
Lemma node_tree_ind (P : node -> Prop) :
  (forall f, P (File f)) ->
  (forall es, Forall (fun e => P (snd e)) es -> P (Dir es)) ->
  forall n, P n.
Proof.
  intros HF HD. fix IH 1. intros [f|es]; [apply HF|]. apply HD.
  induction es as [|[k n] es IHes]; constructor; [apply IH|exact IHes].
Qed.

Lemma descend_footprint root es : forall es',
  incl es' es -> Forall (fun e => confined (snd e)) es' ->
  forall st w,
    footprint (reached root (Dir es)) w (snd (descend walk root es' st w)) /\
    forall st' b, fst (descend walk root es' st w) = Return (st', b) ->
                  recorded (reached root (Dir es)) st st'.
Proof.
  induction es' as [|[d child] es' IH]; intros I C st w.
  - split; [apply footprint_refl|]. intros st' b E. injection E as <- _.
    apply recorded_refl.
  - inversion C as [|? ? Cd Cr]; subst. cbn [snd] in Cd.
    assert (incl es' es) as I' by (intros e He; apply I; right; exact He).
    cbn [descend].
    destruct (is_dir_node child && negb (excluded_name d)) eqn:T; [|apply IH; assumption].
    apply andb_true_iff in T. destruct T as [_ T]. apply negb_true_iff in T.
    assert (forall p, reached (OsPath.join root d) child p -> reached root (Dir es) p)
      as Sub by (intros p Hp; eapply reached_sub; [apply I; left; reflexivity|exact T|exact Hp]).
    destruct (Cd (OsPath.join root d) st w) as [F1 R1].
    destruct (walk (OsPath.join root d) child st w) as [[[st1 b1]|e] w1] eqn:W;
      cbn [fst snd] in *.
    + rewrite (bind_Return _ _ _ _ _ W). cbn [fst snd].
      specialize (R1 st1 b1 eq_refl). destruct b1.
      * cbn [ret fst snd]. split.
        -- eapply footprint_mono; [exact Sub|exact F1].
        -- intros st' b E. injection E as <- _.
           eapply recorded_mono; [exact Sub|exact R1].
      * destruct (IH I' Cr st1 w1) as [F2 R2]. split.
        -- eapply footprint_trans;
             [eapply footprint_mono; [exact Sub|exact F1]|exact F2].
        -- intros st' b E. eapply recorded_trans;
             [eapply recorded_mono; [exact Sub|exact R1]|eapply R2, E].
    + rewrite (bind_Raise _ _ _ _ _ W). cbn [fst snd]. split.
      * eapply footprint_mono; [exact Sub|exact F1].
      * discriminate.
Qed.

Lemma walk_confined n : confined n.
Proof.
  induction n as [f|es IH] using node_tree_ind; intros root st w.
  - split; [apply footprint_refl|]. intros st' b E. injection E as <- _.
    apply recorded_refl.
  - remember (walk root (Dir es) st w) as r eqn:E. cbn [walk] in E.
    unfold bind at 1, sys in E.
    assert (footprint (reached root (Dir es)) w (called (SysScandir root) w)) as F0
        by (apply footprint_called; apply reached_top).
    destruct (total_files_processed st >=? MAX_FILES_TO_PROCESS).
    { subst r. unfold bind, console_print, ret. cbn [fst snd]. split.
      - eapply footprint_trans; [exact F0|apply footprint_printed].
      - intros st' b E. injection E as <- _. apply recorded_refl. }
    assert (forall p, (exists file, In file (file_names es)
                                    /\ p = OsPath.join root file) ->
                      reached root (Dir es) p) as Files.
    { intros p (file & I & ->). apply file_names_In in I. destruct I as [f I].
      eapply reached_file, I. }
    destruct (visit_files_footprint root (file_names es) st
                (called (SysScandir root) w)) as [F1 R1].
    destruct (visit_files root (file_names es) st _) as [[st1|e] w1] eqn:V;
      cbn [fst snd] in *.
    + rewrite (bind_Return _ _ _ _ _ V) in E. subst r.
      destruct (descend_footprint root es es (incl_refl es) IH st1 w1) as [F2 R2].
      split.
      * eapply footprint_trans; [exact F0|].
        eapply footprint_trans;
          [eapply footprint_mono; [exact Files|exact F1]|exact F2].
      * intros st' b E. eapply recorded_trans;
          [eapply recorded_mono; [exact Files|apply R1; reflexivity]
          |eapply R2; exact E].
    + rewrite (bind_Raise _ _ _ _ _ V) in E. subst r. cbn [fst snd]. split.
      * eapply footprint_trans; [exact F0|].
        eapply footprint_mono; [exact Files|exact F1].
      * discriminate.
Qed.

(** *** Path strings of positions *)

Lemma append_inv_head (a x y : string) : a ++ x = a ++ y -> x = y.
Proof. induction a as [|c a IH]; simpl; intros H; [exact H|]. injection H. exact IH. Qed.

Lemma append_self_inv (a y : string) : a = a ++ y -> y = "".
Proof.
  intros H. symmetry. apply (append_inv_head a).
  rewrite append_nil_r. exact H.
Qed.

Lemma first_component : forall c d x y,
  has_sep c = false -> has_sep d = false -> slashed x -> slashed y ->
  c ++ x = d ++ y -> c = d /\ x = y.
Proof.
  induction c as [|a c IH]; intros d x y Hc Hd Sx Sy E.
  - destruct d as [|b d]; [split; [reflexivity|exact E]|].
    simpl in E, Hd. apply orb_false_iff in Hd. destruct Hd as [Hb _].
    destruct Sx as [->|[x' ->]]; [discriminate|].
    injection E as <- _. rewrite Ascii.eqb_refl in Hb. discriminate.
  - simpl in Hc. apply orb_false_iff in Hc. destruct Hc as [Ha Hc].
    destruct d as [|b d].
    + simpl in E. destruct Sy as [->|[y' ->]]; [discriminate|].
      injection E as -> _. rewrite Ascii.eqb_refl in Ha. discriminate.
    + simpl in E, Hd. apply orb_false_iff in Hd. destruct Hd as [_ Hd].
      injection E as -> E. destruct (IH d x y Hc Hd Sx Sy E) as [-> ->].
      split; reflexivity.
Qed.

Lemma proper_name_inv c :
  proper_name c = true -> c <> "" /\ has_sep c = false.
Proof.
  unfold proper_name. intros H. apply andb_true_iff in H. destruct H as [N S].
  apply negb_true_iff in N, S. split; [|exact S].
  intros ->. discriminate.
Qed.

Lemma endswith_app x c ch :
  c <> "" -> Py.endswith_char (x ++ c) ch = Py.endswith_char c ch.
Proof.
  intros N. induction x as [|a x IH]; [reflexivity|].
  simpl. destruct (x ++ c) eqn:E; [|exact IH].
  destruct x; simpl in E; [congruence|discriminate].
Qed.

Lemma endswith_no_sep c : has_sep c = false -> Py.endswith_char c OsPath.sep = false.
Proof.
  induction c as [|a c IH]; [reflexivity|]. simpl. intros H.
  apply orb_false_iff in H. destruct H as [Ha Hc].
  destruct c; [exact Ha|apply IH, Hc].
Qed.

Lemma join_proper r c :
  proper_root r = true -> proper_name c = true ->
  OsPath.join r c = stem r ++ "/" ++ c
  /\ proper_root (OsPath.join r c) = true
  /\ stem (OsPath.join r c) = OsPath.join r c.
Proof.
  intros R C. destruct (proper_name_inv c C) as [N S].
  assert (OsPath.join r c = stem r ++ "/" ++ c) as J.
  { unfold OsPath.join, Py.startswith, stem.
    destruct c as [|a c]; [congruence|]. simpl in S.
    apply orb_false_iff in S. destruct S as [Sa _].
    cbn [String.prefix]. destruct (ascii_dec "/" a) as [<-|_]; [discriminate Sa|].
    unfold proper_root in R. destruct (String.eqb_spec r "/") as [->|NR].
    - reflexivity.
    - simpl in R. apply andb_true_iff in R. destruct R as [R1 R2].
      apply negb_true_iff in R1, R2. rewrite R1, R2. reflexivity. }
  assert (Py.endswith_char (OsPath.join r c) OsPath.sep = false) as E.
  { rewrite J.
    change (stem r ++ "/" ++ c) with (stem r ++ String OsPath.sep c).
    replace (stem r ++ String OsPath.sep c)
      with ((stem r ++ String OsPath.sep "") ++ c)
      by (rewrite append_assoc; reflexivity).
    rewrite endswith_app by exact N. apply endswith_no_sep, S. }
  assert ((OsPath.join r c =? "/")%string = false) as NS.
  { apply String.eqb_neq. intros Q. rewrite Q in E. discriminate E. }
  split; [exact J|]. split.
  - unfold proper_root. rewrite NS, E. simpl. rewrite andb_true_r.
    apply negb_true_iff, String.eqb_neq. intros Q. rewrite Q in J.
    destruct (stem r); discriminate J.
  - unfold stem. rewrite NS. reflexivity.
Qed.

Lemma path_at_segments : forall cs r,
  proper_root r = true -> Forall (fun c => proper_name c = true) cs -> cs <> [] ->
  path_at r cs = stem r ++ segments cs.
Proof.
  induction cs as [|c cs IH]; intros r R F N; [congruence|].
  inversion F as [|? ? Pc Pcs]; subst.
  destruct (join_proper r c R Pc) as (J & R' & S').
  change (path_at r (c :: cs)) with (path_at (OsPath.join r c) cs).
  destruct cs as [|c' cs].
  - cbn [path_at fold_left segments]. rewrite J, append_nil_r. reflexivity.
  - rewrite IH by (assumption || discriminate). rewrite S', J.
    cbn [segments]. rewrite !append_assoc. reflexivity.
Qed.

Lemma segments_slashed cs : slashed (segments cs).
Proof. destruct cs; [left; reflexivity|right; simpl; eauto]. Qed.

Lemma segments_prefix : forall rel cs t,
  Forall (fun c => proper_name c = true) rel ->
  Forall (fun c => proper_name c = true) cs ->
  slashed t -> segments cs = segments rel ++ t ->
  exists tail, cs = (rel ++ tail)%list.
Proof.
  induction rel as [|d rel IH]; intros cs t Fr Fc St E; [exists cs; reflexivity|].
  inversion Fr as [|? ? Pd Pr]; subst.
  destruct cs as [|c cs]; [discriminate E|].
  inversion Fc as [|? ? Pc Pcs]; subst.
  cbn [segments] in E. simpl in E. injection E as E.
  rewrite append_assoc in E.
  destruct (proper_name_inv c Pc) as [_ Sc].
  destruct (proper_name_inv d Pd) as [_ Sd].
  assert (slashed (segments rel ++ t)) as Sy.
  { destruct rel; [exact St|right; simpl; eauto]. }
  destruct (first_component c d _ _ Sc Sd (segments_slashed cs) Sy E) as [-> E'].
  destruct (IH cs t Pr Pcs St E') as [tail ->]. exists tail. reflexivity.
Qed.

(** A path inside the directory at position [rel] lies at a position
    that continues [rel]. *)
Lemma inside_continues r rel cs :
  proper_root r = true ->
  Forall (fun c => proper_name c = true) rel -> rel <> [] ->
  Forall (fun c => proper_name c = true) cs ->
  inside (path_at r rel) (path_at r cs) ->
  exists tail, cs = (rel ++ tail)%list.
Proof.
  intros R Fr N Fc I. rewrite (path_at_segments rel r R Fr N) in I.
  destruct rel as [|d rel]; [congruence|].
  inversion Fr as [|? ? Pd _]; subst. destruct (proper_name_inv d Pd) as [Nd _].
  destruct cs as [|c cs].
  - exfalso. cbn [path_at fold_left] in I. unfold stem in I.
    destruct (String.eqb_spec r "/") as [->|NR].
    + destruct I as [I|[rest I]]; simpl in I; injection I as I;
        destruct d; congruence || discriminate.
    + destruct I as [I|[rest I]].
      * apply append_self_inv in I. discriminate.
      * rewrite append_assoc in I. apply append_self_inv in I. discriminate.
  - rewrite (path_at_segments (c :: cs) r R Fc) in I by discriminate.
    destruct I as [I|[rest I]].
    + apply append_inv_head in I.
      apply (segments_prefix (d :: rel) (c :: cs) ""); auto.
      * left; reflexivity.
      * rewrite append_nil_r. exact I.
    + rewrite append_assoc in I. apply append_inv_head in I.
      apply (segments_prefix (d :: rel) (c :: cs) ("/" ++ rest)); auto.
      right. simpl. eauto.
Qed.

(** *** Positions in a well-formed tree *)

Lemma mem_In x l : In x l -> Py.mem x l = true.
Proof.
  intros H. apply existsb_exists. exists x. split; [exact H|apply String.eqb_refl].
Qed.

Lemma distinct_assoc (es : list (string * node)) d a b :
  distinct (map fst es) = true -> In (d, a) es -> In (d, b) es -> a = b.
Proof.
  induction es as [|[k v] es IH]; intros D Ia Ib; [contradiction|].
  cbn [map fst distinct] in D. apply andb_true_iff in D. destruct D as [Dk D].
  apply negb_true_iff in Dk.
  assert (forall c, In (d, c) es -> k <> d) as Fresh.
  { intros c Ic ->. apply (in_map fst) in Ic. apply mem_In in Ic.
    cbn [fst] in Ic. congruence. }
  destruct Ia as [Ea|Ia], Ib as [Eb|Ib].
  - congruence.
  - injection Ea as Ek _. exfalso. apply (Fresh b Ib Ek).
  - injection Eb as Ek _. exfalso. apply (Fresh a Ia Ek).
  - apply IH; assumption.
Qed.

Lemma well_formed_entry (es : list (string * node)) d child :
  well_formed (Dir es) = true -> In (d, child) es ->
  proper_name d = true /\ well_formed child = true.
Proof.
  cbn [well_formed]. intros W I. apply andb_true_iff in W. destruct W as [_ W].
  rewrite forallb_forall in W. specialize (W _ I). cbn [fst snd] in W.
  apply andb_true_iff in W. exact W.
Qed.

Lemma well_formed_distinct es :
  well_formed (Dir es) = true -> distinct (map fst es) = true.
Proof. cbn [well_formed]. intros W. apply andb_true_iff in W. apply W. Qed.

Lemma via_proper n cs :
  via n cs -> well_formed n = true -> Forall (fun c => proper_name c = true) cs.
Proof.
  induction 1 as [es|es name f I|es d child cs I E V IH]; intros W.
  - constructor.
  - constructor; [|constructor]. eapply well_formed_entry; eassumption.
  - destruct (well_formed_entry _ _ _ W I) as [Pd Wc].
    constructor; [exact Pd|apply IH, Wc].
Qed.

Lemma pruned_proper n rel :
  pruned_at n rel -> well_formed n = true ->
  Forall (fun c => proper_name c = true) rel /\ rel <> [].
Proof.
  induction 1 as [es d sub I E|es d child ds I E P IH]; intros W.
  - split; [|discriminate]. constructor; [|constructor].
    eapply well_formed_entry; eassumption.
  - destruct (well_formed_entry _ _ _ W I) as [Pd Wc].
    split; [|discriminate]. constructor; [exact Pd|apply IH, Wc].
Qed.

(** No position the walk may touch continues the position of a pruned
    directory. *)
Lemma via_not_under_pruned n rel :
  pruned_at n rel -> well_formed n = true ->
  forall cs tail, via n cs -> cs = (rel ++ tail)%list -> False.
Proof.
  induction 1 as [es d sub I E|es d child ds I E P IH]; intros W cs tail V C.
  - simpl in C. subst cs. inversion V as [|? name f If|? d' child' cs' I' E' V']; subst.
    + pose proof (distinct_assoc _ _ _ _ (well_formed_distinct _ W) I If).
      discriminate.
    + congruence.
  - simpl in C. subst cs.
    destruct (well_formed_entry _ _ _ W I) as [_ Wc].
    inversion V as [|? name f If|? d' child' cs' I' E' V']; subst.
    + pose proof (distinct_assoc _ _ _ _ (well_formed_distinct _ W) I If).
      subst child. inversion P.
    + pose proof (distinct_assoc _ _ _ _ (well_formed_distinct _ W) I I').
      subst child'. eapply IH; eauto.
Qed.

(** Every path the walk may touch is outside every pruned directory. *)
Lemma reached_outside_pruned root n rel p :
  well_formed n = true -> proper_root root = true ->
  pruned_at n rel -> reached root n p -> ~ inside (path_at root rel) p.
Proof.
  intros W R P (cs & V & ->) I.
  destruct (pruned_proper _ _ P W) as [Fr N].
  destruct (inside_continues root rel cs R Fr N (via_proper _ _ V W) I) as [tail C].
  eapply via_not_under_pruned; eassumption.
Qed.

(** C8.  In a tree with file-system names (not empty, no separator,
    distinct within a directory), take any child directory whose name
    is hidden or denylisted, in a directory the walk visits, and let
    [pruned] be its path.  The walk makes no system call ([scandir],
    [stat], binary or text [open]) about [pruned] or a path under it,
    appends no conversation entry for such a path, and records no
    such path as added or skipped. *)
Theorem walk_prunes_excluded_directories
    (n : node) (root : string) (rel : list string) (st : walk_state) (w : world) :
  well_formed n = true -> proper_root root = true -> pruned_at n rel ->
  let pruned := path_at root rel in
  let outside := fun p => ~ inside pruned p in
  footprint outside w (snd (walk root n st w)) /\
  forall st' b, fst (walk root n st w) = Return (st', b) ->
                recorded outside st st'.
Proof.
  intros W R P pruned outside.
  destruct (walk_confined n root st w) as [F Rec].
  assert (forall p, reached root n p -> outside p) as Out
      by (intros p Hp; eapply reached_outside_pruned; eassumption).
  split.
  - eapply footprint_mono; [exact Out|exact F].
  - intros st' b E. eapply recorded_mono; [exact Out|eapply Rec; exact E].
Qed.

(** *** The size rule and the read *)

Lemma visit_file_within_limit root file st w size bytes :
  excluded_name file = false ->
  Py.mem (Py.lower (snd (OsPath.splitext file))) EXCLUDED_EXTENSIONS = false ->
  let full_path := OsPath.join root file in
  FS.stat_size (fs w) (cwd w) full_path = inr size ->
  (size >? MAX_FILE_SIZE) = false ->
  FS.read_bytes (fs w) (cwd w) full_path = inr bytes ->
  has_nul (Py.take 1024 bytes) = false ->
  visit_file root file st w
  = match Text.decode bytes with
    | Some text =>
        (Return (add st full_path),
         printed (MsgAddedFile full_path)
           (appended (mkEntry system (file_header full_path ++ text))
              (examined w full_path)))
    | None => (Raise UnicodeDecodeError, examined w full_path)
    end.
Proof.
  intros X E full_path S L R B. unfold visit_file. rewrite X, E. fold full_path.
  unfold try_except, bind at 1. rewrite getsize_run, S, L.
  unfold bind at 1. rewrite is_binary_file_run. cbn [fs cwd called].
  rewrite R, B. unfold bind at 1, add_file_to_conversation, try_except, bind at 1.
  rewrite read_local_file_run. cbn [fs cwd called]. rewrite R.
  unfold examined, called. cbn [fs cwd conversation_history console syscalls].
  rewrite <- !app_assoc. cbn [app].
  destruct (Text.decode bytes); reflexivity.
Qed.

Lemma visit_file_oversize root file st w size :
  excluded_name file = false ->
  Py.mem (Py.lower (snd (OsPath.splitext file))) EXCLUDED_EXTENSIONS = false ->
  let full_path := OsPath.join root file in
  FS.stat_size (fs w) (cwd w) full_path = inr size ->
  (size >? MAX_FILE_SIZE) = true ->
  visit_file root file st w
  = (Return (skip st (full_path ++ " (exceeds size limit)")),
     called (SysStat full_path) w).
Proof.
  intros X E full_path S L. unfold visit_file. rewrite X, E. fold full_path.
  unfold try_except, bind at 1. rewrite getsize_run, S, L. reflexivity.
Qed.

(** A file that passes every rule and is not UTF-8 ends the loop body
    with [UnicodeDecodeError]: [except OSError] does not catch it. *)
Lemma visit_file_undecodable_raises root file st w size bytes :
  excluded_name file = false ->
  Py.mem (Py.lower (snd (OsPath.splitext file))) EXCLUDED_EXTENSIONS = false ->
  let full_path := OsPath.join root file in
  FS.stat_size (fs w) (cwd w) full_path = inr size ->
  (size >? MAX_FILE_SIZE) = false ->
  FS.read_bytes (fs w) (cwd w) full_path = inr bytes ->
  has_nul (Py.take 1024 bytes) = false ->
  Text.decode bytes = None ->
  visit_file root file st w = (Raise UnicodeDecodeError, examined w full_path).
Proof.
  intros X E full_path S L R B D.
  rewrite (visit_file_within_limit root file st w size bytes) by assumption.
  fold full_path. rewrite D. reflexivity.
Qed.

(** C7.  For a file that passes the name and extension rules: when
    its size is exactly [MAX_FILE_SIZE], its first 1024 bytes hold no
    NUL and it reads as text, the loop body records it as added,
    counts it and appends its text to the conversation; when its size
    is [MAX_FILE_SIZE + 1] the loop body records it as skipped with
    the remark [(exceeds size limit)], after the [stat] call alone. *)
Theorem size_ceiling_is_inclusive
    (root file : string) (st : walk_state) (w : world) :
  excluded_name file = false ->
  Py.mem (Py.lower (snd (OsPath.splitext file))) EXCLUDED_EXTENSIONS = false ->
  let full_path := OsPath.join root file in
  (forall bytes text,
     FS.stat_size (fs w) (cwd w) full_path = inr MAX_FILE_SIZE ->
     FS.read_bytes (fs w) (cwd w) full_path = inr bytes ->
     has_nul (Py.take 1024 bytes) = false ->
     Text.decode bytes = Some text ->
     visit_file root file st w
     = (Return (mkWalk (skipped_files st) (added_files st ++ [full_path])
                       (total_files_processed st + 1)),
        printed (MsgAddedFile full_path)
          (appended (mkEntry system (file_header full_path ++ text))
             (examined w full_path))))
  /\
  (FS.stat_size (fs w) (cwd w) full_path = inr (MAX_FILE_SIZE + 1) ->
   visit_file root file st w
   = (Return (mkWalk (skipped_files st ++ [full_path ++ " (exceeds size limit)"])
                     (added_files st) (total_files_processed st)),
      called (SysStat full_path) w)).
Proof.
  intros X E full_path. split.
  - intros bytes text S R B D.
    rewrite (visit_file_within_limit root file st w MAX_FILE_SIZE bytes)
      by (assumption || reflexivity).
    fold full_path. rewrite D. reflexivity.
  - intros S.
    apply (visit_file_oversize root file st w (MAX_FILE_SIZE + 1));
      assumption || reflexivity.
Qed.

(** *** A file of a given size *)

Lemma filled_succ n : Samples.filled (N.succ n) = String "a" (Samples.filled n).
Proof. unfold Samples.filled. apply N.iter_succ. Qed.

Lemma len_from_length s : forall acc, Py.len_from s acc = acc + Z.of_nat (String.length s).
Proof.
  induction s as [|c s IH]; intros acc; simpl Py.len_from.
  - simpl. lia.
  - rewrite IH. cbn [String.length]. lia.
Qed.

Lemma len_filled n : Py.len (Samples.filled n) = Z.of_N n.
Proof.
  unfold Py.len. rewrite len_from_length.
  induction n as [|n IH] using N.peano_ind; [reflexivity|].
  rewrite filled_succ. cbn [String.length]. lia.
Qed.

Lemma has_nul_filled n : forall k, has_nul (Py.take k (Samples.filled n)) = false.
Proof.
  induction n as [|n IH] using N.peano_ind; intros k.
  - destruct k; reflexivity.
  - rewrite filled_succ. destruct k; [reflexivity|]. cbn [Py.take has_nul].
    rewrite IH. reflexivity.
Qed.

Lemma decode_filled n : Text.decode (Samples.filled n) = Some (Samples.filled n).
Proof.
  unfold Text.decode.
  assert (Text.utf8_valid (Samples.filled n) = true
          /\ Text.universal_newlines (Samples.filled n) = Samples.filled n) as [-> ->];
    [|reflexivity].
  induction n as [|n [IH1 IH2]] using N.peano_ind; [split; reflexivity|].
  rewrite filled_succ. split.
  - change (Text.utf8_valid (String "a" (Samples.filled n)))
      with (Text.utf8_valid (Samples.filled n)). exact IH1.
  - change (Text.universal_newlines (String "a" (Samples.filled n)))
      with (String "a" (Text.universal_newlines (Samples.filled n))).
    rewrite IH2. reflexivity.
Qed.

Lemma stat_sized n :
  FS.stat_size (fs (Samples.sized n)) (cwd (Samples.sized n))
    (OsPath.join "/home/dev/project" "data.txt")
  = inr (Py.len (Samples.filled n)).
Proof. reflexivity. Qed.

Lemma read_sized n :
  FS.read_bytes (fs (Samples.sized n)) (cwd (Samples.sized n))
    (OsPath.join "/home/dev/project" "data.txt")
  = inr (Samples.filled n).
Proof. reflexivity. Qed.

(** A file of 5,000,000 bytes is added, one of 5,000,001 is skipped. *)
Lemma size_ceiling_is_inclusive_witness :
  let full_path := OsPath.join "/home/dev/project" "data.txt" in
  let st := mkWalk [] [] 0 in
  visit_file "/home/dev/project" "data.txt" st (Samples.sized 5000000)
  = (Return (mkWalk [] [full_path] 1),
     printed (MsgAddedFile full_path)
       (appended (mkEntry system (file_header full_path ++ Samples.filled 5000000))
          (examined (Samples.sized 5000000) full_path)))
  /\
  visit_file "/home/dev/project" "data.txt" st (Samples.sized 5000001)
  = (Return (mkWalk [full_path ++ " (exceeds size limit)"] [] 0),
     called (SysStat full_path) (Samples.sized 5000001)).
Proof.
  intros full_path st. split.
  - apply (proj1 (size_ceiling_is_inclusive "/home/dev/project" "data.txt" st
                    (Samples.sized 5000000) eq_refl eq_refl)
             (Samples.filled 5000000) (Samples.filled 5000000)).
    + rewrite stat_sized, len_filled. reflexivity.
    + apply read_sized.
    + apply has_nul_filled.
    + apply decode_filled.
  - apply (proj2 (size_ceiling_is_inclusive "/home/dev/project" "data.txt" st
                    (Samples.sized 5000001) eq_refl eq_refl)).
    rewrite stat_sized, len_filled. reflexivity.
Defined.

(** *** The file limit *)

Lemma visit_file_shape root file st w st' :
  fst (visit_file root file st w) = Return st' ->
  st' = add st (OsPath.join root file) \/ exists item, st' = skip st item.
Proof.
  remember (visit_file root file st w) as r eqn:E. unfold visit_file in E.
  destruct (excluded_name file).
  { subst r. intros H. injection H as <-. eauto. }
  destruct (Py.mem _ EXCLUDED_EXTENSIONS).
  { subst r. intros H. injection H as <-. eauto. }
  set (full_path := OsPath.join root file) in *.
  unfold try_except, bind at 1 in E. rewrite getsize_run in E.
  destruct (FS.stat_size (fs w) (cwd w) full_path) as [e|size].
  { destruct (isinstance_OSError e); subst r; cbn [fst ret]; intros H;
      [injection H as <-; eauto|discriminate H]. }
  destruct (size >? MAX_FILE_SIZE).
  { subst r. intros H. injection H as <-. eauto. }
  unfold bind at 1 in E. rewrite is_binary_file_run in E.
  destruct (match FS.read_bytes _ _ _ with inl _ => true | inr b => _ end).
  { subst r. intros H. injection H as <-. eauto. }
  unfold bind in E.
  destruct (add_file_to_conversation full_path _) as [[[]|e] w1].
  - subst r. intros H. injection H as <-. eauto.
  - destruct (isinstance_OSError e); subst r; cbn [fst ret]; intros H;
      [injection H as <-; eauto|discriminate H].
Qed.

Lemma within_limit_skip st item : within_limit st -> within_limit (skip st item).
Proof. intros H. exact H. Qed.

Lemma within_limit_add st item :
  within_limit st -> total_files_processed st < MAX_FILES_TO_PROCESS ->
  within_limit (add st item).
Proof.
  intros [C L] B. unfold within_limit, add. cbn [total_files_processed added_files].
  rewrite length_app. cbn [List.length]. lia.
Qed.

Lemma visit_files_within_limit root : forall files st w st',
  within_limit st ->
  fst (visit_files root files st w) = Return st' -> within_limit st'.
Proof.
  induction files as [|file rest IH]; intros st w st' I E.
  - injection E as <-. exact I.
  - cbn [visit_files] in E.
    destruct (Z.geb_spec (total_files_processed st) MAX_FILES_TO_PROCESS) as [G|B].
    { injection E as <-. exact I. }
    pose proof (visit_file_shape root file st w) as S.
    destruct (visit_file root file st w) as [[st1|e] w1] eqn:V.
    + rewrite (bind_Return _ _ _ _ _ V) in E. eapply IH; [|exact E].
      destruct (S st1 eq_refl) as [->|[item ->]].
      * apply within_limit_add; assumption.
      * apply within_limit_skip, I.
    + rewrite (bind_Raise _ _ _ _ _ V) in E. discriminate E.
Qed.

Lemma descend_within_limit root : forall es,
  Forall (fun e => forall root st w st' b,
            within_limit st ->
            fst (walk root (snd e) st w) = Return (st', b) -> within_limit st') es ->
  forall st w st' b,
    within_limit st ->
    fst (descend walk root es st w) = Return (st', b) -> within_limit st'.
Proof.
  induction es as [|[d child] es IH]; intros C st w st' b I E.
  - injection E as <- _. exact I.
  - inversion C as [|? ? Cd Cr]; subst. cbn [snd] in Cd. cbn [descend] in E.
    destruct (is_dir_node child && negb (excluded_name d)); [|eapply IH; eassumption].
    destruct (walk (OsPath.join root d) child st w) as [[[st1 b1]|e] w1] eqn:W.
    + rewrite (bind_Return _ _ _ _ _ W) in E. cbn [fst snd] in E.
      assert (within_limit st1) as I1
          by (eapply Cd; [exact I|rewrite W; reflexivity]).
      destruct b1.
      * injection E as <- _. exact I1.
      * eapply IH; eassumption.
    + rewrite (bind_Raise _ _ _ _ _ W) in E. discriminate E.
Qed.

(** The counter is the number of added files and the walk never takes
    it past [MAX_FILES_TO_PROCESS]. *)
Lemma walk_within_limit n : forall root st w st' b,
  within_limit st ->
  fst (walk root n st w) = Return (st', b) -> within_limit st'.
Proof.
  induction n as [f|es IH] using node_tree_ind; intros root st w st' b I E.
  - injection E as <- _. exact I.
  - cbn [walk] in E. unfold bind at 1, sys in E.
    destruct (total_files_processed st >=? MAX_FILES_TO_PROCESS).
    { injection E as <- _. exact I. }
    destruct (visit_files root (file_names es) st (called (SysScandir root) w))
      as [[st1|e] w1] eqn:V.
    + rewrite (bind_Return _ _ _ _ _ V) in E.
      eapply descend_within_limit; [exact IH| |exact E].
      eapply visit_files_within_limit; [exact I|rewrite V; reflexivity].
    + rewrite (bind_Raise _ _ _ _ _ V) in E. discriminate E.
Qed.

(** A directory ingestion that ends normally has added at most 1000
    files. *)
Lemma scan_directory_within_limit directory_path w st :
  fst (scan_directory directory_path w) = Return st ->
  (Z.of_nat (List.length (added_files st)) <= 1000)%Z.
Proof.
  assert (exists o, os_walk_top directory_path w = (Return o, w)) as [o T].
  { unfold os_walk_top, bind, get_world.
    destruct (FS.resolve (fs w) (cwd w) directory_path); eexists; reflexivity. }
  assert (within_limit (mkWalk [] [] 0)) as I0 by (split; [reflexivity|discriminate]).
  unfold scan_directory. rewrite (bind_Return _ _ _ _ _ T). intros E.
  assert (within_limit st) as [C L]; [|rewrite <- C; exact L].
  destruct o as [n|].
  - destruct (walk directory_path n (mkWalk [] [] 0) w) as [[[st1 b]|e] w1] eqn:W.
    + rewrite (bind_Return _ _ _ _ _ W) in E. injection E as <-.
      eapply walk_within_limit; [exact I0|rewrite W; reflexivity].
    + rewrite (bind_Raise _ _ _ _ _ W) in E. discriminate E.
  - injection E as <-. exact I0.
Qed.

(** *** The walk on sample directories *)

(** C8 on the sample checkout: the directories [node_modules], [.git]
    and [src/build] are pruned; the trace of the walk shows the calls
    that are made. *)
Lemma walk_prunes_excluded_directories_witness :
  let root := "/home/dev/project" in
  let st := mkWalk [] [] 0 in
  well_formed Samples.checkout_tree = true /\
  proper_root root = true /\
  pruned_at Samples.checkout_tree ["src"; "build"] /\
  (let outside := fun p => ~ inside (path_at root ["src"; "build"]) p in
   footprint outside Samples.checkout
     (snd (walk root Samples.checkout_tree st Samples.checkout)) /\
   forall st' b,
     fst (walk root Samples.checkout_tree st Samples.checkout) = Return (st', b) ->
     recorded outside st st') /\
  map syscall_path
      (syscalls (snd (walk root Samples.checkout_tree st Samples.checkout)))
  = [ "/home/dev/project";
      "/home/dev/project/main.py"; "/home/dev/project/main.py";
      "/home/dev/project/main.py";
      "/home/dev/project/src";
      "/home/dev/project/src/app.py"; "/home/dev/project/src/app.py";
      "/home/dev/project/src/app.py" ].
Proof.
  intros root st.
  assert (pruned_at Samples.checkout_tree ["src"; "build"]) as P.
  { eapply pruned_sub.
    - right. right. right. left. reflexivity.
    - reflexivity.
    - eapply pruned_here; [right; left; reflexivity|reflexivity]. }
  split; [reflexivity|]. split; [reflexivity|]. split; [exact P|].
  split; [|reflexivity].
  exact (walk_prunes_excluded_directories Samples.checkout_tree root
           ["src"; "build"] st Samples.checkout eq_refl eq_refl P).
Defined.

(** C3, at a directory with a Latin-1 file [legacy.txt] before
    [readme.txt]: the file passes every filter, its read raises
    [UnicodeDecodeError], which neither [add_file_to_conversation] nor
    the loop catches; the walk ends there, [readme.txt] is never
    opened, no list of skipped files is shown, and the command reports
    that the path could not be added. *)
Theorem read_error_aborts_the_walk :
  excluded_name "legacy.txt" = false /\
  has_nul (Py.take 1024 Samples.latin1_bytes) = false /\
  Text.decode Samples.latin1_bytes = None /\
  fst (scan_directory "/home/dev/project/docs" Samples.legacy)
    = Raise UnicodeDecodeError /\
  add_path "docs" Samples.legacy
  = (Return tt,
     mkWorld (fs Samples.legacy) (cwd Samples.legacy) []
       [MsgCouldNotAddPath "docs" UnicodeDecodeError]
       [SysStat "/home/dev/project/docs"; SysScandir "/home/dev/project/docs";
        SysStat "/home/dev/project/docs/legacy.txt";
        SysOpenReadBinary "/home/dev/project/docs/legacy.txt";
        SysOpenRead "/home/dev/project/docs/legacy.txt"]).
Proof. repeat split. Qed.

(** C5, at a directory that holds 1200 eligible files and no
    sub-directory: 1000 files are added, and the console shows the
    notices of the files, the folder line and the count [1000 of 1000]:
    no notice of the limit and nothing that says the result is partial. *)
Theorem limit_in_last_directory_is_not_reported :
  let r := add_path "big" (Samples.flat 1200) in
  let files := Samples.paths_in "/home/dev/project/big" 1000 in
  fst r = Return tt /\
  List.length (conversation_history (snd r)) = 1000%nat /\
  existsb is_limit_notice (console (snd r)) = false /\
  console (snd r)
  = (map MsgAddedFile files
       ++ [MsgAddedFolder "/home/dev/project/big";
           MsgAddedFiles 1000 1000 files; MsgBlank])%list.
Proof. vm_compute. repeat split. Qed.

(** The notice is printed when another directory follows: 1000 files
    and then a sub-directory. *)
Lemma limit_before_another_directory_is_reported :
  let r := add_path "big" (Samples.nested 1000 200) in
  List.length (conversation_history (snd r)) = 1000%nat /\
  existsb is_limit_notice (console (snd r)) = true.
Proof. vm_compute. repeat split. Qed.

End Ingestion.

(** ** The response interpreter *)

Section ResponseInterpreter.

Lemma required_text_lacking key fields :
  lacks_text key fields -> Interpreter.required_text key fields = inl Interpreter.SchemaError.
Proof.
  unfold lacks_text, Interpreter.required_text. intros H.
  destruct (Interpreter.get key fields) as [[| | |s| |]|]; try reflexivity.
  exfalso. apply (H s). reflexivity.
Qed.

Lemma create_entry_bad j :
  bad_entry ["path"; "content"] j ->
  Interpreter.create_entry j = inl Interpreter.SchemaError.
Proof.
  intros [j' H|fields key I L].
  - destruct j'; try reflexivity. exfalso. eapply H. reflexivity.
  - unfold Interpreter.create_entry.
    destruct I as [<-|[<-|[]]]; rewrite (required_text_lacking _ _ L).
    + reflexivity.
    + destruct (Interpreter.required_text "path" fields); reflexivity.
Qed.

Lemma edit_entry_bad j :
  bad_entry ["path"; "original_snippet"; "new_snippet"] j ->
  Interpreter.edit_entry j = inl Interpreter.SchemaError.
Proof.
  intros [j' H|fields key I L].
  - destruct j'; try reflexivity. exfalso. eapply H. reflexivity.
  - unfold Interpreter.edit_entry.
    destruct I as [<-|[<-|[<-|[]]]]; rewrite (required_text_lacking _ _ L).
    + reflexivity.
    + destruct (Interpreter.required_text "path" fields); reflexivity.
    + destruct (Interpreter.required_text "path" fields),
               (Interpreter.required_text "original_snippet" fields); reflexivity.
Qed.

Lemma all_entries_bad {A} (f : json -> Interpreter.error + A) items j :
  In j items -> f j = inl Interpreter.SchemaError ->
  Interpreter.all_entries f items = inl Interpreter.SchemaError.
Proof.
  induction items as [|i items IH]; intros I F; [contradiction|].
  cbn [Interpreter.all_entries]. destruct I as [->|I].
  - rewrite F. reflexivity.
  - rewrite (IH I F). destruct (f i); reflexivity.
Qed.

Lemma interpret_violation raw :
  schema_violation raw -> Interpreter.interpret raw = inl Interpreter.SchemaError.
Proof.
  intros [fields L|fields items j G I B|fields items j G I B];
    unfold Interpreter.interpret.
  - rewrite (required_text_lacking _ _ L). reflexivity.
  - unfold Interpreter.optional_list at 1. rewrite G.
    rewrite (all_entries_bad _ items j I (create_entry_bad j B)).
    destruct (Interpreter.required_text "assistant_reply" fields); reflexivity.
  - unfold Interpreter.optional_list at 2. rewrite G.
    rewrite (all_entries_bad _ items j I (edit_entry_bad j B)).
    destruct (Interpreter.required_text "assistant_reply" fields),
             (Interpreter.optional_list Interpreter.create_entry
                "files_to_create" fields); reflexivity.
Qed.

(** C6.  A response that lacks [assistant_reply] as text, or has a
    create or edit entry without one of its required text fields, is
    rejected with [SchemaError], and the turn leaves the world as it
    was: no file is created or edited and no system call is made,
    whatever the user answers to the confirmation. *)
Theorem schema_violation_applies_nothing (raw : json) (confirm : string) (w : world) :
  schema_violation raw ->
  Interpreter.interpret raw = inl Interpreter.SchemaError /\
  handle_response raw confirm w = (Return (Some Interpreter.SchemaError), w).
Proof.
  intros V. pose proof (interpret_violation raw V) as E.
  split; [exact E|]. unfold handle_response. rewrite E. reflexivity.
Qed.

Lemma schema_violation_applies_nothing_witness :
  schema_violation Samples.reply_missing /\
  Interpreter.interpret Samples.reply_missing = inl Interpreter.SchemaError /\
  handle_response Samples.reply_missing "y" Samples.notes
  = (Return (Some Interpreter.SchemaError), Samples.notes).
Proof.
  assert (schema_violation Samples.reply_missing) as V
      by (apply violation_reply; intros s; discriminate).
  split; [exact V|].
  exact (schema_violation_applies_nothing Samples.reply_missing "y" Samples.notes V).
Defined.

(** With [assistant_reply] present the same creation and edit are
    applied. *)
Lemma well_formed_reply_is_applied :
  match Samples.reply_missing with
  | JObject fields =>
      let r := handle_response
                 (JObject (("assistant_reply", JString "done") :: fields))
                 "y" Samples.notes in
      fst r = Return None /\
      FS.read_bytes (fs (snd r)) (cwd (snd r)) "new.txt" = inr "created" /\
      FS.read_bytes (fs (snd r)) (cwd (snd r)) "notes.txt" = inr "bye"
  | _ => False
  end.
Proof. repeat split. Qed.

End ResponseInterpreter.

(* ================================================================= *)
(** * Further properties of the code *)

(** ** Failures of [apply_diff_edit] and of a batch of edits *)

Section EditFailures.

Lemma locate_error t : forall comps cur e,
  FS.locate t cur comps = inl e ->
  e = NotADirectoryError \/ e = FileNotFoundError.
Proof.
  induction comps as [|c rest IH]; intros cur e H; [discriminate|].
  rewrite locate_cons in H.
  destruct (FS.lookup t cur) as [[?|?]|].
  - injection H as <-. auto.
  - destruct (FS.trivial c); [eapply IH, H|].
    destruct (c =? "..")%string; eapply IH, H.
  - injection H as <-. auto.
Qed.

(** What a read can fail with is an [OSError] and no [ValueError]. *)
Lemma read_bytes_error t cwd path e :
  FS.read_bytes t cwd path = inl e ->
  isinstance_OSError e = true /\ isinstance_ValueError e = false.
Proof.
  unfold FS.read_bytes, FS.resolve.
  destruct (path =? "")%string.
  { intros H. injection H as <-. split; reflexivity. }
  destruct (FS.locate t (FS.start cwd path) (Py.split OsPath.sep path)) as [e'|loc] eqn:L.
  { intros H. injection H as <-.
    destruct (locate_error _ _ _ _ L) as [->| ->]; split; reflexivity. }
  destruct (FS.lookup t loc) as [[f|?]|]; intros H.
  - destruct (readable f); [discriminate|]. injection H as <-. split; reflexivity.
  - injection H as <-. split; reflexivity.
  - injection H as <-. split; reflexivity.
Qed.

(** An edit whose read fails: the first [except] clause takes a
    missing file, and no clause takes any other error of the read. *)
Lemma apply_diff_edit_read_error w path original_snippet new_snippet e :
  FS.read_bytes (fs w) (cwd w) path = inl e ->
  apply_diff_edit path original_snippet new_snippet w
  = if isinstance_FileNotFoundError e
    then (Return tt, printed (MsgFileNotFound path) (called (SysOpenRead path) w))
    else (Raise e, called (SysOpenRead path) w).
Proof.
  intros R. destruct (read_bytes_error _ _ _ _ R) as [_ V].
  unfold apply_diff_edit. erewrite try_Raise.
  2:{ eapply bind_Raise. apply read_local_file_error, R. }
  rewrite V. destruct (isinstance_FileNotFoundError e); reflexivity.
Qed.

Lemma not_FileNotFoundError e :
  e <> FileNotFoundError -> isinstance_FileNotFoundError e = false.
Proof. destruct e; try reflexivity. congruence. Qed.

(** X1.  When the file of an edit does not exist, [apply_diff_edit]
    prints the file-not-found line and returns normally: the only
    system call is the attempt to open the file for reading, and
    neither the file system nor the conversation changes. *)
Theorem edit_of_missing_file_is_reported
    (w : world) (path original_snippet new_snippet : string) :
  FS.read_bytes (fs w) (cwd w) path = inl FileNotFoundError ->
  apply_diff_edit path original_snippet new_snippet w
  = (Return tt, printed (MsgFileNotFound path) (called (SysOpenRead path) w)).
Proof.
  intros R. rewrite (apply_diff_edit_read_error _ _ _ _ _ R). reflexivity.
Qed.

Lemma edit_of_missing_file_is_reported_witness :
  apply_diff_edit "nope.txt" "a" "b" Samples.notes
  = (Return tt,
     mkWorld (fs Samples.notes) (cwd Samples.notes) []
       [MsgFileNotFound "nope.txt"] [SysOpenRead "nope.txt"]).
Proof.
  exact (edit_of_missing_file_is_reported Samples.notes "nope.txt" "a" "b" eq_refl).
Defined.

(** X2.  When the file of an edit is not UTF-8, the [ValueError]
    clause prints the no-changes line and [apply_diff_edit] returns
    normally, without opening the file for writing. *)
Theorem edit_of_undecodable_file_changes_nothing
    (w : world) (path original_snippet new_snippet bytes : string) :
  FS.read_bytes (fs w) (cwd w) path = inr bytes ->
  Text.decode bytes = None ->
  apply_diff_edit path original_snippet new_snippet w
  = (Return tt,
     printed (MsgNoChangesMade UnicodeDecodeError path)
       (called (SysOpenRead path) w)).
Proof.
  intros R D. unfold apply_diff_edit. erewrite try_Raise.
  2:{ eapply bind_Raise. eapply read_local_file_undecodable; eassumption. }
  reflexivity.
Qed.

Lemma edit_of_undecodable_file_changes_nothing_witness :
  apply_diff_edit "docs/legacy.txt" "caf" "tea" Samples.legacy
  = (Return tt,
     mkWorld (fs Samples.legacy) (cwd Samples.legacy) []
       [MsgNoChangesMade UnicodeDecodeError "docs/legacy.txt"]
       [SysOpenRead "docs/legacy.txt"]).
Proof.
  exact (edit_of_undecodable_file_changes_nothing Samples.legacy
           "docs/legacy.txt" "caf" "tea" Samples.latin1_bytes eq_refl eq_refl).
Defined.

(** X3.  Any other failure of the read (a directory, a file the
    process may not open, a regular file used as a directory) is not
    caught: [apply_diff_edit] ends with that exception, which neither
    of its [except] clauses matches. *)
Theorem edit_read_error_is_not_caught
    (w : world) (path original_snippet new_snippet : string) (e : exn) :
  FS.read_bytes (fs w) (cwd w) path = inl e ->
  e <> FileNotFoundError ->
  apply_diff_edit path original_snippet new_snippet w
  = (Raise e, called (SysOpenRead path) w).
Proof.
  intros R N. rewrite (apply_diff_edit_read_error _ _ _ _ _ R).
  rewrite (not_FileNotFoundError e N). reflexivity.
Qed.

Lemma edit_read_error_is_not_caught_witness :
  apply_diff_edit "locked.txt" "z" "y" Samples.locked
    = (Raise PermissionError, called (SysOpenRead "locked.txt") Samples.locked) /\
  apply_diff_edit "." "z" "y" Samples.locked
    = (Raise IsADirectoryError, called (SysOpenRead ".") Samples.locked).
Proof.
  split.
  - apply (edit_read_error_is_not_caught Samples.locked "locked.txt" "z" "y"
             PermissionError eq_refl). discriminate.
  - apply (edit_read_error_is_not_caught Samples.locked "." "z" "y"
             IsADirectoryError eq_refl). discriminate.
Defined.

(** The edits of a response, as the main loop applies them. *)
Lemma apply_response_edits reply edit_info rest w :
  apply_response
    (AssistantResponse.make reply None (Some (edit_info :: rest))) "y" w
  = bind (apply_diff_edit (FileToEdit.path edit_info)
                          (FileToEdit.original_snippet edit_info)
                          (FileToEdit.new_snippet edit_info))
         (fun _ => for_each
                     (fun edit_info =>
                        apply_diff_edit (FileToEdit.path edit_info)
                                        (FileToEdit.original_snippet edit_info)
                                        (FileToEdit.new_snippet edit_info)) rest) w.
Proof. reflexivity. Qed.

(** X4.  In a confirmed batch of edits, an edit of a missing file is
    reported and the edits after it are applied all the same: the
    result is that of the rest of the batch, run after the report. *)
Theorem edit_batch_continues_after_missing_file
    (w : world) (reply : string) (edit_info : FileToEdit.t)
    (rest : list FileToEdit.t) :
  FS.read_bytes (fs w) (cwd w) (FileToEdit.path edit_info) = inl FileNotFoundError ->
  apply_response
    (AssistantResponse.make reply None (Some (edit_info :: rest))) "y" w
  = for_each
      (fun edit_info =>
         apply_diff_edit (FileToEdit.path edit_info)
                         (FileToEdit.original_snippet edit_info)
                         (FileToEdit.new_snippet edit_info)) rest
      (printed (MsgFileNotFound (FileToEdit.path edit_info))
         (called (SysOpenRead (FileToEdit.path edit_info)) w)).
Proof.
  intros R. rewrite apply_response_edits.
  erewrite bind_Return; [reflexivity|].
  rewrite (apply_diff_edit_read_error _ _ _ _ _ R). reflexivity.
Qed.

Lemma edit_batch_continues_after_missing_file_witness :
  let r := apply_response (Samples.edit_batch "nope.txt") "y" Samples.notes in
  fst r = Return tt /\
  FS.read_bytes (fs (snd r)) (cwd (snd r)) "notes.txt" = inr "bye" /\
  console (snd r)
  = [MsgFileNotFound "nope.txt"; MsgCreated "notes.txt"; MsgAppliedDiff "notes.txt"].
Proof.
  intros r. subst r. unfold Samples.edit_batch.
  rewrite (edit_batch_continues_after_missing_file Samples.notes "done"
             (FileToEdit.make "nope.txt" "x" "y")
             [FileToEdit.make "notes.txt" "hello" "bye"] eq_refl).
  repeat split.
Defined.

(** X5.  In a confirmed batch of edits, an edit whose read fails with
    anything but a missing file ends the batch: the exception leaves
    [apply_response], that is the main loop, and no later edit is
    attempted. *)
Theorem edit_batch_stops_at_uncaught_error
    (w : world) (reply : string) (edit_info : FileToEdit.t)
    (rest : list FileToEdit.t) (e : exn) :
  FS.read_bytes (fs w) (cwd w) (FileToEdit.path edit_info) = inl e ->
  e <> FileNotFoundError ->
  apply_response
    (AssistantResponse.make reply None (Some (edit_info :: rest))) "y" w
  = (Raise e, called (SysOpenRead (FileToEdit.path edit_info)) w).
Proof.
  intros R N. rewrite apply_response_edits.
  erewrite bind_Raise; [reflexivity|].
  rewrite (apply_diff_edit_read_error _ _ _ _ _ R).
  rewrite (not_FileNotFoundError e N). reflexivity.
Qed.

Lemma edit_batch_stops_at_uncaught_error_witness :
  apply_response (Samples.edit_batch ".") "y" Samples.notes
  = (Raise IsADirectoryError, called (SysOpenRead ".") Samples.notes).
Proof.
  apply (edit_batch_stops_at_uncaught_error Samples.notes "done"
           (FileToEdit.make "." "x" "y")
           [FileToEdit.make "notes.txt" "hello" "bye"] IsADirectoryError eq_refl).
  discriminate.
Defined.

End EditFailures.

(** ** Writes: what they change and what they leave *)

Section Writes.

Lemma alter_same f c es v :
  FS.assoc c es = Some v -> f (Some v) = Some v -> FS.alter f c es = es.
Proof.
  induction es as [|[k u] es IH]; simpl; intros A F; [discriminate|].
  destruct (String.eqb_spec k c) as [->|N].
  - injection A as ->. rewrite F. reflexivity.
  - f_equal. apply IH; assumption.
Qed.

(** Putting back the node that is there changes nothing. *)
Lemma put_same : forall p t n, FS.lookup t p = Some n -> FS.put p n t = t.
Proof.
  induction p as [|c p IH]; intros t n H.
  - simpl in H. injection H as ->. reflexivity.
  - destruct t as [f|es]; simpl in H; [discriminate|].
    destruct (FS.assoc c es) as [child|] eqn:A; [|discriminate].
    simpl. f_equal. eapply alter_same; [exact A|]. f_equal. apply IH, H.
Qed.

(** Writing over a regular file leaves every other regular file as it is. *)
Lemma lookup_put_other_file : forall p t f g q h,
  FS.lookup t p = Some (File f) -> FS.lookup t q = Some (File h) -> q <> p ->
  FS.lookup (FS.put p (File g) t) q = Some (File h).
Proof.
  induction p as [|c p IH]; intros t f g q h Hp Hq N.
  - simpl in Hp. injection Hp as ->. destruct q; [congruence|discriminate Hq].
  - destruct t as [f0|es]; simpl in Hp; [discriminate|].
    destruct (FS.assoc c es) as [child|] eqn:A; [|discriminate].
    destruct q as [|d q]; [discriminate Hq|]. simpl in Hq |- *.
    destruct (String.eqb_spec d c) as [->|D].
    + erewrite assoc_alter_same; [|exact A|reflexivity].
      rewrite A in Hq. eapply IH; eauto. congruence.
    + rewrite assoc_alter_other by assumption. exact Hq.
Qed.

Lemma assoc_alter_new f c es x :
  FS.assoc c es = None -> f None = Some x ->
  FS.assoc c (FS.alter f c es) = Some x.
Proof.
  induction es as [|[k u] es IH]; simpl; intros A F.
  - rewrite F. simpl. rewrite String.eqb_refl. reflexivity.
  - destruct (String.eqb_spec k c) as [->|N]; [discriminate|].
    simpl. destruct (String.eqb_spec k c); [contradiction|]. apply IH; assumption.
Qed.

Lemma lookup_dir_entry es c :
  FS.lookup (Dir es) [c] = FS.assoc c es.
Proof. simpl. destruct (FS.assoc c es); reflexivity. Qed.

(** A new entry in an existing directory is found where it was put. *)
Lemma lookup_put_new : forall p t c n es,
  FS.lookup t p = Some (Dir es) -> FS.lookup t (p ++ [c]) = None ->
  FS.lookup (FS.put (p ++ [c]) n t) (p ++ [c]) = Some n.
Proof.
  induction p as [|d p IH]; intros t c n es Hp Hn.
  - simpl in Hp. injection Hp as ->. rewrite app_nil_l in *.
    rewrite lookup_dir_entry in Hn. cbn [FS.put]. rewrite lookup_dir_entry.
    apply assoc_alter_new; [exact Hn|reflexivity].
  - destruct t as [f0|es0]; simpl in Hp; [discriminate|].
    destruct (FS.assoc d es0) as [child|] eqn:A; [|discriminate].
    simpl in Hn. rewrite A in Hn. simpl.
    erewrite assoc_alter_same; [|exact A|reflexivity].
    eapply IH; eassumption.
Qed.

(** A node without entries: a regular file or an empty directory. *)
Lemma lookup_below_childless n q :
  (exists g, n = File g) \/ n = Dir [] -> q <> [] -> FS.lookup n q = None.
Proof.
  intros [[g ->]| ->] N; destruct q; congruence || reflexivity.
Qed.

(** Away from a new childless entry, every path keeps its kind. *)
Lemma kind_lookup_put_new : forall p t c n es q,
  FS.lookup t p = Some (Dir es) -> FS.lookup t (p ++ [c]) = None ->
  (exists g, n = File g) \/ n = Dir [] ->
  q <> (p ++ [c])%list ->
  kind_of (FS.lookup (FS.put (p ++ [c]) n t) q) = kind_of (FS.lookup t q).
Proof.
  induction p as [|d p IH]; intros t c n es q Hp Hn Cn N.
  - simpl in Hp. injection Hp as ->. rewrite app_nil_l in *.
    rewrite lookup_dir_entry in Hn. destruct q as [|e q]; [reflexivity|].
    cbn [FS.put FS.lookup]. destruct (String.eqb_spec e c) as [->|E].
    + rewrite (assoc_alter_new _ c es n Hn eq_refl), Hn.
      rewrite lookup_below_childless; [reflexivity|exact Cn|congruence].
    + rewrite assoc_alter_other by assumption. reflexivity.
  - destruct t as [f0|es0]; simpl in Hp; [discriminate|].
    destruct (FS.assoc d es0) as [child|] eqn:A; [|discriminate].
    simpl in Hn. rewrite A in Hn.
    destruct q as [|e q]; [reflexivity|].
    cbn [app FS.put FS.lookup]. destruct (String.eqb_spec e d) as [->|E].
    + erewrite assoc_alter_same; [|exact A|reflexivity]. rewrite A.
      eapply IH; eauto. simpl in N. congruence.
    + rewrite assoc_alter_other by assumption. reflexivity.
Qed.

(** A new entry leaves every regular file as it is. *)
Lemma file_lookup_put_new : forall p t c n es q h,
  FS.lookup t p = Some (Dir es) -> FS.lookup t (p ++ [c]) = None ->
  FS.lookup t q = Some (File h) ->
  FS.lookup (FS.put (p ++ [c]) n t) q = Some (File h).
Proof.
  induction p as [|d p IH]; intros t c n es q h Hp Hn Hq.
  - simpl in Hp. injection Hp as ->. rewrite app_nil_l in *.
    rewrite lookup_dir_entry in Hn. destruct q as [|e q]; [discriminate Hq|].
    cbn [FS.put FS.lookup] in *. destruct (String.eqb_spec e c) as [->|E].
    + rewrite Hn in Hq. discriminate.
    + rewrite assoc_alter_other by assumption. exact Hq.
  - destruct t as [f0|es0]; simpl in Hp; [discriminate|].
    destruct (FS.assoc d es0) as [child|] eqn:A; [|discriminate].
    simpl in Hn. rewrite A in Hn.
    destruct q as [|e q]; [discriminate Hq|].
    cbn [app FS.put FS.lookup] in *. destruct (String.eqb_spec e d) as [->|E].
    + erewrite assoc_alter_same; [|exact A|reflexivity]. rewrite A in Hq.
      eapply IH; eauto.
    + rewrite assoc_alter_other by assumption. exact Hq.
Qed.

(** Path resolution only asks which paths are directories. *)
Lemma locate_kinds t t' :
  (forall q, kind_of (FS.lookup t q) = KDir -> kind_of (FS.lookup t' q) = KDir) ->
  forall comps cur loc,
    FS.locate t cur comps = inr loc -> FS.locate t' cur comps = inr loc.
Proof.
  intros K. induction comps as [|c rest IH]; intros cur loc H; [exact H|].
  rewrite locate_cons in *.
  destruct (FS.lookup t cur) as [[?|es]|] eqn:L; try discriminate.
  assert (kind_of (FS.lookup t' cur) = KDir) as K'
      by (apply K; rewrite L; reflexivity).
  destruct (FS.lookup t' cur) as [[?|es']|]; try discriminate.
  destruct (FS.trivial c); [apply IH, H|].
  destruct (c =? "..")%string; apply IH, H.
Qed.

(** A path that leads nowhere yet names a new entry of an existing
    directory. *)
Lemma locate_missing_target t : forall comps cur loc,
  comps <> [] -> FS.locate t cur comps = inr loc -> FS.lookup t loc = None ->
  exists p c es, loc = (p ++ [c])%list /\ FS.lookup t p = Some (Dir es).
Proof.
  induction comps as [|c rest IH]; intros cur loc N H M; [congruence|].
  rewrite locate_cons in H.
  destruct (FS.lookup t cur) as [[?|es]|] eqn:L; try discriminate.
  destruct rest as [|c' rest].
  - destruct (FS.trivial c).
    { simpl in H. injection H as <-. congruence. }
    destruct (c =? "..")%string.
    { simpl in H. injection H as <-.
      destruct (lookup_removelast _ _ _ L) as [es' L']. congruence. }
    simpl in H. injection H as <-. eauto.
  - destruct (FS.trivial c); [eapply IH; eauto; discriminate|].
    destruct (c =? "..")%string; eapply IH; eauto; discriminate.
Qed.

End Writes.

(** ** [create_file] and the frame of an edit *)

Section CreateFile.

Lemma create_file_run w path content :
  create_file path content w
  = let file_path := Pathlib.of_string path in
    let w1 := called (SysMkdir (Pathlib.to_string (Pathlib.parent file_path))) w in
    match FS.makedirs (fs w)
            (if Pathlib.absolute (Pathlib.parent file_path) then [] else cwd w)
            (Pathlib.parts (Pathlib.parent file_path)) with
    | inl e => (Raise e, w1)
    | inr t1 =>
        let w2 := called (SysOpenWrite (Pathlib.to_string file_path)) (with_fs t1 w1) in
        match FS.write_bytes t1 (cwd w) (Pathlib.to_string file_path)
                (Text.encode content) with
        | inl e => (Raise e, w2)
        | inr t2 =>
            (Return tt,
             printed (MsgCreated (Pathlib.to_string file_path)) (with_fs t2 w2))
        end
    end.
Proof.
  unfold create_file, mkdir_parents, open_write_text, console_print, sys, set_fs,
    get_world, lift, bind, ret, raise.
  cbn [fs cwd called with_fs].
  destruct (FS.makedirs _ _ _) as [e|t1]; [reflexivity|].
  cbn [fs cwd called with_fs].
  destruct (FS.write_bytes _ _ _ _) as [e|t2]; reflexivity.
Qed.

Lemma filter_all {A} (f : A -> bool) l :
  Forall (fun a => f a = true) l -> filter f l = l.
Proof.
  induction 1 as [|a l Ha _ IH]; [reflexivity|]. simpl. rewrite Ha, IH. reflexivity.
Qed.

(** The string of a path object builds the same path object. *)
Lemma of_string_to_string s :
  Pathlib.of_string (Pathlib.to_string (Pathlib.of_string s)) = Pathlib.of_string s.
Proof.
  pose proof (split_no_sep s) as NS.
  unfold Pathlib.of_string at 2 3.
  set (parts := filter (fun c => negb (FS.trivial c)) (Py.split OsPath.sep s)).
  assert (Forall (fun c => negb (FS.trivial c) = true) parts) as NT.
  { apply Forall_forall. intros c Hc. apply filter_In in Hc. apply Hc. }
  assert (Forall (fun c => has_sep c = false) parts) as NS'.
  { apply Forall_forall. intros c Hc. apply filter_In in Hc.
    destruct Hc as [Hc _]. revert c Hc. apply Forall_forall, NS. }
  unfold Py.startswith. destruct (String.prefix "/" s).
  - change (Pathlib.to_string (Pathlib.mkPath true parts))
      with (String OsPath.sep (Py.join "/" parts)).
    unfold Pathlib.of_string, Py.startswith.
    change (Py.split OsPath.sep (String OsPath.sep (Py.join "/" parts)))
      with ("" :: Py.split OsPath.sep (Py.join "/" parts)).
    cbn [String.prefix]. simpl ascii_dec. cbv iota. rewrite prefix_nil.
    cbn [filter]. change (negb (FS.trivial "")) with false. cbv iota.
    f_equal. destruct parts as [|p0 ps] eqn:E; [reflexivity|].
    rewrite split_join by (assumption || discriminate).
    apply filter_all, NT.
  - destruct parts as [|p0 ps] eqn:E; [reflexivity|].
    change (Pathlib.to_string (Pathlib.mkPath false (p0 :: ps)))
      with (Py.join "/" (p0 :: ps)).
    unfold Pathlib.of_string, Py.startswith.
    rewrite split_join by (assumption || discriminate).
    rewrite (filter_all _ _ NT). f_equal.
    inversion NT as [|? ? T0 _]; subst. inversion NS' as [|? ? S0 _]; subst.
    destruct p0 as [|a p0]; [discriminate T0|].
    destruct (join_head a p0 ps) as [r ->].
    simpl in S0. apply orb_false_iff in S0. destruct S0 as [Sa _].
    cbn [String.prefix]. destruct (ascii_dec "/" a) as [<-|]; [discriminate Sa|].
    reflexivity.
Qed.

Lemma create_file_of_string a b content :
  Pathlib.of_string a = Pathlib.of_string b ->
  create_file a content = create_file b content.
Proof. intros E. unfold create_file. rewrite E. reflexivity. Qed.

(** After a write the path leads to a regular file with the bytes
    written. *)
Lemma write_bytes_result t cwd path bytes t' :
  FS.write_bytes t cwd path bytes = inr t' ->
  exists loc r,
    FS.resolve t cwd path = inr loc /\
    FS.resolve t' cwd path = inr loc /\
    FS.lookup t' loc = Some (File (mkFile bytes r)) /\
    (forall q h, q <> loc -> FS.lookup t q = Some (File h) ->
                 FS.lookup t' q = Some (File h)).
Proof.
  unfold FS.write_bytes, FS.resolve.
  destruct (path =? "")%string; [discriminate|].
  destruct (FS.locate t (FS.start cwd path) (Py.split OsPath.sep path))
    as [e|loc] eqn:L; [discriminate|].
  destruct (FS.lookup t loc) as [[f|es]|] eqn:K; intros H; try discriminate;
    injection H as <-.
  - exists loc, (readable f). split; [reflexivity|]. split; [|split].
    + rewrite (locate_put loc t f _ K). exact L.
    + apply lookup_put_same. congruence.
    + intros q h N Hq. eapply lookup_put_other_file; eassumption.
  - destruct (locate_missing_target t _ _ _ (split_nonempty path) L K)
      as (p & c & es & -> & D).
    exists (p ++ [c])%list, true. split; [reflexivity|]. split; [|split].
    + eapply locate_kinds; [|exact L]. intros q Kq.
      destruct (list_string_dec q (p ++ [c])%list) as [->|N].
      * rewrite K in Kq. discriminate.
      * rewrite (kind_lookup_put_new p t c _ es q D K); [exact Kq| |exact N].
        left. eauto.
    + eapply lookup_put_new; eassumption.
    + intros q h _ Hq. eapply file_lookup_put_new; eassumption.
Qed.

(** X6.  [create_file] is idempotent on the file system: whenever it
    returns normally, running it again with the same path and content
    returns normally too and leaves the file system as the first run
    left it. *)
Theorem create_file_twice_is_create_file_once
    (w : world) (path content : string) :
  fst (create_file path content w) = Return tt ->
  let w1 := snd (create_file path content w) in
  fst (create_file path content w1) = Return tt /\
  fs (snd (create_file path content w1)) = fs w1.
Proof.
  intros H w1. subst w1.
  remember (create_file path content w) as first eqn:E.
  rewrite create_file_run in E. cbv zeta in E.
  destruct (FS.makedirs _ _ _) as [e|t1]; [subst first; discriminate|].
  destruct (FS.write_bytes _ _ _ _) as [e|t2] eqn:W; [subst first; discriminate|].
  destruct (write_bytes_result _ _ _ _ _ W) as (loc & r & _ & R2 & L2 & _).
  set (npath := Pathlib.to_string (Pathlib.of_string path)) in *.
  destruct first as [o w2]. injection E as _ E. cbn [snd]. clear H.
  assert (fs w2 = t2 /\ cwd w2 = cwd w) as [Ef Ec] by (subst w2; split; reflexivity).
  clear E. rewrite <- Ef, <- Ec in R2. rewrite <- Ef in L2.
  rewrite <- (create_file_of_string npath path content) by apply of_string_to_string.
  rewrite (create_file_existing w2 npath content loc (mkFile (Text.encode content) r));
    [|exact R2|exact L2].
  split; [reflexivity|]. unfold rewritten. cbn [fs snd readable].
  apply put_same. exact L2.
Qed.

Lemma create_file_twice_is_create_file_once_witness :
  let w1 := snd (create_file "src/util/new.txt" "fresh" Samples.notes) in
  fst (create_file "src/util/new.txt" "fresh" Samples.notes) = Return tt /\
  fst (create_file "src/util/new.txt" "fresh" w1) = Return tt /\
  fs (snd (create_file "src/util/new.txt" "fresh" w1)) = fs w1.
Proof.
  intros w1. split; [reflexivity|].
  exact (create_file_twice_is_create_file_once Samples.notes
           "src/util/new.txt" "fresh" eq_refl).
Defined.

(** X7.  An edit that is applied changes the one file it names: every
    other path reads afterwards as it read before, be it a file, a
    directory or nothing. *)
Theorem edit_leaves_other_paths_alone
    (w : world) (path original_snippet new_snippet other : string)
    (loc loc' : list string) (f : file) (text : string) :
  FS.resolve (fs w) (cwd w) path = inr loc ->
  FS.lookup (fs w) loc = Some (File f) ->
  readable f = true -> Text.decode (data f) = Some text ->
  FS.resolve (fs w) (cwd w) other = inr loc' -> loc' <> loc ->
  let w' := snd (apply_diff_edit path original_snippet new_snippet w) in
  FS.read_bytes (fs w') (cwd w') other = FS.read_bytes (fs w) (cwd w) other.
Proof.
  intros R L A D R' N w'. subst w'.
  rewrite (apply_diff_edit_text w path _ _ loc f text) by assumption.
  cbn [snd]. unfold printed, rewritten, called. cbn [fs cwd].
  unfold FS.read_bytes, FS.resolve in *.
  destruct (other =? "")%string; [reflexivity|].
  rewrite (locate_put loc (fs w) f _ L), R'.
  pose proof (kind_lookup_put loc (fs w) f
                (mkFile (Text.encode (Py.replace1 original_snippet new_snippet text))
                        (readable f)) loc' L) as K.
  destruct (FS.lookup (fs w) loc') as [[h|es]|] eqn:L'.
  - erewrite lookup_put_other_file; eauto.
  - destruct (FS.lookup (FS.put _ _ _) loc') as [[?|?]|]; try discriminate K.
    reflexivity.
  - destruct (FS.lookup (FS.put _ _ _) loc') as [[?|?]|]; try discriminate K.
    reflexivity.
Qed.

Lemma edit_leaves_other_paths_alone_witness :
  let w' := snd (apply_diff_edit "readme.txt" "ok" "fine" Samples.locked) in
  FS.read_bytes (fs w') (cwd w') "readme.txt" = inr "fine" /\
  FS.read_bytes (fs w') (cwd w') "../secret.txt"
  = FS.read_bytes (fs Samples.locked) (cwd Samples.locked) "../secret.txt".
Proof.
  intros w'. split; [reflexivity|].
  apply (edit_leaves_other_paths_alone Samples.locked "readme.txt" "ok" "fine"
           "../secret.txt" ["home"; "dev"; "project"; "readme.txt"]
           ["home"; "dev"; "secret.txt"] (mkFile "ok" true) "ok");
    reflexivity || discriminate.
Defined.

End CreateFile.

(** ** Failures of [/add] *)

Section AddFailures.

(** X8.  [add_file_to_conversation] fails soft: whatever the read of
    the file fails with (no such file, a directory, no permission, a
    regular file used as a directory), the error is printed, the call
    returns normally and the conversation is as it was. *)
Theorem add_file_read_error_is_reported
    (w : world) (file_path : string) (e : exn) :
  FS.read_bytes (fs w) (cwd w) file_path = inl e ->
  add_file_to_conversation file_path w
  = (Return tt,
     printed (MsgCouldNotAddFile file_path e) (called (SysOpenRead file_path) w)).
Proof.
  intros R. destruct (read_bytes_error _ _ _ _ R) as [O _].
  unfold add_file_to_conversation. erewrite try_Raise.
  2:{ eapply bind_Raise. apply read_local_file_error, R. }
  rewrite O. reflexivity.
Qed.

Lemma add_file_read_error_is_reported_witness :
  add_file_to_conversation "locked.txt" Samples.locked
  = (Return tt,
     mkWorld (fs Samples.locked) (cwd Samples.locked) []
       [MsgCouldNotAddFile "locked.txt" PermissionError]
       [SysOpenRead "locked.txt"]) /\
  add_file_to_conversation "readme.txt/x" Samples.locked
  = (Return tt,
     mkWorld (fs Samples.locked) (cwd Samples.locked) []
       [MsgCouldNotAddFile "readme.txt/x" NotADirectoryError]
       [SysOpenRead "readme.txt/x"]).
Proof.
  split.
  - exact (add_file_read_error_is_reported Samples.locked "locked.txt"
             PermissionError eq_refl).
  - exact (add_file_read_error_is_reported Samples.locked "readme.txt/x"
             NotADirectoryError eq_refl).
Defined.

(** X9.  [/add] of a single file that is not UTF-8: the decoding error
    is no [OSError], so it passes the handler of
    [add_file_to_conversation] and is reported by the handler of the
    command, with the path as the user typed it; nothing is appended
    to the conversation. *)
Theorem add_path_undecodable_file_is_reported
    (w : world) (path_to_add normalized_path bytes : string) :
  normalize_path path_to_add w = (Return normalized_path, w) ->
  FS.isdir (fs w) (cwd w) normalized_path = false ->
  FS.read_bytes (fs w) (cwd w) normalized_path = inr bytes ->
  Text.decode bytes = None ->
  add_path path_to_add w
  = (Return tt,
     printed (MsgCouldNotAddPath path_to_add UnicodeDecodeError)
       (called (SysOpenRead normalized_path)
          (called (SysStat normalized_path) w))).
Proof.
  intros N D R T.
  assert (add_file_to_conversation normalized_path (called (SysStat normalized_path) w)
          = (Raise UnicodeDecodeError,
             called (SysOpenRead normalized_path)
               (called (SysStat normalized_path) w))) as A.
  { unfold add_file_to_conversation. erewrite try_Raise.
    2:{ eapply bind_Raise.
        apply (read_local_file_undecodable (called (SysStat normalized_path) w)
                 normalized_path bytes R T). }
    reflexivity. }
  unfold add_path. erewrite try_Raise.
  2:{ rewrite (bind_Return _ _ _ _ _ N).
      rewrite (bind_Return _ _ _ _ _ (isdir_run _ _)), D. exact A. }
  reflexivity.
Qed.

Lemma add_path_undecodable_file_is_reported_witness :
  let normalized_path := "/home/dev/project/docs/legacy.txt" in
  add_path "docs/legacy.txt" Samples.legacy
  = (Return tt,
     mkWorld (fs Samples.legacy) (cwd Samples.legacy) []
       [MsgCouldNotAddPath "docs/legacy.txt" UnicodeDecodeError]
       [SysStat normalized_path; SysOpenRead normalized_path]).
Proof.
  intros normalized_path.
  exact (add_path_undecodable_file_is_reported Samples.legacy "docs/legacy.txt"
           normalized_path Samples.latin1_bytes eq_refl eq_refl eq_refl eq_refl).
Defined.

Lemma read_only_refl w : read_only w w.
Proof. repeat split. apply grows_refl. Qed.

Lemma read_only_trans w1 w2 w3 :
  read_only w1 w2 -> read_only w2 w3 -> read_only w1 w3.
Proof.
  intros (F1 & C1 & H1) (F2 & C2 & H2). repeat split; try congruence.
  eapply grows_trans; eassumption.
Qed.

Lemma read_only_printed w m : read_only w (printed m w).
Proof. repeat split. apply grows_refl. Qed.

Lemma read_only_called w c : read_only w (called c w).
Proof. repeat split. apply grows_refl. Qed.

Lemma footprint_read_only P w w' : footprint P w w' -> read_only w w'.
Proof.
  intros (F & C & _ & H). repeat split; try assumption.
  eapply grows_mono; [|exact H]. cbv beta. intros e (p & text & _ & ->).
  reflexivity.
Qed.

(** The report prints and does nothing else. *)
Lemma report_run directory_path st w :
  exists w', report directory_path st w = (Return tt, w') /\ read_only w w'.
Proof.
  unfold report, bind, console_print, ret.
  destruct (added_files st); destruct (skipped_files st);
    (eexists; split; [reflexivity|]);
    repeat (eapply read_only_trans; [|apply read_only_printed]);
    apply read_only_refl.
Qed.

Lemma scan_directory_read_only directory_path w :
  read_only w (snd (scan_directory directory_path w)).
Proof.
  unfold scan_directory, os_walk_top, bind at 1, bind at 1, get_world.
  destruct (FS.resolve (fs w) (cwd w) directory_path) as [e|loc];
    cbn [ret]; [apply read_only_refl|].
  destruct (FS.lookup (fs w) loc) as [n|]; [|apply read_only_refl].
  pose proof (proj1 (walk_confined n directory_path (mkWalk [] [] 0) w)) as F.
  apply footprint_read_only in F. unfold bind.
  destruct (walk directory_path n (mkWalk [] [] 0) w) as [[r|e] w1]; exact F.
Qed.

Lemma add_directory_read_only directory_path w :
  read_only w (snd (add_directory_to_conversation directory_path w)).
Proof.
  pose proof (scan_directory_read_only directory_path w) as S.
  unfold add_directory_to_conversation, bind.
  destruct (scan_directory directory_path w) as [[st|e] w1]; [|exact S].
  destruct (report_run directory_path st w1) as (w2 & -> & R).
  eapply read_only_trans; eassumption.
Qed.

(** X10.  The command [/add] never writes: whatever the path and
    whatever the state of the disk, and whether the command ends
    normally, with a reported error or with an exception that its
    handler does not take, no file or directory has changed and the
    conversation has only got system entries at its end. *)
Theorem add_path_writes_nothing (w : world) (path_to_add : string) :
  read_only w (snd (add_path path_to_add w)).
Proof.
  unfold add_path, try_except.
  set (body := bind _ _ w).
  assert (read_only w (snd body)) as R.
  { subst body. unfold bind at 1, normalize_path, bind at 1, get_world.
    destruct (Py.mem ".." _); [apply read_only_refl|]. cbn [ret].
    rewrite (bind_Return _ _ _ _ _ (isdir_run _ _)).
    eapply read_only_trans; [apply read_only_called|].
    destruct (FS.isdir _ _ _).
    - apply add_directory_read_only.
    - eapply footprint_read_only, add_file_footprint. }
  destruct body as [[[]|e] w1]; cbn [fst snd] in *; [exact R|].
  destruct (isinstance_OSError e || isinstance_ValueError e); [|exact R].
  unfold console_print. cbn [snd].
  eapply read_only_trans; [exact R|apply read_only_printed].
Qed.

End AddFailures.

(** ** The filters of the directory walk *)

Section Filters.

Lemma stat_size_of_read t cwd path bytes size :
  FS.read_bytes t cwd path = inr bytes -> FS.stat_size t cwd path = inr size ->
  size = Py.len bytes.
Proof.
  unfold FS.read_bytes, FS.stat_size.
  destruct (FS.resolve t cwd path) as [e|loc]; [discriminate|].
  destruct (FS.lookup t loc) as [[f|es]|]; try discriminate.
  destruct (readable f); [|discriminate]. congruence.
Qed.

(** The ways one file of the loop ends normally: it is skipped and the
    conversation is as it was, or it went through every test and its
    text was appended. *)
Lemma visit_file_cases root file st w st' w' :
  visit_file root file st w = (Return st', w') ->
  let full_path := OsPath.join root file in
  fs w' = fs w /\ cwd w' = cwd w /\
  ((exists item, st' = skip st item /\
                 conversation_history w' = conversation_history w) \/
   (st' = add st full_path /\
    excluded_name file = false /\
    Py.mem (Py.lower (snd (OsPath.splitext file))) EXCLUDED_EXTENSIONS = false /\
    exists bytes text,
      FS.read_bytes (fs w) (cwd w) full_path = inr bytes /\
      Py.len bytes <= MAX_FILE_SIZE /\
      has_nul (Py.take 1024 bytes) = false /\
      Text.decode bytes = Some text /\
      conversation_history w'
      = (conversation_history w
           ++ [mkEntry system (file_header full_path ++ text)])%list)).
Proof.
  remember (visit_file root file st w) as r eqn:E. unfold visit_file in E.
  intros H full_path.
  destruct (excluded_name file) eqn:X.
  { subst r. injection H as <- <-. repeat split. left. eauto. }
  destruct (Py.mem _ EXCLUDED_EXTENSIONS) eqn:Y.
  { subst r. injection H as <- <-. repeat split. left. eauto. }
  fold full_path in E.
  unfold try_except, bind at 1 in E. rewrite getsize_run in E.
  destruct (FS.stat_size (fs w) (cwd w) full_path) as [e|size] eqn:S.
  { destruct (isinstance_OSError e); subst r; [|discriminate H].
    injection H as <- <-. repeat split. left. eauto. }
  destruct (Z.gtb_spec size MAX_FILE_SIZE) as [G|G].
  { subst r. injection H as <- <-. repeat split. left. eauto. }
  unfold bind at 1 in E. rewrite is_binary_file_run in E. cbn [fs cwd called] in E.
  destruct (FS.read_bytes (fs w) (cwd w) full_path) as [e|bytes] eqn:R.
  { subst r. injection H as <- <-. repeat split. left. eauto. }
  destruct (has_nul (Py.take 1024 bytes)) eqn:B.
  { subst r. injection H as <- <-. repeat split. left. eauto. }
  unfold bind at 1, add_file_to_conversation, try_except, bind at 1 in E.
  rewrite read_local_file_run in E. cbn [fs cwd called] in E. rewrite R in E.
  destruct (Text.decode bytes) as [text|] eqn:D.
  - subst r. injection H as <- <-. repeat split. right.
    split; [reflexivity|]. split; [reflexivity|]. split; [reflexivity|].
    exists bytes, text. split; [reflexivity|].
    split; [rewrite <- (stat_size_of_read _ _ _ _ _ R S); exact G|].
    repeat split; assumption.
  - subst r. discriminate H.
Qed.

(** X11.  A file that the walk records as added has passed every
    filter: its name is neither hidden nor denylisted, its extension
    is not excluded, it has at most [MAX_FILE_SIZE] bytes, no NUL among
    the first 1024, and its bytes are UTF-8; its entry, the header with
    the joined path and the decoded text, is the one appended to the
    conversation. *)
Theorem added_file_passed_every_filter
    (root file : string) (st st' : walk_state) (w : world) :
  fst (visit_file root file st w) = Return st' ->
  added_files st' <> added_files st ->
  let full_path := OsPath.join root file in
  let w' := snd (visit_file root file st w) in
  st' = add st full_path /\
  excluded_name file = false /\
  Py.mem (Py.lower (snd (OsPath.splitext file))) EXCLUDED_EXTENSIONS = false /\
  exists bytes text,
    FS.read_bytes (fs w) (cwd w) full_path = inr bytes /\
    Py.len bytes <= MAX_FILE_SIZE /\
    has_nul (Py.take 1024 bytes) = false /\
    Text.decode bytes = Some text /\
    conversation_history w'
    = (conversation_history w
         ++ [mkEntry system (file_header full_path ++ text)])%list.
Proof.
  intros H N full_path w'. subst w'.
  destruct (visit_file root file st w) as [o w1] eqn:V. cbn [fst snd] in *.
  subst o. destruct (visit_file_cases _ _ _ _ _ _ V) as (_ & _ & [C|C]).
  - destruct C as (item & -> & _). contradiction N. reflexivity.
  - exact C.
Qed.

Lemma added_file_passed_every_filter_witness :
  let st := mkWalk [] [] 0 in
  let r := visit_file "/home/dev/project" "notes.txt" st Samples.notes in
  fst r = Return (add st "/home/dev/project/notes.txt") /\
  exists bytes text,
    FS.read_bytes (fs Samples.notes) (cwd Samples.notes)
      "/home/dev/project/notes.txt" = inr bytes /\
    Py.len bytes <= MAX_FILE_SIZE /\
    has_nul (Py.take 1024 bytes) = false /\
    Text.decode bytes = Some text /\
    conversation_history (snd r)
    = [mkEntry system (file_header "/home/dev/project/notes.txt" ++ text)].
Proof.
  intros st r. split; [reflexivity|].
  refine (proj2 (proj2 (proj2
    (added_file_passed_every_filter "/home/dev/project" "notes.txt" st
       (add st "/home/dev/project/notes.txt") Samples.notes eq_refl _)))).
  discriminate.
Defined.

Lemma take_app_length head : forall tail,
  Py.take (String.length head) (head ++ tail) = head.
Proof.
  induction head as [|c head IH]; intros tail.
  - destruct tail; reflexivity.
  - simpl. rewrite IH. reflexivity.
Qed.

(** X12.  The binary test looks at the first 1024 bytes only: for a
    file of more than 1024 bytes the answer is whether those hold a
    NUL, whatever comes after them. *)
Theorem is_binary_file_sees_the_first_1024_bytes
    (w : world) (file_path head tail : string) :
  FS.read_bytes (fs w) (cwd w) file_path = inr (head ++ tail) ->
  String.length head = 1024%nat ->
  is_binary_file file_path w
  = (Return (has_nul head), called (SysOpenReadBinary file_path) w).
Proof.
  intros R L. rewrite is_binary_file_run, R, <- L, take_app_length. reflexivity.
Qed.

Lemma is_binary_file_sees_the_first_1024_bytes_witness :
  has_nul Samples.late_nul_bytes = true /\
  is_binary_file "data.txt" Samples.late_nul
  = (Return false, called (SysOpenReadBinary "data.txt") Samples.late_nul).
Proof.
  split; [reflexivity|].
  exact (is_binary_file_sees_the_first_1024_bytes Samples.late_nul "data.txt"
           (Samples.filled 1024) (String NUL "end") eq_refl eq_refl).
Defined.

(** X13.  A file that the binary test rejects, because the first 1024
    bytes hold a NUL or because it cannot be opened, is skipped after
    the size test and the binary test: it is never opened as text and
    nothing is printed or appended. *)
Theorem binary_file_is_skipped_unread
    (root file : string) (st : walk_state) (w : world) (size : Z) :
  excluded_name file = false ->
  Py.mem (Py.lower (snd (OsPath.splitext file))) EXCLUDED_EXTENSIONS = false ->
  let full_path := OsPath.join root file in
  FS.stat_size (fs w) (cwd w) full_path = inr size ->
  size <= MAX_FILE_SIZE ->
  (forall bytes, FS.read_bytes (fs w) (cwd w) full_path = inr bytes ->
                 has_nul (Py.take 1024 bytes) = true) ->
  visit_file root file st w
  = (Return (skip st full_path),
     called (SysOpenReadBinary full_path) (called (SysStat full_path) w)).
Proof.
  intros X Y full_path S G B. unfold visit_file. rewrite X, Y. fold full_path.
  unfold try_except, bind at 1. rewrite getsize_run, S.
  destruct (Z.gtb_spec size MAX_FILE_SIZE) as [L|_]; [lia|].
  unfold bind at 1. rewrite is_binary_file_run. cbn [fs cwd called].
  destruct (FS.read_bytes (fs w) (cwd w) full_path) as [e|bytes] eqn:R.
  - reflexivity.
  - rewrite (B bytes eq_refl). reflexivity.
Qed.

Lemma binary_file_is_skipped_unread_witness :
  let full_path := "/home/dev/project/data.txt" in
  visit_file "/home/dev/project" "data.txt" (mkWalk [] [] 0) Samples.blob
  = (Return (mkWalk [full_path] [] 0),
     mkWorld (fs Samples.blob) (cwd Samples.blob) [] []
       [SysStat full_path; SysOpenReadBinary full_path]).
Proof.
  intros full_path.
  apply (binary_file_is_skipped_unread "/home/dev/project" "data.txt"
           (mkWalk [] [] 0) Samples.blob 6 eq_refl eq_refl eq_refl).
  - discriminate.
  - intros bytes R. injection R as <-. reflexivity.
Defined.

End Filters.

(** ** What holds along the whole walk *)

Section WalkInvariant.

Variable I : walk_state -> world -> Prop.

Hypothesis I_called : forall st w c, I st w -> I st (called c w).
Hypothesis I_printed : forall st w m, I st w -> I st (printed m w).
Hypothesis I_visit : forall root file st w st' w',
  I st w -> visit_file root file st w = (Return st', w') -> I st' w'.

Lemma visit_files_invariant root : forall files st w st' w',
  I st w -> visit_files root files st w = (Return st', w') -> I st' w'.
Proof.
  induction files as [|file rest IH]; intros st w st' w' H E.
  - injection E as <- <-. exact H.
  - cbn [visit_files] in E.
    destruct (total_files_processed st >=? MAX_FILES_TO_PROCESS).
    { injection E as <- <-. exact H. }
    destruct (visit_file root file st w) as [[st1|e] w1] eqn:V.
    + rewrite (bind_Return _ _ _ _ _ V) in E.
      eapply IH; [|exact E]. eapply I_visit; eassumption.
    + rewrite (bind_Raise _ _ _ _ _ V) in E. discriminate E.
Qed.

Lemma descend_invariant root : forall es,
  Forall (fun e => forall root st w st' b w',
            I st w -> walk root (snd e) st w = (Return (st', b), w') -> I st' w') es ->
  forall st w st' b w',
    I st w -> descend walk root es st w = (Return (st', b), w') -> I st' w'.
Proof.
  induction es as [|[d child] es IH]; intros C st w st' b w' H E.
  - injection E as <- _ <-. exact H.
  - inversion C as [|? ? Cd Cr]; subst. cbn [snd] in Cd. cbn [descend] in E.
    destruct (is_dir_node child && negb (excluded_name d)); [|eapply IH; eassumption].
    destruct (walk (OsPath.join root d) child st w) as [[[st1 b1]|e] w1] eqn:W.
    + rewrite (bind_Return _ _ _ _ _ W) in E. cbn [fst snd] in E.
      assert (I st1 w1) as H1 by (eapply Cd; eassumption).
      destruct b1.
      * injection E as <- _ <-. exact H1.
      * eapply IH; eassumption.
    + rewrite (bind_Raise _ _ _ _ _ W) in E. discriminate E.
Qed.

(** What every system call, every print and every file of the loop
    preserve holds at the end of a walk that ends normally. *)
Lemma walk_invariant n : forall root st w st' b w',
  I st w -> walk root n st w = (Return (st', b), w') -> I st' w'.
Proof.
  induction n as [f|es IH] using node_tree_ind; intros root st w st' b w' H E.
  - injection E as <- _ <-. exact H.
  - cbn [walk] in E. unfold bind at 1, sys in E.
    destruct (total_files_processed st >=? MAX_FILES_TO_PROCESS).
    { injection E as <- _ <-. apply I_printed, I_called, H. }
    destruct (visit_files root (file_names es) st (called (SysScandir root) w))
      as [[st1|e] w1] eqn:V.
    + rewrite (bind_Return _ _ _ _ _ V) in E.
      eapply descend_invariant; [exact IH| |exact E].
      eapply visit_files_invariant; [|exact V]. apply I_called, H.
    + rewrite (bind_Raise _ _ _ _ _ V) in E. discriminate E.
Qed.

End WalkInvariant.

Section Listing.

Lemma in_step_refl w st : in_step w st st w.
Proof.
  split; [reflexivity|]. split; [reflexivity|]. exists [], [].
  rewrite !app_nil_r. repeat split. constructor.
Qed.

Lemma in_step_same w0 st0 st w w' :
  fs w' = fs w -> cwd w' = cwd w ->
  conversation_history w' = conversation_history w ->
  in_step w0 st0 st w -> in_step w0 st0 st w'.
Proof.
  intros F C H (F0 & C0 & paths & entries & A & E & S).
  split; [congruence|]. split; [congruence|].
  exists paths, entries. split; [exact A|]. split; [congruence|exact S].
Qed.

Lemma in_step_visit w0 st0 root file st w st' w' :
  in_step w0 st0 st w -> visit_file root file st w = (Return st', w') ->
  in_step w0 st0 st' w'.
Proof.
  intros (F0 & C0 & paths & entries & A & E & S) V.
  destruct (visit_file_cases _ _ _ _ _ _ V) as (F & C & [K|K]).
  - destruct K as (item & -> & H).
    split; [congruence|]. split; [congruence|].
    exists paths, entries. split; [exact A|]. split; [congruence|exact S].
  - destruct K as (-> & _ & _ & bytes & text & R & _ & _ & D & H).
    split; [congruence|]. split; [congruence|].
    exists (paths ++ [OsPath.join root file])%list,
           (entries ++ [mkEntry system
                          (file_header (OsPath.join root file) ++ text)])%list.
    split; [cbn [add added_files]; rewrite A, app_assoc; reflexivity|].
    split; [rewrite H, E, app_assoc; reflexivity|].
    apply Forall2_app; [exact S|]. constructor; [|constructor].
    exists bytes, text. rewrite <- F0, <- C0. auto.
Qed.

(** X14.  After a directory ingestion that ends normally, the files
    listed as added are, in order, the files whose entries were
    appended to the conversation: one entry for each, the header with
    the listed path and the text of the file at that path; there are
    at most 1000 of them. *)
Theorem listed_files_are_the_appended_entries
    (directory_path : string) (w : world) (st : walk_state) :
  fst (scan_directory directory_path w) = Return st ->
  let w' := snd (scan_directory directory_path w) in
  exists entries,
    conversation_history w' = (conversation_history w ++ entries)%list /\
    Forall2 (entry_of w) (added_files st) entries /\
    (List.length entries <= 1000)%nat.
Proof.
  intros H w'. subst w'.
  pose proof (scan_directory_within_limit directory_path w st H) as L.
  assert (in_step w (mkWalk [] [] 0) st (snd (scan_directory directory_path w))) as S.
  { assert (exists o, os_walk_top directory_path w = (Return o, w)) as [o T].
    { unfold os_walk_top, bind, get_world.
      destruct (FS.resolve (fs w) (cwd w) directory_path); eexists; reflexivity. }
    revert H. unfold scan_directory. rewrite (bind_Return _ _ _ _ _ T).
    assert (forall o : option node,
              fst (match o with
                   | Some n => r <- walk directory_path n (mkWalk [] [] 0) ;; ret (fst r)
                   | None => ret (mkWalk [] [] 0)
                   end w) = Return st ->
              in_step w (mkWalk [] [] 0) st
                (snd (match o with
                      | Some n => r <- walk directory_path n (mkWalk [] [] 0) ;; ret (fst r)
                      | None => ret (mkWalk [] [] 0)
                      end w))) as K.
    { intros [n|]; [|intros E; injection E as <-; apply in_step_refl].
      unfold bind.
      destruct (walk directory_path n (mkWalk [] [] 0) w) as [[[st1 b]|e] w1] eqn:W;
        [|discriminate].
      cbn [ret fst snd]. intros E. injection E as <-.
      eapply (walk_invariant (in_step w (mkWalk [] [] 0))); [| | | |exact W].
      - intros st' w' c. apply in_step_same; reflexivity.
      - intros st' w' m. apply in_step_same; reflexivity.
      - intros root file st' w' st'' w''. apply in_step_visit.
      - apply in_step_refl. }
    apply K. }
  destruct S as (_ & _ & paths & entries & A & E & S). cbn [added_files app] in A.
  exists entries. split; [exact E|]. rewrite A. split; [exact S|].
  rewrite <- (Forall2_length S), <- A. lia.
Qed.

Lemma listed_files_are_the_appended_entries_witness :
  let r := scan_directory "/home/dev/project" Samples.checkout in
  exists entries,
    conversation_history (snd r) = entries /\
    Forall2 (entry_of Samples.checkout)
      ["/home/dev/project/main.py"; "/home/dev/project/src/app.py"] entries /\
    (List.length entries <= 1000)%nat.
Proof.
  intros r.
  exact (listed_files_are_the_appended_entries "/home/dev/project" Samples.checkout
           (mkWalk [] ["/home/dev/project/main.py"; "/home/dev/project/src/app.py"] 2)
           eq_refl).
Defined.

End Listing.

(** ** The confirmation of the edits *)

Section Confirmation.

(** X15.  The confirmation covers the edits only.  With any answer
    other than [y], the response is applied as if it had no edits: the
    creations have been written before the question is asked, no file
    of an edit is opened, and the outcome, the files and the system
    calls are those of the same response without its edits. *)
Theorem declined_edits_keep_the_creations
    (w : world) (reply confirm : string)
    (creates : option (list FileToCreate.t)) (edits : list FileToEdit.t) :
  confirm <> "y" ->
  let declined :=
    apply_response (AssistantResponse.make reply creates (Some edits)) confirm w in
  let without :=
    apply_response (AssistantResponse.make reply creates None) confirm w in
  fst declined = fst without /\
  fs (snd declined) = fs (snd without) /\
  syscalls (snd declined) = syscalls (snd without) /\
  conversation_history (snd declined) = conversation_history (snd without).
Proof.
  intros N declined without. subst declined without.
  unfold apply_response. cbn [AssistantResponse.files_to_create
                                AssistantResponse.files_to_edit].
  apply String.eqb_neq in N. rewrite N.
  set (creation := match creates with Some ((_ :: _) as l) => _ | _ => _ end).
  unfold bind. destruct (creation w) as [[[]|e] w1]; [|repeat split].
  destruct edits; repeat split.
Qed.

Lemma declined_edits_keep_the_creations_witness :
  let r := apply_response Samples.create_and_edit "n" Samples.notes in
  fst r = Return tt /\
  FS.read_bytes (fs (snd r)) (cwd (snd r)) "notes.txt" = inr "fresh" /\
  syscalls (snd r) = [SysMkdir "."; SysOpenWrite "notes.txt"] /\
  fs (snd r)
  = fs (snd (apply_response
               (AssistantResponse.make "done"
                  (Some [FileToCreate.make "notes.txt" "fresh"]) None)
               "n" Samples.notes)).
Proof.
  intros r. split; [reflexivity|]. split; [reflexivity|]. split; [reflexivity|].
  refine (proj1 (proj2
    (declined_edits_keep_the_creations Samples.notes "done" "n"
       (Some [FileToCreate.make "notes.txt" "fresh"])
       [FileToEdit.make "notes.txt" "fresh" "edited"] _))).
  discriminate.
Defined.

End Confirmation.

(** ** The extension test *)

Section Extensions.

(** [rfind] answers with the position of the last occurrence. *)
Lemma rfind_from_last c : forall s i last,
  (Py.rfind_from c s i last = last /\ no_char c s) \/
  exists pre rest,
    s = pre ++ String c rest /\ no_char c rest /\
    Py.rfind_from c s i last = i + Z.of_nat (String.length pre).
Proof.
  induction s as [|a s IH]; intros i last; [left; split; [reflexivity|exact Logic.I]|].
  cbn [Py.rfind_from].
  destruct (IH (i + 1) (if Ascii.eqb a c then i else last))
    as [[E N]|(pre & rest & -> & N & E)].
  - destruct (Ascii.eqb_spec a c) as [->|D].
    + right. exists "", s. split; [reflexivity|]. split; [exact N|].
      rewrite E. simpl. lia.
    + left. split; [exact E|]. split; [apply Ascii.eqb_neq, D|exact N].
  - right. exists (String a pre), rest. split; [reflexivity|]. split; [exact N|].
    rewrite E. cbn [String.length]. lia.
Qed.

Lemma drop_app_length pre : forall s, Py.drop (String.length pre) (pre ++ s) = s.
Proof. induction pre as [|a pre IH]; intros s; [reflexivity|apply IH]. Qed.

Lemma dots_no_char s : no_char OsPath.extsep s -> dots s = 0%nat.
Proof.
  induction s as [|a s IH]; [reflexivity|]. intros [E N]. cbn [dots].
  rewrite E, (IH N). reflexivity.
Qed.

(** The extension that [splitext] returns holds at most one dot. *)
Lemma splitext_one_dot p : (dots (snd (OsPath.splitext p)) <= 1)%nat.
Proof.
  unfold OsPath.splitext.
  destruct (Z.gtb_spec (Py.rfind p OsPath.extsep) (Py.rfind p OsPath.sep)) as [G|G];
    [|cbn [snd dots]; lia].
  destruct (OsPath.all_dots _); [cbn [snd dots]; lia|]. cbn [snd].
  unfold Py.rfind in *.
  assert (-1 <= Py.rfind_from OsPath.sep p 0 (-1)) as B.
  { destruct (rfind_from_last OsPath.sep p 0 (-1)) as [[-> _]|(? & ? & _ & _ & ->)]; lia. }
  destruct (rfind_from_last OsPath.extsep p 0 (-1)) as [[E _]|(pre & rest & -> & N & E)];
    [lia|].
  rewrite E, Z.add_0_l, Nat2Z.id, drop_app_length. cbn [dots].
  rewrite (dots_no_char _ N). reflexivity.
Qed.

Lemma lower_char_dot c :
  Ascii.eqb (Py.lower_char c) OsPath.extsep = Ascii.eqb c OsPath.extsep.
Proof. destruct c as [[] [] [] [] [] [] [] []]; reflexivity. Qed.

Lemma dots_lower s : dots (Py.lower s) = dots s.
Proof.
  induction s as [|a s IH]; [reflexivity|]. cbn [Py.lower dots].
  rewrite lower_char_dot, IH. reflexivity.
Qed.

Lemma mem_few_dots x : forall l,
  (dots x <= 1)%nat ->
  Py.mem x l = Py.mem x (filter (fun e => (dots e <=? 1)%nat) l).
Proof.
  intros l D. unfold Py.mem. induction l as [|e l IH]; [reflexivity|].
  cbn [existsb filter]. destruct (Nat.leb_spec (dots e) 1) as [L|L].
  - cbn [existsb]. rewrite IH. reflexivity.
  - rewrite IH. destruct (String.eqb_spec x e) as [->|_]; [lia|reflexivity].
Qed.

(** X16.  The extension test sees the last extension of the name only,
    which holds one dot.  The entries of [EXCLUDED_EXTENSIONS] with two
    dots ([.chunk.js], [.min.js], [.bundle.css] and the like) therefore
    match no file: for every file name the test answers as it would
    with those entries removed from the list. *)
Theorem compound_extensions_are_never_excluded (file : string) :
  let ext := snd (OsPath.splitext file) in
  Py.mem (Py.lower ext) EXCLUDED_EXTENSIONS
  = Py.mem (Py.lower ext)
      (filter (fun e => (dots e <=? 1)%nat) EXCLUDED_EXTENSIONS).
Proof.
  intros ext. apply mem_few_dots. rewrite dots_lower. apply splitext_one_dot.
Qed.

End Extensions.

(** ** The directories of [create_file] *)

Section Parents.

Lemma of_string_parts path :
  Forall (fun c => FS.trivial c = false) (Pathlib.parts (Pathlib.of_string path)) /\
  Forall (fun c => has_sep c = false) (Pathlib.parts (Pathlib.of_string path)).
Proof.
  pose proof (split_no_sep path) as NS. cbn [Pathlib.of_string Pathlib.parts].
  split; apply Forall_forall; intros c Hc; apply filter_In in Hc; destruct Hc as [I T].
  - apply negb_true_iff, T.
  - exact (proj1 (Forall_forall _ _) NS c I).
Qed.

(** The kernel resolves the string of a path object by following the
    parts of the object. *)
Lemma resolve_to_string t cwd path :
  let file_path := Pathlib.of_string path in
  let base := if Pathlib.absolute file_path then [] else cwd in
  Pathlib.parts file_path <> [] ->
  kind_of (FS.lookup t base) = KDir ->
  FS.resolve t cwd (Pathlib.to_string file_path)
  = FS.locate t base (Pathlib.parts file_path).
Proof.
  intros file_path base NE D. subst base.
  destruct (of_string_parts path) as [NT NS]. fold file_path in NT, NS.
  assert (file_path = Pathlib.mkPath (String.prefix "/" path)
                        (Pathlib.parts file_path)) as EO by reflexivity.
  revert NE D NT NS. rewrite EO. generalize (Pathlib.parts file_path) as parts.
  cbn [Pathlib.absolute Pathlib.parts]. intros parts NE D NT NS.
  unfold FS.resolve, FS.start, Py.startswith.
  destruct (String.prefix "/" path).
  - change (Pathlib.to_string (Pathlib.mkPath true parts))
      with (String OsPath.sep (Py.join "/" parts)).
    cbn [String.eqb String.prefix]. simpl ascii_dec. cbv iota.
    rewrite prefix_nil.
    change (Py.split OsPath.sep (String OsPath.sep (Py.join "/" parts)))
      with ("" :: Py.split OsPath.sep (Py.join "/" parts)).
    rewrite split_join by assumption. rewrite locate_cons.
    destruct (FS.lookup t []) as [[?|es]|]; try discriminate D. reflexivity.
  - destruct parts as [|p0 ps]; [congruence|].
    inversion NS as [|? ? S0 _]; subst. inversion NT as [|? ? T0 _]; subst.
    destruct p0 as [|a p0]; [discriminate T0|].
    destruct (join_head a p0 ps) as [r J].
    change (Pathlib.to_string (Pathlib.mkPath false (String a p0 :: ps)))
      with (Py.join "/" (String a p0 :: ps)).
    rewrite split_join by assumption. rewrite J.
    simpl in S0. apply orb_false_iff in S0. destruct S0 as [Sa _].
    cbn [String.eqb String.prefix].
    destruct (ascii_dec "/" a) as [<-|]; [discriminate Sa|]. reflexivity.
Qed.

Lemma mem_cons_false x c rest :
  Py.mem x (c :: rest) = false -> (c =? x)%string = false /\ Py.mem x rest = false.
Proof.
  unfold Py.mem. cbn [existsb]. intros H. apply orb_false_iff in H.
  destruct H as [H1 H2]. rewrite String.eqb_sym. auto.
Qed.

Lemma app_longer (cur : list string) c rest : cur <> (cur ++ c :: rest)%list.
Proof.
  intros E. apply (f_equal (@List.length string)) in E.
  rewrite length_app in E. cbn [List.length] in E. lia.
Qed.

Lemma lookup_app_None : forall p t q,
  FS.lookup t p = None -> FS.lookup t (p ++ q) = None.
Proof.
  induction p as [|c p IH]; intros t q H; [discriminate|].
  destruct t as [f|es]; [reflexivity|]. cbn [app FS.lookup] in *.
  destruct (FS.assoc c es); [apply IH, H|reflexivity].
Qed.

Lemma lookup_app_File : forall p t q f,
  FS.lookup t p = Some (File f) -> q <> [] -> FS.lookup t (p ++ q) = None.
Proof.
  induction p as [|c p IH]; intros t q f H N.
  - injection H as ->. destruct q; [congruence|reflexivity].
  - destruct t as [f0|es]; [reflexivity|]. cbn [app FS.lookup] in *.
    destruct (FS.assoc c es); [eapply IH; eassumption|reflexivity].
Qed.

(** Along names without [..], path resolution appends the names while
    it finds directories. *)
Lemma locate_plain t : forall parts cur,
  Py.mem ".." parts = false ->
  Forall (fun c => FS.trivial c = false) parts ->
  (forall k, (k < List.length parts)%nat ->
             kind_of (FS.lookup t (cur ++ firstn k parts)) = KDir) ->
  FS.locate t cur parts = inr (cur ++ parts)%list.
Proof.
  induction parts as [|c rest IH]; intros cur M T D.
  - rewrite app_nil_r. reflexivity.
  - apply mem_cons_false in M. destruct M as [C M].
    inversion T as [|? ? Tc Tr]; subst. rewrite locate_cons.
    pose proof (D 0%nat ltac:(cbn [List.length]; lia)) as D0.
    cbn [firstn] in D0. rewrite app_nil_r in D0.
    destruct (FS.lookup t cur) as [[?|es]|]; try discriminate D0.
    rewrite Tc, C, (IH (cur ++ [c])%list M Tr), <- app_assoc; [reflexivity|].
    intros k Hk. rewrite <- app_assoc. apply (D (S k)). cbn [List.length]. lia.
Qed.

(** [mkdir(parents=True, exist_ok=True)] along names without [..],
    when no regular file is in the way: the call succeeds, every
    directory on the way exists afterwards, and nothing else has
    changed. *)
Lemma makedirs_plain : forall parts t cur,
  Py.mem ".." parts = false ->
  kind_of (FS.lookup t cur) = KDir ->
  (forall k, (k <= List.length parts)%nat ->
             kind_of (FS.lookup t (cur ++ firstn k parts)) <> KFile) ->
  exists t',
    FS.makedirs t cur parts = inr t' /\
    (forall k, (k <= List.length parts)%nat ->
               kind_of (FS.lookup t' (cur ++ firstn k parts)) = KDir) /\
    (forall q, (forall k, (k <= List.length parts)%nat ->
                          q <> (cur ++ firstn k parts)%list) ->
               kind_of (FS.lookup t' q) = kind_of (FS.lookup t q)) /\
    (forall q h, FS.lookup t q = Some (File h) -> FS.lookup t' q = Some (File h)).
Proof.
  induction parts as [|c rest IH]; intros t cur M D NF.
  - exists t. cbn [FS.makedirs].
    destruct (FS.lookup t cur) as [[?|es]|] eqn:L; try discriminate D.
    split; [reflexivity|]. split; [|split; auto].
    intros k _. rewrite firstn_nil, app_nil_r, L. reflexivity.
  - apply mem_cons_false in M. destruct M as [C M].
    set (next := (cur ++ [c])%list).
    assert (forall x, (cur ++ c :: x = next ++ x)%list) as EN
        by (intros x; unfold next; rewrite <- app_assoc; reflexivity).
    assert (exists t1,
              FS.makedirs t cur (c :: rest) = FS.makedirs t1 next rest /\
              kind_of (FS.lookup t1 next) = KDir /\
              (forall q, q <> next ->
                         kind_of (FS.lookup t1 q) = kind_of (FS.lookup t q)) /\
              (forall q h, FS.lookup t q = Some (File h) ->
                           FS.lookup t1 q = Some (File h))) as (t1 & E1 & D1 & K1 & F1).
    { cbn [FS.makedirs]. fold next.
      destruct (FS.lookup t cur) as [[?|es]|] eqn:L; try discriminate D.
      rewrite C.
      pose proof (NF 1%nat ltac:(cbn [List.length]; lia)) as N1.
      cbn [firstn] in N1. fold next in N1.
      destruct (FS.lookup t next) as [[?|es1]|] eqn:L1.
      - contradiction N1. reflexivity.
      - exists t. split; [reflexivity|]. split; [rewrite L1; reflexivity|].
        split; auto.
      - exists (FS.put next (Dir []) t). split; [reflexivity|]. split; [|split].
        + unfold next. erewrite lookup_put_new; eauto.
        + intros q Nq. unfold next. eapply kind_lookup_put_new; eauto.
        + intros q h Hq. unfold next. eapply file_lookup_put_new; eauto. }
    destruct (IH t1 next M D1) as (t' & E' & A' & B' & C').
    { intros k Hk. destruct (list_string_dec (next ++ firstn k rest)%list next) as [->|Nq].
      - rewrite D1. discriminate.
      - rewrite (K1 _ Nq), <- EN. apply (NF (S k)). cbn [List.length]. lia. }
    exists t'. split; [rewrite E1; exact E'|]. split; [|split].
    + intros [|k] Hk.
      * cbn [firstn]. rewrite app_nil_r. rewrite B'.
        -- rewrite K1; [exact D|]. unfold next. rewrite <- (app_nil_r cur) at 1.
           intros E. apply app_inv_head in E. discriminate.
        -- intros k _. rewrite <- EN. apply app_longer.
      * cbn [firstn]. rewrite EN. apply A'. cbn [List.length] in Hk. lia.
    + intros q Hq. rewrite B'.
      * apply K1. specialize (Hq 1%nat ltac:(cbn [List.length]; lia)). exact Hq.
      * intros k Hk. rewrite <- EN. apply (Hq (S k)). cbn [List.length]. lia.
    + intros q h Hq. apply C', F1, Hq.
Qed.

Lemma firstn_app_le {A} (l1 l2 : list A) k :
  (k <= List.length l1)%nat -> firstn k (l1 ++ l2) = firstn k l1.
Proof.
  intros H. rewrite firstn_app. replace (k - List.length l1)%nat with 0%nat by lia.
  cbn [firstn]. apply app_nil_r.
Qed.

Lemma prefix_is_not_target (base dirs : list string) name k :
  (base ++ dirs ++ [name])%list <> (base ++ firstn k dirs)%list.
Proof.
  intros E. apply app_inv_head in E.
  apply (f_equal (@List.length string)) in E.
  rewrite length_app in E. cbn [List.length] in E.
  rewrite length_firstn in E. lia.
Qed.

(** X17.  [create_file] creates the directories that are missing on
    the way to the file.  For a path without [..] whose directories
    are not blocked by a regular file and whose last name is not a
    directory, the call returns normally; afterwards every directory
    on the way exists, the file holds the content, and every other
    regular file is as it was. *)
Theorem create_file_makes_missing_directories
    (w : world) (path content : string) (dirs : list string) (name : string) :
  let file_path := Pathlib.of_string path in
  let base := if Pathlib.absolute file_path then [] else cwd w in
  let target := (base ++ dirs ++ [name])%list in
  Pathlib.parts file_path = (dirs ++ [name])%list ->
  Py.mem ".." (Pathlib.parts file_path) = false ->
  kind_of (FS.lookup (fs w) base) = KDir ->
  (forall k, (k <= List.length dirs)%nat ->
             kind_of (FS.lookup (fs w) (base ++ firstn k dirs)) <> KFile) ->
  kind_of (FS.lookup (fs w) target) <> KDir ->
  let r := create_file path content w in
  fst r = Return tt /\
  (exists readable,
     FS.lookup (fs (snd r)) target
     = Some (File (mkFile (Text.encode content) readable))) /\
  (forall k, (k <= List.length dirs)%nat ->
             kind_of (FS.lookup (fs (snd r)) (base ++ firstn k dirs)) = KDir) /\
  (forall q h, q <> target -> FS.lookup (fs w) q = Some (File h) ->
               FS.lookup (fs (snd r)) q = Some (File h)).
Proof.
  intros file_path base target EP M D NF NT r.
  destruct (of_string_parts path) as [TR _]. fold file_path in TR.
  assert (Py.mem ".." dirs = false) as Md.
  { rewrite EP, mem_app in M. apply orb_false_iff in M. apply M. }
  destruct (makedirs_plain dirs (fs w) base Md D NF) as (t1 & E & A & B & C).
  assert (FS.resolve t1 (cwd w) (Pathlib.to_string file_path) = inr target) as R.
  { unfold file_path. rewrite resolve_to_string.
    - fold file_path base. rewrite EP. apply locate_plain.
      + rewrite <- EP. exact M.
      + rewrite <- EP. exact TR.
      + intros k Hk. rewrite length_app in Hk. cbn [List.length] in Hk.
        rewrite firstn_app_le by lia. apply A. lia.
    - fold file_path. rewrite EP. destruct dirs; discriminate.
    - fold file_path base. specialize (A 0%nat ltac:(lia)).
      cbn [firstn] in A. rewrite app_nil_r in A. exact A. }
  assert (kind_of (FS.lookup t1 target) <> KDir) as NT1.
  { rewrite B; [exact NT|]. intros k _. apply prefix_is_not_target. }
  assert (exists es, FS.lookup t1 (base ++ dirs) = Some (Dir es)) as [es Dd].
  { specialize (A (List.length dirs) ltac:(lia)). rewrite firstn_all in A.
    destruct (FS.lookup t1 (base ++ dirs)) as [[?|es]|]; try discriminate A. eauto. }
  assert (target = ((base ++ dirs) ++ [name])%list) as ET
      by (unfold target; apply app_assoc).
  subst r. rewrite create_file_run. cbv zeta. fold file_path.
  unfold Pathlib.parent. cbn [Pathlib.absolute Pathlib.parts].
  rewrite EP, removelast_last. fold base. rewrite E.
  unfold FS.write_bytes. rewrite R.
  destruct (FS.lookup t1 target) as [[f|?]|] eqn:L; [|contradiction NT1; reflexivity|];
    cbn [fst snd fs printed with_fs called].
  - split; [reflexivity|]. split; [|split].
    + exists (readable f). apply lookup_put_same. congruence.
    + intros k Hk. erewrite kind_lookup_put by exact L. apply A, Hk.
    + intros q h Nq Hq. eapply lookup_put_other_file; eauto.
  - split; [reflexivity|]. rewrite ET in L |- *. split; [|split].
    + exists true. eapply lookup_put_new; eassumption.
    + intros k Hk. erewrite kind_lookup_put_new; eauto.
      rewrite <- ET. intros Eq. symmetry in Eq. revert Eq. apply prefix_is_not_target.
    + intros q h _ Hq. eapply file_lookup_put_new; eauto.
Qed.

Lemma create_file_makes_missing_directories_witness :
  let r := create_file "src/util/new.txt" "fresh" Samples.notes in
  fst r = Return tt /\
  FS.read_bytes (fs (snd r)) (cwd (snd r)) "src/util/new.txt" = inr "fresh" /\
  (forall k, (k <= 2)%nat ->
     kind_of (FS.lookup (fs (snd r))
                (["home"; "dev"; "project"] ++ firstn k ["src"; "util"])) = KDir) /\
  FS.read_bytes (fs (snd r)) (cwd (snd r)) "notes.txt" = inr "hello".
Proof.
  intros r. split; [reflexivity|]. split; [reflexivity|]. split; [|reflexivity].
  refine (proj1 (proj2 (proj2
    (create_file_makes_missing_directories Samples.notes "src/util/new.txt" "fresh"
       ["src"; "util"] "new.txt" eq_refl eq_refl eq_refl _ _)))).
  - intros [|[|[|k]]] Hk; discriminate.
  - discriminate.
Defined.

(** With a regular file on the way, [mkdir] fails and changes nothing. *)
Lemma makedirs_blocked t : forall parts cur k,
  Py.mem ".." parts = false ->
  kind_of (FS.lookup t cur) = KDir ->
  (k <= List.length parts)%nat ->
  kind_of (FS.lookup t (cur ++ firstn k parts)) = KFile ->
  exists e, FS.makedirs t cur parts = inl e /\
            (e = FileExistsError \/ e = NotADirectoryError).
Proof.
  induction parts as [|c rest IH]; intros cur k M D Hk F.
  - rewrite firstn_nil, app_nil_r in F. congruence.
  - apply mem_cons_false in M. destruct M as [C M].
    destruct k as [|k].
    { cbn [firstn] in F. rewrite app_nil_r in F. congruence. }
    cbn [firstn] in F. cbn [List.length] in Hk.
    replace (cur ++ c :: firstn k rest)%list
      with ((cur ++ [c]) ++ firstn k rest)%list in F
      by (rewrite <- app_assoc; reflexivity).
    cbn [FS.makedirs].
    destruct (FS.lookup t cur) as [[?|es]|]; try discriminate D. rewrite C.
    destruct (FS.lookup t (cur ++ [c])) as [[f|es1]|] eqn:L.
    + destruct rest; cbn [FS.makedirs]; rewrite L; eauto.
    + apply (IH (cur ++ [c])%list k M); [rewrite L; reflexivity|lia|exact F].
    + rewrite (lookup_app_None _ _ _ L) in F. discriminate F.
Qed.

(** X18.  [create_file] does not replace a regular file by a
    directory.  For a path without [..]: when one of the directories
    on the way to the file is a regular file, the call ends with
    [FileExistsError] or [NotADirectoryError] after the attempt to
    make the directories; nothing is written and nothing is printed.
    (Without [..] every directory before the regular file exists, so
    the attempt fails before it has made any.) *)
Theorem create_file_below_a_file_raises
    (w : world) (path content : string) (dirs : list string) (name : string)
    (k : nat) :
  let file_path := Pathlib.of_string path in
  let base := if Pathlib.absolute file_path then [] else cwd w in
  Pathlib.parts file_path = (dirs ++ [name])%list ->
  Py.mem ".." (Pathlib.parts file_path) = false ->
  kind_of (FS.lookup (fs w) base) = KDir ->
  (k <= List.length dirs)%nat ->
  kind_of (FS.lookup (fs w) (base ++ firstn k dirs)) = KFile ->
  exists e,
    (e = FileExistsError \/ e = NotADirectoryError) /\
    create_file path content w
    = (Raise e,
       called (SysMkdir (Pathlib.to_string (Pathlib.parent file_path))) w).
Proof.
  intros file_path base EP M D Hk F.
  assert (Py.mem ".." dirs = false) as Md.
  { rewrite EP, mem_app in M. apply orb_false_iff in M. apply M. }
  destruct (makedirs_blocked (fs w) dirs base k Md D Hk F) as (e & E & Ee).
  exists e. split; [exact Ee|].
  rewrite create_file_run. cbv zeta. fold file_path.
  unfold Pathlib.parent at 1 2. cbn [Pathlib.absolute Pathlib.parts].
  rewrite EP, removelast_last. fold base. rewrite E. reflexivity.
Qed.

Lemma create_file_below_a_file_raises_witness :
  exists e,
    (e = FileExistsError \/ e = NotADirectoryError) /\
    create_file "notes.txt/sub/new.txt" "fresh" Samples.notes
    = (Raise e, called (SysMkdir "notes.txt/sub") Samples.notes).
Proof.
  apply (create_file_below_a_file_raises Samples.notes "notes.txt/sub/new.txt"
           "fresh" ["notes.txt"; "sub"] "new.txt" 1 eq_refl eq_refl eq_refl).
  - cbn [List.length]. lia.
  - reflexivity.
Defined.

End Parents.

(** ** [normalize_path] and the kernel *)

Section Normalisation.

(** Where the kernel arrives along a path, [Path.resolve] arrives by
    its steps on the components that are not trivial. *)
Lemma locate_realpath t : forall comps cur loc,
  FS.locate t cur comps = inr loc ->
  fold_left Pathlib.realpath_step
    (filter (fun c => negb (FS.trivial c)) comps) cur = loc.
Proof.
  induction comps as [|c rest IH]; intros cur loc H.
  - injection H as <-. reflexivity.
  - rewrite locate_cons in H.
    destruct (FS.lookup t cur) as [[?|es]|]; try discriminate.
    cbn [filter]. destruct (FS.trivial c); cbn [negb]; [apply IH, H|].
    cbn [fold_left]. unfold Pathlib.realpath_step at 2.
    destruct (c =? "..")%string; apply IH, H.
Qed.

Lemma Forall_removelast {A} (P : A -> Prop) l : Forall P l -> Forall P (removelast l).
Proof.
  induction 1 as [|a l Ha Hl IH]; [constructor|].
  destruct l; [constructor|]. cbn [removelast]. constructor; assumption.
Qed.

Lemma locate_plain_names t : forall comps cur loc,
  FS.locate t cur comps = inr loc ->
  Forall (fun c => has_sep c = false) comps ->
  Forall (fun c => plain_name c = true) cur ->
  Forall (fun c => plain_name c = true) loc.
Proof.
  induction comps as [|c rest IH]; intros cur loc H S P.
  - injection H as <-. exact P.
  - rewrite locate_cons in H. inversion S as [|? ? Sc Sr]; subst.
    destruct (FS.lookup t cur) as [[?|es]|]; try discriminate.
    destruct (FS.trivial c) eqn:T; [eapply IH; eassumption|].
    destruct (c =? "..")%string eqn:C.
    + eapply IH; [exact H|exact Sr|]. apply Forall_removelast, P.
    + eapply IH; [exact H|exact Sr|]. apply Forall_app. split; [exact P|].
      constructor; [|constructor]. unfold plain_name. rewrite T, C, Sc. reflexivity.
Qed.

(** Where the kernel arrives, it has come through a directory. *)
Lemma locate_parent_dir t : forall comps cur loc,
  comps <> [] -> FS.locate t cur comps = inr loc ->
  exists es, FS.lookup t (removelast loc) = Some (Dir es).
Proof.
  induction comps as [|c rest IH]; intros cur loc N H; [congruence|].
  destruct rest as [|c' rest].
  - rewrite locate_cons in H.
    destruct (FS.lookup t cur) as [[?|es]|] eqn:L; try discriminate.
    destruct (FS.trivial c).
    { injection H as <-. eapply lookup_removelast, L. }
    destruct (c =? "..")%string.
    { injection H as <-. destruct (lookup_removelast _ _ _ L) as [es' L'].
      eapply lookup_removelast, L'. }
    injection H as <-. rewrite removelast_last. eauto.
  - rewrite locate_cons in H.
    destruct (FS.lookup t cur) as [[?|es]|]; try discriminate.
    destruct (FS.trivial c); [eapply IH; [discriminate|exact H]|].
    destruct (c =? "..")%string; (eapply IH; [discriminate|exact H]).
Qed.

Lemma lookup_firstn_dir : forall p t es k,
  FS.lookup t p = Some (Dir es) -> kind_of (FS.lookup t (firstn k p)) = KDir.
Proof.
  induction p as [|c p IH]; intros t es k H.
  - rewrite firstn_nil, H. reflexivity.
  - destruct k as [|k]; cbn [firstn].
    + destruct t; [discriminate H|reflexivity].
    + destruct t as [f|es0]; [discriminate H|]. cbn [FS.lookup] in *.
      destruct (FS.assoc c es0); [eapply IH, H|discriminate].
Qed.

(** The kernel resolves the string of an absolute path object of plain
    names to those names, when the directories on the way exist. *)
Lemma resolve_absolute_string t cwd loc :
  Forall (fun c => plain_name c = true) loc ->
  (forall k, (k < List.length loc)%nat ->
             kind_of (FS.lookup t (firstn k loc)) = KDir) ->
  kind_of (FS.lookup t []) = KDir ->
  FS.resolve t cwd (Pathlib.to_string (Pathlib.mkPath true loc)) = inr loc.
Proof.
  intros P D R.
  change (Pathlib.to_string (Pathlib.mkPath true loc))
    with (String OsPath.sep (Py.join "/" loc)).
  unfold FS.resolve, FS.start, Py.startswith.
  cbn [String.eqb String.prefix]. simpl ascii_dec. cbv iota. rewrite prefix_nil.
  change (Py.split OsPath.sep (String OsPath.sep (Py.join "/" loc)))
    with ("" :: Py.split OsPath.sep (Py.join "/" loc)).
  rewrite locate_cons.
  destruct (FS.lookup t []) as [[?|es]|] eqn:L; try discriminate R.
  change (FS.trivial "") with true. cbv iota.
  destruct loc as [|c loc].
  - cbn [Py.join Py.split]. rewrite locate_cons, L. reflexivity.
  - rewrite split_join; [|discriminate|].
    + apply (locate_plain t (c :: loc) []).
      * unfold Py.mem. apply not_true_is_false. intros E.
        apply existsb_exists in E. destruct E as (x & I & E).
        apply String.eqb_eq in E. subst x.
        pose proof (proj1 (Forall_forall _ _) P _ I) as Px. discriminate Px.
      * eapply Forall_impl; [|exact P]. cbv beta. intros a Pa. unfold plain_name in Pa.
        destruct (FS.trivial a); [discriminate Pa|reflexivity].
      * exact D.
    + eapply Forall_impl; [|exact P]. cbv beta. intros a Pa. unfold plain_name in Pa.
      destruct (has_sep a); [|reflexivity].
      rewrite andb_false_r in Pa. discriminate Pa.
Qed.

(** X19.  [normalize_path] keeps the file: when the path as typed
    leads somewhere for the kernel, the normalised path is absolute
    and leads to the same place, so that [/add] reads the file or
    walks the directory that the user named. *)
Theorem normalize_path_keeps_the_file
    (w : world) (path_str : string) (loc : list string) :
  Forall (fun c => plain_name c = true) (cwd w) ->
  FS.resolve (fs w) (cwd w) path_str = inr loc ->
  exists normalized_path,
    normalize_path path_str w = (Return normalized_path, w) /\
    Py.startswith normalized_path "/" = true /\
    FS.resolve (fs w) (cwd w) normalized_path = inr loc.
Proof.
  intros P R.
  assert (Py.mem ".." (cwd w) = false) as M.
  { unfold Py.mem. apply not_true_is_false. intros E.
    apply existsb_exists in E. destruct E as (x & I & E).
    apply String.eqb_eq in E. subst x.
    pose proof (proj1 (Forall_forall _ _) P _ I) as Px. discriminate Px. }
  exists (Pathlib.to_string (Pathlib.resolve (cwd w) (Pathlib.of_string path_str))).
  split; [apply normalize_path_accepts_every_path, M|].
  split.
  { unfold Pathlib.resolve.
    change (Pathlib.to_string (Pathlib.mkPath true ?l))
      with (String OsPath.sep (Py.join "/" l)).
    unfold Py.startswith. cbn [String.prefix]. simpl ascii_dec. cbv iota.
    apply prefix_nil. }
  unfold FS.resolve in R. destruct (path_str =? "")%string; [discriminate|].
  assert (Pathlib.resolve (cwd w) (Pathlib.of_string path_str)
          = Pathlib.mkPath true loc) as ->.
  { unfold Pathlib.resolve. f_equal. apply (locate_realpath (fs w)). exact R. }
  destruct (locate_start_dir _ _ _ _ (split_nonempty path_str) R) as [es0 D0].
  destruct (locate_parent_dir _ _ _ _ (split_nonempty path_str) R) as [es1 D1].
  apply resolve_absolute_string.
  - eapply locate_plain_names; [exact R|apply split_no_sep|].
    unfold FS.start. destruct (Py.startswith path_str "/"); [constructor|exact P].
  - intros k Hk.
    replace (firstn k loc) with (firstn k (removelast loc)).
    + eapply lookup_firstn_dir, D1.
    + rewrite removelast_firstn_len, firstn_firstn. f_equal. lia.
  - apply (lookup_firstn_dir _ _ _ 0%nat D0).
Qed.

Lemma normalize_path_keeps_the_file_witness :
  FS.resolve (fs Samples.notes) (cwd Samples.notes) "./../project//notes.txt"
  = inr ["home"; "dev"; "project"; "notes.txt"] /\
  exists normalized_path,
    normalize_path "./../project//notes.txt" Samples.notes
    = (Return normalized_path, Samples.notes) /\
    Py.startswith normalized_path "/" = true /\
    FS.resolve (fs Samples.notes) (cwd Samples.notes) normalized_path
    = inr ["home"; "dev"; "project"; "notes.txt"].
Proof.
  split; [reflexivity|].
  apply (normalize_path_keeps_the_file Samples.notes "./../project//notes.txt").
  - repeat constructor.
  - reflexivity.
Defined.

End Normalisation.

(** ** Every file is accounted for *)

Section Completeness.

Lemma visit_file_records root file st w st' :
  fst (visit_file root file st w) = Return st' ->
  let full_path := OsPath.join root file in
  st' = add st full_path \/ st' = skip st full_path \/
  st' = skip st (full_path ++ " (exceeds size limit)").
Proof.
  remember (visit_file root file st w) as r eqn:E. unfold visit_file in E.
  intros H full_path.
  destruct (excluded_name file).
  { subst r. injection H as <-. auto. }
  destruct (Py.mem _ EXCLUDED_EXTENSIONS).
  { subst r. injection H as <-. auto. }
  fold full_path in E.
  unfold try_except, bind at 1 in E. rewrite getsize_run in E.
  destruct (FS.stat_size (fs w) (cwd w) full_path) as [e|size].
  { destruct (isinstance_OSError e); subst r; cbn [fst ret] in H;
      [injection H as <-; auto|discriminate H]. }
  destruct (size >? MAX_FILE_SIZE).
  { subst r. injection H as <-. auto. }
  unfold bind at 1 in E. rewrite is_binary_file_run in E.
  destruct (match FS.read_bytes _ _ _ with inl _ => true | inr b => _ end).
  { subst r. injection H as <-. auto. }
  unfold bind in E.
  destruct (add_file_to_conversation full_path _) as [[[]|e] w1].
  - subst r. injection H as <-. auto.
  - destruct (isinstance_OSError e); subst r; cbn [fst ret] in H;
      [injection H as <-; auto|discriminate H].
Qed.

Lemma extends_refl st : extends st st.
Proof. split; [lia|]. split; apply incl_refl. Qed.

Lemma extends_trans st1 st2 st3 : extends st1 st2 -> extends st2 st3 -> extends st1 st3.
Proof.
  intros (T1 & A1 & S1) (T2 & A2 & S2). split; [lia|].
  split; eapply incl_tran; eassumption.
Qed.

Lemma extends_add st p : extends st (add st p).
Proof.
  split; [cbn [add total_files_processed]; lia|].
  split; [apply incl_appl, incl_refl|apply incl_refl].
Qed.

Lemma extends_skip st p : extends st (skip st p).
Proof.
  split; [cbn [skip total_files_processed]; lia|].
  split; [apply incl_refl|apply incl_appl, incl_refl].
Qed.

Lemma accounted_extends st st' p : extends st st' -> accounted st p -> accounted st' p.
Proof.
  intros (_ & A & S) [H|[H|H]]; [left; apply A, H|right; left; apply S, H|].
  right. right. apply S, H.
Qed.

Lemma visit_file_extends root file st w st' :
  fst (visit_file root file st w) = Return st' ->
  extends st st' /\ accounted st' (OsPath.join root file).
Proof.
  intros H. destruct (visit_file_records _ _ _ _ _ H) as [->|[->| ->]].
  - split; [apply extends_add|]. left. apply in_or_app. right. left. reflexivity.
  - split; [apply extends_skip|]. right. left. apply in_or_app. right. left.
    reflexivity.
  - split; [apply extends_skip|]. right. right. apply in_or_app. right. left.
    reflexivity.
Qed.

(** The counter never goes down and the lists never lose a path. *)
Lemma walk_extends n root st w st' b w' :
  walk root n st w = (Return (st', b), w') -> extends st st'.
Proof.
  apply (walk_invariant (fun st1 _ => extends st st1)); auto.
  - intros r f st1 w1 st2 w2 H V. eapply extends_trans; [exact H|].
    apply (visit_file_extends r f st1 w1). rewrite V. reflexivity.
  - apply extends_refl.
Qed.

Lemma visit_files_complete root : forall files st w st' w',
  visit_files root files st w = (Return st', w') ->
  total_files_processed st' < MAX_FILES_TO_PROCESS ->
  extends st st' /\
  forall file, In file files -> accounted st' (OsPath.join root file).
Proof.
  induction files as [|file rest IH]; intros st w st' w' E B.
  - injection E as <- <-. split; [apply extends_refl|]. intros f [].
  - cbn [visit_files] in E.
    destruct (Z.geb_spec (total_files_processed st) MAX_FILES_TO_PROCESS) as [G|_].
    { injection E as <- <-. lia. }
    destruct (visit_file root file st w) as [[st1|e] w1] eqn:V.
    + rewrite (bind_Return _ _ _ _ _ V) in E.
      destruct (IH _ _ _ _ E B) as [X1 A1].
      destruct (visit_file_extends root file st w st1) as [X0 A0];
        [rewrite V; reflexivity|].
      split; [eapply extends_trans; eassumption|].
      intros f [<-|I]; [eapply accounted_extends; eassumption|apply A1, I].
    + rewrite (bind_Raise _ _ _ _ _ V) in E. discriminate E.
Qed.

Lemma descend_complete root : forall es,
  Forall (fun e => forall root st w st' b w',
            walk root (snd e) st w = (Return (st', b), w') ->
            total_files_processed st' < MAX_FILES_TO_PROCESS ->
            b = false /\
            forall p, In p (visible root (snd e)) -> accounted st' p) es ->
  forall st w st' b w',
    descend walk root es st w = (Return (st', b), w') ->
    total_files_processed st' < MAX_FILES_TO_PROCESS ->
    extends st st' /\ b = false /\
    forall p, In p (visible_below visible root es) -> accounted st' p.
Proof.
  induction es as [|[d child] es IH]; intros C st w st' b w' E B.
  - injection E as <- <- <-. split; [apply extends_refl|]. split; [reflexivity|].
    intros p [].
  - inversion C as [|? ? Cd Cr]; subst. cbn [snd] in Cd.
    cbn [descend visible_below] in *.
    destruct (is_dir_node child && negb (excluded_name d)).
    2:{ cbn [app]. eapply IH; eassumption. }
    destruct (walk (OsPath.join root d) child st w) as [[[st1 b1]|e] w1] eqn:W.
    + rewrite (bind_Return _ _ _ _ _ W) in E. cbn [fst snd] in E.
      pose proof (walk_extends _ _ _ _ _ _ _ W) as X0.
      destruct b1.
      * injection E as <- <- <-. destruct (Cd _ _ _ _ _ _ W B) as [F _].
        discriminate F.
      * destruct (IH Cr _ _ _ _ _ E B) as (X1 & -> & A1).
        assert (total_files_processed st1 < MAX_FILES_TO_PROCESS) as B1
            by (destruct X1 as [T _]; lia).
        destruct (Cd _ _ _ _ _ _ W B1) as [_ A0].
        split; [eapply extends_trans; eassumption|]. split; [reflexivity|].
        intros p I. apply in_app_or in I. destruct I as [I|I].
        -- eapply accounted_extends; [exact X1|apply A0, I].
        -- apply A1, I.
    + rewrite (bind_Raise _ _ _ _ _ W) in E. discriminate E.
Qed.

Lemma walk_complete n : forall root st w st' b w',
  walk root n st w = (Return (st', b), w') ->
  total_files_processed st' < MAX_FILES_TO_PROCESS ->
  b = false /\ forall p, In p (visible root n) -> accounted st' p.
Proof.
  induction n as [f|es IH] using node_tree_ind; intros root st w st' b w' E B.
  - injection E as <- <- <-. split; [reflexivity|]. intros p [].
  - cbn [walk] in E. unfold bind at 1, sys in E.
    destruct (Z.geb_spec (total_files_processed st) MAX_FILES_TO_PROCESS) as [G|_].
    { injection E as <- <- <-. lia. }
    destruct (visit_files root (file_names es) st (called (SysScandir root) w))
      as [[st1|e] w1] eqn:V.
    + rewrite (bind_Return _ _ _ _ _ V) in E.
      destruct (descend_complete root es IH _ _ _ _ _ E B) as (X1 & -> & A1).
      assert (total_files_processed st1 < MAX_FILES_TO_PROCESS) as B1
          by (destruct X1 as [T _]; lia).
      destruct (visit_files_complete _ _ _ _ _ _ V B1) as [_ A0].
      split; [reflexivity|]. intros p I. cbn [visible] in I.
      apply in_app_or in I. destruct I as [I|I]; [|apply A1, I].
      apply in_map_iff in I. destruct I as (file & <- & I).
      eapply accounted_extends; [exact X1|apply A0, I].
    + rewrite (bind_Raise _ _ _ _ _ V) in E. discriminate E.
Qed.

(** X20.  Where every directory can be listed, as in the file system
    here, nothing is dropped in silence below the file limit: when a
    directory ingestion ends normally with fewer than 1000 files
    added, every file of the directory and of its sub-directories that
    are not pruned is in the report, as added or as skipped.  (A
    directory that cannot be listed is outside this statement:
    [os.walk] is called without [onerror] and passes over it.) *)
Theorem every_visible_file_is_accounted_for
    (directory_path : string) (w : world) (loc : list string) (n : node)
    (st : walk_state) (p : string) :
  FS.resolve (fs w) (cwd w) directory_path = inr loc ->
  FS.lookup (fs w) loc = Some n ->
  fst (scan_directory directory_path w) = Return st ->
  total_files_processed st < MAX_FILES_TO_PROCESS ->
  In p (visible directory_path n) -> accounted st p.
Proof.
  intros R L E B I. revert E.
  unfold scan_directory, os_walk_top, bind at 1, bind at 1, get_world.
  rewrite R, L. cbn [ret]. unfold bind.
  destruct (walk directory_path n (mkWalk [] [] 0) w) as [[[st1 b]|e] w1] eqn:W;
    [|discriminate].
  cbn [ret fst]. intros E. injection E as <-.
  exact (proj2 (walk_complete n _ _ _ _ _ _ W B) p I).
Qed.

Lemma every_visible_file_is_accounted_for_witness :
  visible "/home/dev/project" Samples.checkout_tree
  = ["/home/dev/project/main.py"; "/home/dev/project/src/app.py"] /\
  accounted (mkWalk [] ["/home/dev/project/main.py"; "/home/dev/project/src/app.py"] 2)
    "/home/dev/project/src/app.py".
Proof.
  split; [reflexivity|].
  apply (every_visible_file_is_accounted_for "/home/dev/project" Samples.checkout
           ["home"; "dev"; "project"] Samples.checkout_tree
           (mkWalk [] ["/home/dev/project/main.py"; "/home/dev/project/src/app.py"] 2)
           "/home/dev/project/src/app.py" eq_refl eq_refl eq_refl eq_refl).
  right. left. reflexivity.
Defined.

End Completeness.

(** ** What an edit cannot do *)

Section EditShape.

Lemma read_bytes_inv t cwd path bytes :
  FS.read_bytes t cwd path = inr bytes ->
  exists loc f,
    FS.resolve t cwd path = inr loc /\ FS.lookup t loc = Some (File f) /\
    readable f = true /\ data f = bytes.
Proof.
  unfold FS.read_bytes.
  destruct (FS.resolve t cwd path) as [e|loc] eqn:R; [discriminate|].
  destruct (FS.lookup t loc) as [[f|es]|] eqn:L; try discriminate.
  destruct (readable f) eqn:A; [|discriminate].
  intros H. injection H as <-. exists loc, f. auto.
Qed.

(** X21.  An edit never creates and never removes anything: whatever
    the path, the snippets and the state of the disk, and however the
    call ends, every path names after [apply_diff_edit] what it named
    before: a regular file, a directory, or nothing.  In particular an
    edit of a file that does not exist does not create it. *)
Theorem edit_never_creates_or_removes
    (w : world) (path original_snippet new_snippet : string) (q : list string) :
  let w' := snd (apply_diff_edit path original_snippet new_snippet w) in
  kind_of (FS.lookup (fs w') q) = kind_of (FS.lookup (fs w) q) /\ cwd w' = cwd w.
Proof.
  intros w'. subst w'.
  destruct (FS.read_bytes (fs w) (cwd w) path) as [e|bytes] eqn:R.
  - rewrite (apply_diff_edit_read_error _ _ _ _ _ R).
    destruct (isinstance_FileNotFoundError e); split; reflexivity.
  - destruct (Text.decode bytes) as [text|] eqn:D.
    + destruct (read_bytes_inv _ _ _ _ R) as (loc & f & RL & L & A & <-).
      rewrite (apply_diff_edit_text w path _ _ loc f text) by assumption.
      cbn [snd]. unfold printed, rewritten, called. cbn [fs cwd].
      split; [|reflexivity]. eapply kind_lookup_put, L.
    + unfold apply_diff_edit. erewrite try_Raise.
      2:{ eapply bind_Raise. eapply read_local_file_undecodable; eassumption. }
      split; reflexivity.
Qed.

End EditShape.

(** ** Line endings *)

Section LineEndings.

Lemma no_char_app c a b : no_char c a -> no_char c b -> no_char c (a ++ b).
Proof.
  induction a as [|x a IH]; intros A B; [exact B|].
  destruct A as [X A]. split; [exact X|apply IH; assumption].
Qed.

Lemma no_char_drop c : forall n s, no_char c s -> no_char c (Py.drop n s).
Proof.
  induction n as [|n IH]; intros s H; [destruct s; exact H|].
  destruct s as [|x s]; [exact H|]. apply IH, H.
Qed.

Lemma replace1_no_char c old new : forall s,
  no_char c new -> no_char c s -> no_char c (Py.replace1 old new s).
Proof.
  induction s as [|x s IH]; intros N S.
  - cbn [Py.replace1]. destruct (String.prefix old "");
      [apply no_char_app; [exact N|apply no_char_drop, S]|exact S].
  - rewrite replace1_cons. destruct (String.prefix old (String x s)).
    + apply no_char_app; [exact N|apply no_char_drop, S].
    + destruct S as [X S]. split; [exact X|apply IH; assumption].
Qed.

(** Text read with universal newlines holds no carriage return. *)
Lemma universal_newlines_no_CR : forall n s,
  (String.length s <= n)%nat -> no_char Text.CR (Text.universal_newlines s).
Proof.
  induction n as [|n IH]; intros s H.
  - destruct s; [exact Logic.I|cbn [String.length] in H; lia].
  - destruct s as [|c s]; [exact Logic.I|]. cbn [String.length] in H.
    cbn [Text.universal_newlines]. destruct (Ascii.eqb_spec c Text.CR) as [->|N].
    + destruct s as [|d s]; [split; [reflexivity|exact Logic.I]|].
      cbn [String.length] in H.
      destruct (Ascii.eqb d Text.LF); (split; [reflexivity|apply IH]);
        cbn [String.length]; lia.
    + split; [apply Ascii.eqb_neq, N|apply IH; lia].
Qed.

(** X22.  An applied edit normalises the line endings of the whole
    file: the file is read with universal newlines and written back in
    full, so when the new snippet holds no carriage return, neither
    does the file afterwards, wherever the snippet was and whether or
    not it occurred. *)
Theorem edit_normalises_line_endings
    (w : world) (path original_snippet new_snippet : string)
    (loc : list string) (f : file) (text : string) :
  FS.resolve (fs w) (cwd w) path = inr loc ->
  FS.lookup (fs w) loc = Some (File f) ->
  readable f = true -> Text.decode (data f) = Some text ->
  no_char Text.CR new_snippet ->
  let w' := snd (apply_diff_edit path original_snippet new_snippet w) in
  exists bytes,
    FS.read_bytes (fs w') (cwd w') path = inr bytes /\ no_char Text.CR bytes.
Proof.
  intros R L A D N w'. subst w'.
  rewrite (apply_diff_edit_text w path _ _ loc f text) by assumption.
  cbn [snd].
  exists (Text.encode (Py.replace1 original_snippet new_snippet text)). split.
  - apply (read_back (called (SysOpenRead path) w) path loc f); assumption.
  - unfold Text.encode. apply replace1_no_char; [exact N|].
    unfold Text.decode in D. destruct (Text.utf8_valid (data f)); [|discriminate].
    injection D as <-. eapply universal_newlines_no_CR. reflexivity.
Qed.

Lemma edit_normalises_line_endings_witness :
  FS.read_bytes (fs Samples.dos) (cwd Samples.dos) "dos.txt"
  = inr ("one" ++ String Text.CR (String Text.LF "two")) /\
  let w' := snd (apply_diff_edit "dos.txt" "two" "2" Samples.dos) in
  exists bytes,
    FS.read_bytes (fs w') (cwd w') "dos.txt" = inr bytes /\
    no_char Text.CR bytes.
Proof.
  split; [reflexivity|].
  apply (edit_normalises_line_endings Samples.dos "dos.txt" "two" "2"
           ["home"; "dev"; "project"; "dos.txt"] (mkFile Samples.dos_bytes true)
           (Text.universal_newlines Samples.dos_bytes));
    try reflexivity.
  split; [reflexivity|exact Logic.I].
Defined.

End LineEndings.
